(** * Nodes handler: a shallow embedding of [src/__init__.py]

    The Python module implements a router ([NodesHandler]) over a graph of
    dialog nodes ([Node], [NamedNode], [SwitchNode], [NamedSwitchNode]) with
    per-user state ([UserStatus], kept in a [UserStatusList]) and a back
    navigation stack ([NodesHistory]).

    Modelling decisions.
    - Python objects that are mutated and shared live in stores: the user
      registry is a [gmap] from user ids to [UserStatus.t]; nodes are
      referenced by [node_ref] and live in a [gmap] node store, since the
      node graph may be cyclic and [NodesHistory.add] / [Node.handle_inside]
      write to nodes ([back_str], [user_status_list]).
    - A framework handler ([telegram.ext.Handler]) is a record with its
      identity, its [check_update] predicate and the value its callback
      returns.  Running a callback is recorded in the effect log; callbacks
      are assumed not to write to the router's own state.
    - Methods run in a state-and-exception monad; Python exceptions keep the
      state reached when they are raised.  The mutual recursion between
      [Node.handle_entry] and [Node.handle_inside] is bounded by fuel.
    - Matcher lists hold framework handlers; an update carries the id of its
      effective user, which is also the sender of its message. *)

From stdpp Require Import gmap strings list fin_maps.

Set Warnings "-register-all".
Open Scope Z_scope.

(** ** Values of the host language *)

(** Classes of objects that can be handed to [reply_object]. *)
Inductive tg_class :=
| Str | Audio | Contact | Document | Location | PhotoSize
| Sticker | Venue | Video | VideoNote | Voice | OtherObject.

Definition tg_class_eqb (a b : tg_class) : bool :=
  match a, b with
  | Str, Str | Audio, Audio | Contact, Contact | Document, Document
  | Location, Location | PhotoSize, PhotoSize | Sticker, Sticker
  | Venue, Venue | Video, Video | VideoNote, VideoNote | Voice, Voice
  | OtherObject, OtherObject => true
  | _, _ => false
  end.

(** [TO_SEND] values: [None], a string, a Telegram object of some class
    (identified by [oid]), a list or a tuple. *)
Inductive pyobj :=
| PNone
| PStr (s : string)
| PTg (c : tg_class) (oid : nat)
| PList (items : list pyobj)
| PTuple (items : list pyobj).

(** Python truthiness of such a value. *)
Definition truthy (o : pyobj) : bool :=
  match o with
  | PNone => false
  | PStr s => negb (String.eqb s "")
  | PTg _ _ => true
  | PList l | PTuple l => match l with [] => false | _ => true end
  end.

(** [obj.__class__], with [None] for values that are not Telegram objects or
    strings. *)
Definition class_of (o : pyobj) : option tg_class :=
  match o with
  | PStr _ => Some Str
  | PTg c _ => Some c
  | _ => None
  end.

Definition ALLOWED_TELEGRAM_OBJECTS_WITH_CAPTION : list tg_class :=
  [Audio; Document; PhotoSize; Video; Voice].

Definition class_in (c : tg_class) (l : list tg_class) : bool :=
  existsb (tg_class_eqb c) l.

(** Buttons of a reply keyboard: a string or a [KeyboardButton] object. *)
Inductive button :=
| BStr (s : string)
| BButton (label : string).

Definition KEYBOARD := list (list button).

Inductive reply_markup :=
| ReplyKeyboardMarkup (keyboard : KEYBOARD)
| InlineKeyboardMarkup (inline_keyboard : list (list nat))
| ReplyKeyboardRemove.

(** ** Updates, handler results and handlers *)

Record Update := { effective_user_id : Z; text : string }.

Definition node_ref := nat.

(** What a handler callback returns: [None], a node, an integer, or some
    other value. *)
Inductive handle_result :=
| RNone
| RNode (n : node_ref)
| RInt (z : Z)
| ROther.

Definition INSIDE_NOT_VALID : Z := -1.

Definition is_INSIDE_NOT_VALID (r : handle_result) : bool :=
  match r with
  | RInt z => Z.eqb z INSIDE_NOT_VALID
  | _ => false
  end.

Module Handler.
Record t := {
  hid : nat;
  check_update : Update -> bool;
  callback : Update -> handle_result
}.
End Handler.

(** [handler in handlers]: membership by object identity. *)
Definition handler_in (h : Handler.t) (l : list Handler.t) : bool :=
  existsb (fun c => Nat.eqb (Handler.hid c) (Handler.hid h)) l.

(** [RegexHandler(pattern='^' + re.escape(s) + '$', callback=...)] with a
    callback that returns [None]. *)
Definition exact_text_handler (id : nat) (s : string) : Handler.t :=
  {| Handler.hid := id;
     Handler.check_update := fun u => String.eqb (text u) s;
     Handler.callback := fun _ => RNone |}.

(** What [UserStatus.current_handler] can hold: a framework handler, a node
    (nodes are handlers), or, as [check_update] stores it at the exit level,
    a whole list of handlers. *)
Inductive current_handler_value :=
| HHandler (h : Handler.t)
| HNode (n : node_ref)
| HList (l : list Handler.t).

(** ** NodesHistory *)

Inductive exn := AttributeError | IndexError | TypeError.

Module NodesHistory.
(** The list [self._]; the top of the stack is the last element. *)
Definition t := list node_ref.

Definition init : t := [].

Definition set_root (root_node : node_ref) : t := [root_node].

Definition current (h : t) : option node_ref := last h.

Definition can_back (h : t) : bool := (1 <? length h)%nat.

(** [self._.pop(); return self._[-1]]: the result, or the exception, along
    with the list as the call leaves it. *)
Definition back (h : t) : (exn + node_ref) * t :=
  match h with
  | [] => (inl IndexError, [])
  | _ =>
      let h' := removelast h in
      match last h' with
      | Some n => (inr n, h')
      | None => (inl IndexError, h')
      end
  end.

Definition len (h : t) : nat := length h.
End NodesHistory.

(** ** UserStatus and UserStatusList *)

Module UserStatus.
Record t := {
  nodes_handler_entered : bool;
  current_handler : option current_handler_value;
  current_node_handler : option Handler.t;
  nodes_history : NodesHistory.t;
  display_node : option node_ref;
  is_inside_current_node : bool;
  next_node : option node_ref
}.

Definition init : t :=
  {| nodes_handler_entered := false;
     current_handler := None;
     current_node_handler := None;
     nodes_history := NodesHistory.init;
     display_node := None;
     is_inside_current_node := false;
     next_node := None |}.

Definition set_nodes_handler_entered (b : bool) (s : t) : t :=
  {| nodes_handler_entered := b;
     current_handler := current_handler s;
     current_node_handler := current_node_handler s;
     nodes_history := nodes_history s;
     display_node := display_node s;
     is_inside_current_node := is_inside_current_node s;
     next_node := next_node s |}.

Definition set_current_handler (h : option current_handler_value) (s : t) : t :=
  {| nodes_handler_entered := nodes_handler_entered s;
     current_handler := h;
     current_node_handler := current_node_handler s;
     nodes_history := nodes_history s;
     display_node := display_node s;
     is_inside_current_node := is_inside_current_node s;
     next_node := next_node s |}.

Definition set_current_node_handler (h : option Handler.t) (s : t) : t :=
  {| nodes_handler_entered := nodes_handler_entered s;
     current_handler := current_handler s;
     current_node_handler := h;
     nodes_history := nodes_history s;
     display_node := display_node s;
     is_inside_current_node := is_inside_current_node s;
     next_node := next_node s |}.

Definition set_nodes_history (h : NodesHistory.t) (s : t) : t :=
  {| nodes_handler_entered := nodes_handler_entered s;
     current_handler := current_handler s;
     current_node_handler := current_node_handler s;
     nodes_history := h;
     display_node := display_node s;
     is_inside_current_node := is_inside_current_node s;
     next_node := next_node s |}.

Definition set_display_node (n : option node_ref) (s : t) : t :=
  {| nodes_handler_entered := nodes_handler_entered s;
     current_handler := current_handler s;
     current_node_handler := current_node_handler s;
     nodes_history := nodes_history s;
     display_node := n;
     is_inside_current_node := is_inside_current_node s;
     next_node := next_node s |}.

Definition set_is_inside_current_node (b : bool) (s : t) : t :=
  {| nodes_handler_entered := nodes_handler_entered s;
     current_handler := current_handler s;
     current_node_handler := current_node_handler s;
     nodes_history := nodes_history s;
     display_node := display_node s;
     is_inside_current_node := b;
     next_node := next_node s |}.

Definition set_next_node (n : option node_ref) (s : t) : t :=
  {| nodes_handler_entered := nodes_handler_entered s;
     current_handler := current_handler s;
     current_node_handler := current_node_handler s;
     nodes_history := nodes_history s;
     display_node := display_node s;
     is_inside_current_node := is_inside_current_node s;
     next_node := n |}.

Definition enter_current_node := set_is_inside_current_node true.
Definition exit_current_node := set_is_inside_current_node false.
Definition enter_nodes_handler := set_nodes_handler_entered true.
Definition exit_nodes_handler := set_nodes_handler_entered false.
End UserStatus.

Module UserStatusList.
(** The dictionary [self._]. *)
Abbreviation t := (gmap Z UserStatus.t).

Definition init : t := ∅.

Definition init_user (user_id : Z) (l : t) : t :=
  <[user_id := UserStatus.init]> l.

Definition user_status (user_id : Z) (l : t) : option UserStatus.t :=
  l !! user_id.

Definition len (l : t) : nat := size l.

Definition contains (user_id : Z) (l : t) : bool :=
  bool_decide (is_Some (l !! user_id)).

(** [__getitem__]: the registry after the call, and the session the call
    returns (the one stored under [user_id]). *)
Definition getitem (user_id : Z) (l : t) : t * option UserStatus.t :=
  let l' := if contains user_id l then l else init_user user_id l in
  (l', l' !! user_id).
End UserStatusList.

(** ** Nodes *)

Inductive node_class := ClsNode | ClsNamedNode | ClsSwitchNode | ClsNamedSwitchNode.

Definition is_NamedNode (c : node_class) : bool :=
  match c with ClsNamedNode | ClsNamedSwitchNode => true | _ => false end.

Definition is_SwitchNode (c : node_class) : bool :=
  match c with ClsSwitchNode | ClsNamedSwitchNode => true | _ => false end.

Module Node.
Record t := {
  cls : node_class;
  name : string;                        (* NamedNode only *)
  switch_nodes : list node_ref;         (* SwitchNode only *)
  entry_handlers : list Handler.t;
  auto_entry : bool;
  hello : pyobj;
  __reply_keyboard : option KEYBOARD;   (* [Some] when the stored value is a list *)
  remove_keyboard : bool;
  inline_keyboard : option (list (list nat));
  inside_handlers : list Handler.t;
  inside_fallbacks : list Handler.t;
  goodbye : pyobj;
  parse_mode : string;
  user_status_list : bool;              (* [false]: None; [true]: the router's registry *)
  switch_on_this : bool;
  allow_back : bool;
  next_node : option node_ref;
  back_str : option string
}.

Definition set_user_status_list (b : bool) (n : t) : t :=
  {| cls := cls n; name := name n; switch_nodes := switch_nodes n;
     entry_handlers := entry_handlers n; auto_entry := auto_entry n;
     hello := hello n; __reply_keyboard := __reply_keyboard n;
     remove_keyboard := remove_keyboard n; inline_keyboard := inline_keyboard n;
     inside_handlers := inside_handlers n; inside_fallbacks := inside_fallbacks n;
     goodbye := goodbye n; parse_mode := parse_mode n;
     user_status_list := b;
     switch_on_this := switch_on_this n; allow_back := allow_back n;
     next_node := next_node n; back_str := back_str n |}.

Definition set_back_str (b : option string) (n : t) : t :=
  {| cls := cls n; name := name n; switch_nodes := switch_nodes n;
     entry_handlers := entry_handlers n; auto_entry := auto_entry n;
     hello := hello n; __reply_keyboard := __reply_keyboard n;
     remove_keyboard := remove_keyboard n; inline_keyboard := inline_keyboard n;
     inside_handlers := inside_handlers n; inside_fallbacks := inside_fallbacks n;
     goodbye := goodbye n; parse_mode := parse_mode n;
     user_status_list := user_status_list n;
     switch_on_this := switch_on_this n; allow_back := allow_back n;
     next_node := next_node n; back_str := b |}.

(** [Node.next]: wires the static successor. *)
Definition next (nxt : node_ref) (n : t) : t :=
  {| cls := cls n; name := name n; switch_nodes := switch_nodes n;
     entry_handlers := entry_handlers n; auto_entry := auto_entry n;
     hello := hello n; __reply_keyboard := __reply_keyboard n;
     remove_keyboard := remove_keyboard n; inline_keyboard := inline_keyboard n;
     inside_handlers := inside_handlers n; inside_fallbacks := inside_fallbacks n;
     goodbye := goodbye n; parse_mode := parse_mode n;
     user_status_list := user_status_list n;
     switch_on_this := switch_on_this n; allow_back := allow_back n;
     next_node := Some nxt; back_str := back_str n |}.

(** The [reply_keyboard] property read as a value: the (copied) keyboard
    when the stored value is a list, [None] otherwise. *)
Definition reply_keyboard (n : t) : option KEYBOARD := __reply_keyboard n.
End Node.

Definition MARKDOWN : string := "Markdown".

(** [Node.__init__]. *)
Definition Node_init
    (entry_handlers : list Handler.t) (auto_entry : bool) (hello : pyobj)
    (reply_keyboard : option KEYBOARD) (remove_keyboard : bool)
    (inline_keyboard : option (list (list nat)))
    (inside_handlers inside_fallbacks : list Handler.t) (goodbye : pyobj)
    (parse_mode : string) (switch_on_this allow_back : bool) : Node.t :=
  {| Node.cls := ClsNode; Node.name := ""; Node.switch_nodes := [];
     Node.entry_handlers := entry_handlers; Node.auto_entry := auto_entry;
     Node.hello := hello; Node.__reply_keyboard := reply_keyboard;
     Node.remove_keyboard := remove_keyboard;
     Node.inline_keyboard := inline_keyboard;
     Node.inside_handlers := inside_handlers;
     Node.inside_fallbacks := inside_fallbacks;
     Node.goodbye := goodbye; Node.parse_mode := parse_mode;
     Node.user_status_list := false;
     Node.switch_on_this := switch_on_this; Node.allow_back := allow_back;
     Node.next_node := None; Node.back_str := None |}.

Definition with_cls (c : node_class) (nm : string) (sw : list node_ref)
    (n : Node.t) : Node.t :=
  {| Node.cls := c; Node.name := nm; Node.switch_nodes := sw;
     Node.entry_handlers := Node.entry_handlers n;
     Node.auto_entry := Node.auto_entry n;
     Node.hello := Node.hello n;
     Node.__reply_keyboard := Node.__reply_keyboard n;
     Node.remove_keyboard := Node.remove_keyboard n;
     Node.inline_keyboard := Node.inline_keyboard n;
     Node.inside_handlers := Node.inside_handlers n;
     Node.inside_fallbacks := Node.inside_fallbacks n;
     Node.goodbye := Node.goodbye n; Node.parse_mode := Node.parse_mode n;
     Node.user_status_list := Node.user_status_list n;
     Node.switch_on_this := Node.switch_on_this n;
     Node.allow_back := Node.allow_back n;
     Node.next_node := Node.next_node n; Node.back_str := Node.back_str n |}.

(** [NamedNode.__init__]: the entry handler is a fresh [RegexHandler] (of
    identity [entry_hid]) that accepts exactly the text [name]. *)
Definition NamedNode_init
    (entry_hid : nat) (name : string)
    (entry_callback : option (Update -> handle_result)) (hello : pyobj)
    (reply_keyboard : option KEYBOARD) (remove_keyboard : bool)
    (inline_keyboard : option (list (list nat)))
    (inside_handlers inside_fallbacks : list Handler.t) (goodbye : pyobj)
    (switch_on_this allow_back : bool) : Node.t :=
  let entry_handler :=
    {| Handler.hid := entry_hid;
       Handler.check_update := fun u => String.eqb (text u) name;
       Handler.callback := default (fun _ => RNone) entry_callback |} in
  with_cls ClsNamedNode name []
    (Node_init [entry_handler] true hello reply_keyboard remove_keyboard
       inline_keyboard inside_handlers inside_fallbacks goodbye MARKDOWN
       switch_on_this allow_back).

(** [SwitchNode.__init__]: the children are read from the node store; the
    result is [None] when a child reference names no node. *)
Definition SwitchNode_init
    (store : gmap node_ref Node.t)
    (entry_handlers : list Handler.t) (hello : pyobj)
    (switch_nodes : list (list node_ref)) (keyboard_from_names : bool)
    (remove_keyboard : bool) (goodbye : pyobj)
    (switch_on_this allow_back : bool) : option Node.t :=
  rows ← mapM (mapM (fun r => store !! r)) switch_nodes;
  let self_switch_nodes := concat switch_nodes in
  let inside_handlers := concat (map Node.entry_handlers (concat rows)) in
  let keyboard :=
    if keyboard_from_names then
      Some (map (fun row =>
                   map (fun n => BStr (Node.name n))
                       (filter (fun n => is_NamedNode (Node.cls n) = true) row))
                rows)
    else None in
  Some (with_cls ClsSwitchNode "" self_switch_nodes
          (Node_init entry_handlers true hello keyboard remove_keyboard None
             inside_handlers [] goodbye MARKDOWN switch_on_this allow_back)).

(** [NamedSwitchNode.__init__]: [NamedNode.__init__] and then
    [SwitchNode.__init__] on the same object; the second call does not pass
    [remove_keyboard] on. *)
Definition NamedSwitchNode_init
    (store : gmap node_ref Node.t)
    (entry_hid : nat) (name : string)
    (entry_callback : option (Update -> handle_result)) (hello : pyobj)
    (switch_nodes : list (list node_ref)) (keyboard_from_names : bool)
    (remove_keyboard : bool) (goodbye : pyobj)
    (switch_on_this allow_back : bool) : option Node.t :=
  let named :=
    NamedNode_init entry_hid name entry_callback hello None remove_keyboard
      None [] [] goodbye switch_on_this allow_back in
  sw ← SwitchNode_init store (Node.entry_handlers named) (Node.hello named)
         switch_nodes keyboard_from_names false (Node.goodbye named)
         (Node.switch_on_this named) (Node.allow_back named);
  Some (with_cls ClsNamedSwitchNode name (Node.switch_nodes sw) sw).

(** [Node.add_keyboard_button] on keyboard values. *)
Definition add_keyboard_button (keyboard : KEYBOARD) (btn : button)
    (max_row_len : nat) : KEYBOARD :=
  match last keyboard with
  | Some row =>
      if (length row <? max_row_len)%nat
      then removelast keyboard ++ [row ++ [btn]]
      else keyboard ++ [[btn]]
  | None => keyboard ++ [[btn]]
  end.

(** ** The machine: state, effects, and the monad the methods run in *)

(** Calls that leave the program: the typing indicator, a handler callback,
    and the [message.reply_*] family. *)
Inductive effect :=
| send_chat_action (user_id : Z)
| handler_called (hid : nat)
| reply_text (s : string) (markup : option reply_markup)
    (parse_mode : string) (disable_notification : bool)
| reply_media (method : tg_class) (oid : nat) (caption : option pyobj)
    (markup : option reply_markup) (disable_notification : bool).

Record state := {
  registry : gmap Z UserStatus.t;
  nodes : gmap node_ref Node.t;
  log : list effect
}.

Definition set_registry (r : gmap Z UserStatus.t) (s : state) : state :=
  {| registry := r; nodes := nodes s; log := log s |}.
Definition set_nodes (n : gmap node_ref Node.t) (s : state) : state :=
  {| registry := registry s; nodes := n; log := log s |}.
Definition add_log (e : effect) (s : state) : state :=
  {| registry := registry s; nodes := nodes s; log := log s ++ [e] |}.

(** Why a run of the model stops without a Python outcome: the recursion
    bound is reached, or a reference names no object of the store. *)
Inductive abort := OutOfFuel | DanglingRef.

Inductive result (A : Type) :=
| Ok (a : A) (s : state)
| Raise (e : exn) (s : state)
| Abort (r : abort).
Arguments Ok {A} a s.
Arguments Raise {A} e s.
Arguments Abort {A} r.

Definition M (A : Type) := state -> result A.

Definition ret {A} (a : A) : M A := fun s => Ok a s.
Definition bind {A B} (m : M A) (k : A -> M B) : M B :=
  fun s => match m s with
           | Ok a s' => k a s'
           | Raise e s' => Raise e s'
           | Abort r => Abort r
           end.
Definition raise {A} (e : exn) : M A := fun s => Raise e s.
Definition abort_with {A} (r : abort) : M A := fun _ => Abort r.

Notation "'let*' x ':=' m 'in' k" := (bind m (fun x => k))
  (at level 10, x name, m at level 100, k at level 200).
Notation "m ';;;' k" := (bind m (fun _ => k))
  (at level 100, k at level 200, right associativity).

Definition emit (e : effect) : M unit := fun s => Ok tt (add_log e s).

Definition get_node (r : node_ref) : M Node.t :=
  fun s => match nodes s !! r with
           | Some n => Ok n s
           | None => Abort DanglingRef
           end.

Definition update_node (r : node_ref) (f : Node.t -> Node.t) : M unit :=
  fun s => match nodes s !! r with
           | Some n => Ok tt (set_nodes (<[r := f n]> (nodes s)) s)
           | None => Abort DanglingRef
           end.

(** [user_status_list[user_id]] where [bound] tells whether the attribute
    holds the registry or [None]. *)
Definition user_status_list_getitem (bound : bool) (user_id : Z) : M unit :=
  fun s =>
    if bound
    then Ok tt (set_registry (fst (UserStatusList.getitem user_id (registry s))) s)
    else Raise TypeError s.

(** Reads and writes through the reference [user_status]. *)
Definition user_status (user_id : Z) : M UserStatus.t :=
  fun s => match registry s !! user_id with
           | Some us => Ok us s
           | None => Abort DanglingRef
           end.

Definition update_user_status (user_id : Z)
    (f : UserStatus.t -> UserStatus.t) : M unit :=
  fun s => match registry s !! user_id with
           | Some us => Ok tt (set_registry (<[user_id := f us]> (registry s)) s)
           | None => Abort DanglingRef
           end.

(** [handler.handle_update(update, dispatcher)] of a framework handler. *)
Definition Handler_handle_update (h : Handler.t) (u : Update) : M handle_result :=
  emit (handler_called (Handler.hid h));;;
  ret (Handler.callback h u).

(** Attribute access on a value that may be [None]. *)
Definition deref {A} (o : option A) : M A :=
  match o with
  | Some a => ret a
  | None => raise AttributeError
  end.

(** ** Sending *)

(** [Node.reply_object]. *)
Definition Node_reply_object (parse_mode : string) (obj : pyobj)
    (markup : option reply_markup) (silent : bool) : M unit :=
  let* co :=
    match obj with
    | PList items | PTuple items =>
        match items with
        | [o0; o1] =>
            if match class_of o0 with
               | Some c => class_in c ALLOWED_TELEGRAM_OBJECTS_WITH_CAPTION
               | None => false
               end
            then ret (Some o1, o0)
            else raise AttributeError
        | _ => raise AttributeError
        end
    | _ => ret (None, obj)
    end in
  let caption := fst co in
  let obj := snd co in
  match obj with
  | PStr s => emit (reply_text s markup parse_mode silent)
  | PTg Audio i => emit (reply_media Audio i caption markup silent)
  | PTg Contact i => emit (reply_media Contact i None markup silent)
  | PTg Document i => emit (reply_media Document i caption markup silent)
  | PTg Location i => emit (reply_media Location i None markup silent)
  | _ => ret tt
  end;;;
  match obj with
  | PTg PhotoSize i => emit (reply_media PhotoSize i caption markup silent)
  | PTg Sticker i => emit (reply_media Sticker i None markup silent)
  | PTg Venue i => emit (reply_media Venue i None markup silent)
  | PTg Video i => emit (reply_media Video i caption markup silent)
  | PTg VideoNote i => emit (reply_media VideoNote i None markup silent)
  | PTg Voice i => emit (reply_media Voice i caption markup silent)
  | _ => ret tt
  end.

(** The loop of [Node.reply] over [to_send[0 .. len-2]], followed by the
    last element. *)
Fixpoint reply_list (parse_mode : string) (user_id : Z) (to_send : list pyobj)
    (markup : option reply_markup) : M unit :=
  match to_send with
  | [] => raise IndexError
  | [lst] => Node_reply_object parse_mode lst markup false
  | o :: rest =>
      Node_reply_object parse_mode o None true;;;
      emit (send_chat_action user_id);;;
      reply_list parse_mode user_id rest markup
  end.

(** [Node.reply]. *)
Definition Node_reply (parse_mode : string) (user_id : Z) (to_send : pyobj)
    (markup : option reply_markup) : M unit :=
  match to_send with
  | PList items => reply_list parse_mode user_id items markup
  | _ => Node_reply_object parse_mode to_send markup false
  end.

(** ** Node methods *)

(** [Node.check_candidates]. *)
Definition Node_check_candidates (self : node_ref) (u : Update)
    (candidates : list Handler.t) : M bool :=
  let user_id := effective_user_id u in
  match find (fun c => Handler.check_update c u) candidates with
  | Some candidate =>
      let* n := get_node self in
      user_status_list_getitem (Node.user_status_list n) user_id;;;
      update_user_status user_id
        (UserStatus.set_current_node_handler (Some candidate));;;
      ret true
  | None => ret false
  end.

(** [Node.check_update]. *)
Definition Node_check_update (self : node_ref) (u : Update) : M bool :=
  let user_id := effective_user_id u in
  let* n := get_node self in
  user_status_list_getitem (Node.user_status_list n) user_id;;;
  let* us := user_status user_id in
  if negb (UserStatus.is_inside_current_node us) then
    Node_check_candidates self u (Node.entry_handlers n)
  else
    let* b := Node_check_candidates self u (Node.inside_handlers n) in
    if b then ret true
    else Node_check_candidates self u (Node.inside_fallbacks n).

(** [NodesHistory.add] on the history of [user_id]: the pushed node inherits
    the back string of the current top. *)
Definition NodesHistory_add (user_id : Z) (node : node_ref) : M unit :=
  let* us := user_status user_id in
  match NodesHistory.current (UserStatus.nodes_history us) with
  | Some cur =>
      let* c := get_node cur in
      update_node node (Node.set_back_str (Node.back_str c))
  | None => ret tt
  end;;;
  update_user_status user_id
    (fun us => UserStatus.set_nodes_history
                 (UserStatus.nodes_history us ++ [node]) us).

Definition str_truthy (s : option string) : bool :=
  match s with
  | Some s => negb (String.eqb s "")
  | None => false
  end.

Definition keyboard_truthy {A} (k : option (list A)) : bool :=
  match k with
  | Some (_ :: _) => true
  | _ => false
  end.

(** The reply markup [Node.handle_entry] builds for the greeting. *)
Definition entry_reply_markup (n : Node.t) (history : NodesHistory.t)
    : option reply_markup :=
  let reply_markup :=
    if keyboard_truthy (Node.reply_keyboard n) then
      let keyboard := default [] (Node.reply_keyboard n) in
      if Node.allow_back n && NodesHistory.can_back history
         && str_truthy (Node.back_str n)
      then Some (ReplyKeyboardMarkup
                   (add_keyboard_button keyboard
                      (BStr (default "" (Node.back_str n))) 2))
      else Some (ReplyKeyboardMarkup keyboard)
    else if keyboard_truthy (Node.inline_keyboard n) then
      Some (InlineKeyboardMarkup (default [] (Node.inline_keyboard n)))
    else None in
  if Node.remove_keyboard n then Some ReplyKeyboardRemove else reply_markup.

Section Lifecycle.
(** The recursive call [display_node.handle_entry(...)]. *)
Variable handle_entry : node_ref -> Update -> M unit.

(** [Node.handle_inside]. *)
Definition Node_handle_inside_body (self : node_ref) (u : Update) : M unit :=
  let user_id := effective_user_id u in
  let* n := get_node self in
  user_status_list_getitem (Node.user_status_list n) user_id;;;
  (if truthy (Node.goodbye n)
   then Node_reply (Node.parse_mode n) user_id (Node.goodbye n) None
   else ret tt);;;
  update_user_status user_id UserStatus.exit_current_node;;;
  let* us := user_status user_id in
  let next_node :=
    match UserStatus.next_node us with
    | Some p => Some p
    | None => Node.next_node n
    end in
  match next_node with
  | Some next_node =>
      update_node next_node
        (Node.set_user_status_list (Node.user_status_list n));;;
      update_user_status user_id
        (UserStatus.set_display_node (Some next_node));;;
      let* d := get_node next_node in
      (if Node.switch_on_this d
       then NodesHistory_add user_id next_node
       else ret tt);;;
      update_user_status user_id (UserStatus.set_next_node None);;;
      if Node.auto_entry d then
        (match Node.next_node n, Node.entry_handlers d with
         | Some _, h0 :: _ =>
             let* _ := Handler_handle_update h0 u in ret tt
         | _, _ => ret tt
         end);;;
        handle_entry next_node u
      else ret tt
  | None =>
      (if negb (Node.switch_on_this n)
       then update_user_status user_id UserStatus.enter_current_node
       else ret tt);;;
      update_user_status user_id (UserStatus.set_next_node None)
  end.

(** [SwitchNode.handle_inside]: the scan over [self.switch_nodes]. *)
Fixpoint SwitchNode_select (handler : option Handler.t)
    (switch_nodes : list node_ref) : M (option node_ref) :=
  match switch_nodes with
  | [] => ret None
  | switch_node :: rest =>
      let* c := get_node switch_node in
      if match handler with
         | Some h => handler_in h (Node.entry_handlers c)
         | None => false
         end
      then ret (Some switch_node)
      else SwitchNode_select handler rest
  end.

Definition SwitchNode_handle_inside_body (self : node_ref) (u : Update)
    : M unit :=
  let user_id := effective_user_id u in
  let* n := get_node self in
  user_status_list_getitem (Node.user_status_list n) user_id;;;
  let* us := user_status user_id in
  let handler := UserStatus.current_node_handler us in
  let* chosen := SwitchNode_select handler (Node.switch_nodes n) in
  match chosen with
  | Some switch_node =>
      update_user_status user_id
        (UserStatus.set_next_node (Some switch_node))
  | None => ret tt
  end;;;
  Node_handle_inside_body self u.

(** [self.handle_inside(...)]: dispatch on the class of [self]. *)
Definition handle_inside_body (self : node_ref) (u : Update) : M unit :=
  let* n := get_node self in
  if is_SwitchNode (Node.cls n)
  then SwitchNode_handle_inside_body self u
  else Node_handle_inside_body self u.
End Lifecycle.

(** [Node.handle_entry]; [fuel] bounds the depth of the chain of automatic
    entries. *)
Fixpoint Node_handle_entry (fuel : nat) (self : node_ref) (u : Update)
    : M unit :=
  match fuel with
  | O => abort_with OutOfFuel
  | S fuel =>
      let user_id := effective_user_id u in
      let* n := get_node self in
      user_status_list_getitem (Node.user_status_list n) user_id;;;
      update_user_status user_id UserStatus.enter_current_node;;;
      (if truthy (Node.hello n) then
         let* us := user_status user_id in
         Node_reply (Node.parse_mode n) user_id (Node.hello n)
           (entry_reply_markup n (UserStatus.nodes_history us))
       else ret tt);;;
      match Node.inside_handlers n with
      | [] => handle_inside_body (Node_handle_entry fuel) self u
      | _ => ret tt
      end
  end.

Definition Node_handle_inside (fuel : nat) : node_ref -> Update -> M unit :=
  Node_handle_inside_body (Node_handle_entry fuel).

Definition SwitchNode_handle_inside (fuel : nat) : node_ref -> Update -> M unit :=
  SwitchNode_handle_inside_body (Node_handle_entry fuel).

Definition handle_inside (fuel : nat) : node_ref -> Update -> M unit :=
  handle_inside_body (Node_handle_entry fuel).

(** [Node.handle_update]. *)
Definition Node_handle_update (fuel : nat) (self : node_ref) (u : Update)
    : M handle_result :=
  let user_id := effective_user_id u in
  let* n := get_node self in
  user_status_list_getitem (Node.user_status_list n) user_id;;;
  let* us := user_status user_id in
  let* handler := deref (UserStatus.current_node_handler us) in
  let* handle_result := Handler_handle_update handler u in
  match handle_result with
  | RNode r => update_user_status user_id (UserStatus.set_next_node (Some r))
  | _ => ret tt
  end;;;
  (if is_INSIDE_NOT_VALID handle_result
      || handler_in handler (Node.inside_fallbacks n) then
     let* us := user_status user_id in
     let* dn := deref (UserStatus.display_node us) in
     let* d := get_node dn in
     match Node.entry_handlers d with
     | h0 :: _ => let* _ := Handler_handle_update h0 u in ret tt
     | [] => ret tt
     end;;;
     Node_handle_entry fuel dn u
   else if handler_in handler (Node.entry_handlers n) then
     Node_handle_entry fuel self u
   else if handler_in handler (Node.inside_handlers n) then
     handle_inside fuel self u
   else ret tt);;;
  ret handle_result.

(** ** The router *)

Module NodesHandler.
Record t := {
  root_node : node_ref;
  entry_handlers : list Handler.t;
  back_handlers : list Handler.t;
  back_str : option string;
  fallback_handlers : list Handler.t;
  exit_handlers : list Handler.t;
  allow_reentry : bool
}.
End NodesHandler.

(** [NodesHandler.__init__]: when no back handlers are given and a back
    string is, one [RegexHandler] (of identity [back_hid]) on that exact
    string is created; the root node receives the back string and the fresh
    registry. *)
Definition NodesHandler_init
    (root_node : node_ref) (entry_handlers back_handlers : list Handler.t)
    (back_str : option string) (back_hid : nat)
    (back_callback : option (Update -> handle_result))
    (fallback_handlers exit_handlers : list Handler.t) (allow_reentry : bool)
    : M NodesHandler.t :=
  let back_handlers :=
    match back_handlers with
    | [] =>
        if str_truthy back_str then
          [ {| Handler.hid := back_hid;
               Handler.check_update :=
                 fun u => String.eqb (text u) (default "" back_str);
               Handler.callback := default (fun _ => RNone) back_callback |} ]
        else back_handlers
    | _ => back_handlers
    end in
  (fun s => Ok tt (set_registry UserStatusList.init s));;;
  update_node root_node (Node.set_back_str back_str);;;
  update_node root_node (Node.set_user_status_list true);;;
  ret {| NodesHandler.root_node := root_node;
         NodesHandler.entry_handlers := entry_handlers;
         NodesHandler.back_handlers := back_handlers;
         NodesHandler.back_str := back_str;
         NodesHandler.fallback_handlers := fallback_handlers;
         NodesHandler.exit_handlers := exit_handlers;
         NodesHandler.allow_reentry := allow_reentry |}.

(** The first candidate of a matcher list that accepts the update. *)
Definition first_match (u : Update) (candidates : list Handler.t)
    : option Handler.t :=
  find (fun c => Handler.check_update c u) candidates.

Definition set_current_handler (user_id : Z) (h : current_handler_value)
    : M unit :=
  update_user_status user_id (UserStatus.set_current_handler (Some h)).

(** [NodesHandler.check_update]. *)
Definition NodesHandler_check_update (self : NodesHandler.t) (u : Update)
    : M bool :=
  let user_id := effective_user_id u in
  user_status_list_getitem true user_id;;;
  let* us := user_status user_id in
  (* check entry *)
  match (if negb (UserStatus.nodes_handler_entered us)
            || NodesHandler.allow_reentry self
         then first_match u (NodesHandler.entry_handlers self)
         else None) with
  | Some candidate =>
      set_current_handler user_id (HHandler candidate);;; ret true
  | None =>
      if UserStatus.nodes_handler_entered us then
        (* check back *)
        let* cur := deref (NodesHistory.current (UserStatus.nodes_history us)) in
        let* c := get_node cur in
        match (if Node.allow_back c
                  && NodesHistory.can_back (UserStatus.nodes_history us)
               then first_match u (NodesHandler.back_handlers self)
               else None) with
        | Some candidate =>
            set_current_handler user_id (HHandler candidate);;; ret true
        | None =>
            (* check exit *)
            match first_match u (NodesHandler.exit_handlers self) with
            | Some candidate =>
                set_current_handler user_id
                  (HList (NodesHandler.exit_handlers self));;;
                ret true
            | None =>
                (* check current node *)
                let* b := Node_check_update cur u in
                if b then
                  set_current_handler user_id (HNode cur);;; ret true
                else
                  (* check fallback *)
                  match first_match u (NodesHandler.fallback_handlers self) with
                  | Some candidate =>
                      set_current_handler user_id (HHandler candidate);;;
                      ret true
                  | None => ret false
                  end
            end
        end
      else ret false
  end.

(** [handler in handlers] for whatever [current_handler] holds: a node or a
    list is never an element of a list of framework handlers. *)
Definition current_handler_in (h : current_handler_value)
    (l : list Handler.t) : bool :=
  match h with
  | HHandler h => handler_in h l
  | _ => false
  end.

(** [NodesHistory.back] on the history of [user_id]. *)
Definition NodesHistory_back (user_id : Z) : M node_ref :=
  let* us := user_status user_id in
  let r := NodesHistory.back (UserStatus.nodes_history us) in
  update_user_status user_id (UserStatus.set_nodes_history (snd r));;;
  match fst r with
  | inr n => ret n
  | inl e => raise e
  end.

(** [NodesHandler.handle_update]. *)
Definition NodesHandler_handle_update (fuel : nat) (self : NodesHandler.t)
    (u : Update) : M handle_result :=
  let user_id := effective_user_id u in
  user_status_list_getitem true user_id;;;
  emit (send_chat_action user_id);;;
  let* us := user_status user_id in
  let* handler := deref (UserStatus.current_handler us) in
  let* handle_result :=
    match handler with
    | HHandler h => Handler_handle_update h u
    | HNode n => Node_handle_update fuel n u
    | HList _ => raise AttributeError
    end in
  (if current_handler_in handler (NodesHandler.entry_handlers self)
      || current_handler_in handler (NodesHandler.back_handlers self) then
     (if current_handler_in handler (NodesHandler.entry_handlers self) then
        (* handle entry *)
        update_user_status user_id UserStatus.enter_nodes_handler;;;
        update_user_status user_id
          (UserStatus.set_display_node (Some (NodesHandler.root_node self)));;;
        update_user_status user_id
          (UserStatus.set_nodes_history
             (NodesHistory.set_root (NodesHandler.root_node self)))
      else
        (* handle back *)
        let* _ := NodesHistory_back user_id in
        let* us := user_status user_id in
        update_user_status user_id
          (UserStatus.set_display_node
             (NodesHistory.current (UserStatus.nodes_history us)));;;
        update_user_status user_id UserStatus.enter_current_node);;;
     let* us := user_status user_id in
     let* dn := deref (UserStatus.display_node us) in
     let* d := get_node dn in
     match last (Node.entry_handlers d) with
     | Some h => let* _ := Handler_handle_update h u in ret tt
     | None => ret tt
     end;;;
     let* cur := deref (NodesHistory.current (UserStatus.nodes_history us)) in
     Node_handle_entry fuel cur u
   else if current_handler_in handler (NodesHandler.exit_handlers self) then
     update_user_status user_id UserStatus.exit_nodes_handler
   else ret tt);;;
  ret handle_result.

(** The outer dispatcher's protocol for one update: [check_update], and
    [handle_update] when it accepted. *)
Definition dispatch (fuel : nat) (nh : NodesHandler.t) (u : Update) : M bool :=
  let* accepted := NodesHandler_check_update nh u in
  if accepted
  then let* _ := NodesHandler_handle_update fuel nh u in ret true
  else ret false.

(** ** Keyboards as objects

    The rest of the model reads a reply keyboard as a value.  Here the
    keyboard is what it is in the program: a list object whose elements are
    row list objects, so that the copy made by the [reply_keyboard] property
    can be told apart from the stored keyboard.  Buttons stay values. *)
Module KeyboardHeap.
Abbreviation loc := nat.

Inductive obj :=
| Row (buttons : list button)
| Keyboard (rows : list loc).

Record heap := { objs : gmap loc obj; next_loc : loc }.

Definition alloc (o : obj) (h : heap) : heap * loc :=
  ({| objs := <[next_loc h := o]> (objs h); next_loc := S (next_loc h) |},
   next_loc h).

Definition store (l : loc) (o : obj) (h : heap) : heap :=
  {| objs := <[l := o]> (objs h); next_loc := next_loc h |}.

Definition row_at (h : heap) (r : loc) : option (list button) :=
  match objs h !! r with
  | Some (Row bs) => Some bs
  | _ => None
  end.

Definition keyboard_at (h : heap) (l : loc) : option (list loc) :=
  match objs h !! l with
  | Some (Keyboard rs) => Some rs
  | _ => None
  end.

(** The keyboard at [l] read as a value. *)
Definition read_keyboard (h : heap) (l : loc) : option KEYBOARD :=
  rs ← keyboard_at h l; mapM (row_at h) rs.

(** [copy.deepcopy] on the rows of a keyboard: a row met before (recorded
    in [memo]) is copied once. *)
Fixpoint deepcopy_rows (memo : gmap loc loc) (rs : list loc) (h : heap)
    : option (list loc * heap) :=
  match rs with
  | [] => Some ([], h)
  | r :: rest =>
      match memo !! r with
      | Some r' =>
          p ← deepcopy_rows memo rest h; Some (r' :: fst p, snd p)
      | None =>
          bs ← row_at h r;
          let a := alloc (Row bs) h in
          p ← deepcopy_rows (<[r := snd a]> memo) rest (fst a);
          Some (snd a :: fst p, snd p)
      end
  end.

(** [copy.deepcopy] of the keyboard at [l]: the new list object is created
    first and then filled with the copies of the rows. *)
Definition deepcopy (l : loc) (h : heap) : option (loc * heap) :=
  rs ← keyboard_at h l;
  let a := alloc (Keyboard []) h in
  p ← deepcopy_rows ∅ rs (fst a);
  Some (snd a, store (snd a) (Keyboard (fst p)) (snd p)).

(** What [self.__reply_keyboard] holds. *)
Inductive stored := SNone | SList (l : loc) | SOther.

(** The [reply_keyboard] property (getter). *)
Definition reply_keyboard (v : stored) (h : heap) : option (option loc * heap) :=
  match v with
  | SList l => p ← deepcopy l h; Some (Some (fst p), snd p)
  | _ => Some (None, h)
  end.

(** [Node.add_keyboard_button] on a keyboard object. *)
Definition add_keyboard_button (keyboard : loc) (btn : button)
    (max_row_len : nat) (h : heap) : option heap :=
  rs ← keyboard_at h keyboard;
  let append_row :=
    let a := alloc (Row [btn]) h in
    Some (store keyboard (Keyboard (rs ++ [snd a])) (fst a)) in
  match last rs with
  | Some r =>
      bs ← row_at h r;
      if (length bs <? max_row_len)%nat
      then Some (store r (Row (bs ++ [btn])) h)
      else append_row
  | None => append_row
  end.

(** The stored value read as the model of nodes keeps it in
    [Node.__reply_keyboard]: the keyboard when it is a list, [None]
    otherwise. *)
Definition stored_value (h : heap) (v : stored) : option KEYBOARD :=
  match v with
  | SList l => read_keyboard h l
  | _ => None
  end.

(** Nothing is allocated at or above [next_loc]. *)
Definition wf (h : heap) : Prop :=
  forall a, (next_loc h <= a)%nat -> objs h !! a = None.

(** [h'] has the objects of [h] below [next_loc h] unchanged. *)
Definition preserves (h h' : heap) : Prop :=
  forall a, (a < next_loc h)%nat -> objs h' !! a = objs h !! a.
End KeyboardHeap.

(** ** Predicates used in the statements *)

(** The item of an (item, caption) pair is of a class that takes a caption. *)
Definition supports_caption (item : pyobj) : bool :=
  match item with
  | PTg Audio _ | PTg Document _ | PTg PhotoSize _ | PTg Video _
  | PTg Voice _ => true
  | _ => false
  end.

(** A value [reply_object] accepts: not a list or tuple, or a well-formed
    (item, caption) pair. *)
Definition object_ok (o : pyobj) : bool :=
  match o with
  | PList items | PTuple items =>
      match items with
      | [item; _] => supports_caption item
      | _ => false
      end
  | _ => true
  end.

(** A [TO_SEND] value [reply] accepts. *)
Definition to_send_ok (o : pyobj) : bool :=
  match o with
  | PList items =>
      match items with
      | [] => false
      | _ => forallb object_ok items
      end
  | _ => object_ok o
  end.

(** Sending only extends the log. *)
Definition extends_log (s s' : state) : Prop :=
  registry s' = registry s /\ nodes s' = nodes s /\
  exists l, log s' = log s ++ l.

(** The greeting or closing payload of a node can be sent when configured. *)
Definition payload_ok (o : pyobj) : bool :=
  negb (truthy o) || to_send_ok o.

(** [post m s Q]: when [m] returns from [s], the value and state satisfy
    [Q]. *)
Definition post {A} (m : M A) (s : state) (Q : A -> state -> Prop) : Prop :=
  match m s with
  | Ok a s' => Q a s'
  | _ => True
  end.

(** The session of [user_id] exists and has no pending next node. *)
Definition cleared (user_id : Z) (s : state) : Prop :=
  exists us, registry s !! user_id = Some us /\ UserStatus.next_node us = None.

(** The next node of a transition: the pending one when set, else the
    static successor. *)
Definition chosen_next (us : UserStatus.t) (n : Node.t) : option node_ref :=
  match UserStatus.next_node us with
  | Some p => Some p
  | None => Node.next_node n
  end.

(** The session once the transition to [nx] is recorded and before the entry
    of [nx] runs; [push] tells whether [nx] takes part in the history. *)
Definition after_transition (nx : node_ref) (push : bool)
    (us : UserStatus.t) : UserStatus.t :=
  UserStatus.set_next_node None
    (UserStatus.set_nodes_history
       (if push then UserStatus.nodes_history us ++ [nx]
        else UserStatus.nodes_history us)
       (UserStatus.set_display_node (Some nx)
          (UserStatus.exit_current_node us))).

(** The callbacks run between the transition from [n] to [d] and the entry
    lifecycle of [d]. *)
Definition entry_callback_log (n d : Node.t) : list effect :=
  if Node.auto_entry d then
    match Node.next_node n, Node.entry_handlers d with
    | Some _, h0 :: _ => [handler_called (Handler.hid h0)]
    | _, _ => []
    end
  else [].

(** The session a node without next node leaves behind. *)
Definition after_leaf (n : Node.t) (us : UserStatus.t) : UserStatus.t :=
  UserStatus.set_next_node None
    (if Node.switch_on_this n
     then UserStatus.exit_current_node us
     else UserStatus.enter_current_node (UserStatus.exit_current_node us)).

(** The session after an accepted back event that returns to node [x]. *)
Definition after_back (h_back : Handler.t) (history : NodesHistory.t)
    (x : node_ref) (us : UserStatus.t) : UserStatus.t :=
  UserStatus.enter_current_node
    (UserStatus.set_display_node (Some x)
       (UserStatus.set_nodes_history history
          (UserStatus.set_current_handler (Some (HHandler h_back)) us))).

(** The child [r] of a menu has [handler] among its entry handlers. *)
Definition child_has (store : gmap node_ref Node.t)
    (handler : option Handler.t) (r : node_ref) : bool :=
  match store !! r, handler with
  | Some c, Some h => handler_in h (Node.entry_handlers c)
  | _, _ => false
  end.

(** The outcome of a run followed by [return b]. *)
Definition then_return {A B} (r : result A) (b : B) : result B :=
  match r with
  | Ok _ s => Ok b s
  | Raise e s => Raise e s
  | Abort a => Abort a
  end.

(** ** The precedence protocol, as the specification words it *)

(** The level at which an update is accepted, with the accepting matcher. *)
Inductive level :=
| AtEntry (h : Handler.t)
| AtBack (h : Handler.t)
| AtExit (h : Handler.t)
| AtNode (h : Handler.t)
| AtFallback (h : Handler.t)
| NoLevel.

(** The matcher the current node elects: an entry matcher when the session
    is not inside the node, else an in-node matcher, else an in-node
    fallback matcher. *)
Definition node_elects (c : Node.t) (us : UserStatus.t) (u : Update)
    : option Handler.t :=
  if UserStatus.is_inside_current_node us then
    match first_match u (Node.inside_handlers c) with
    | Some h => Some h
    | None => first_match u (Node.inside_fallbacks c)
    end
  else first_match u (Node.entry_handlers c).

(** Entry (when not entered, or re-entry is allowed); then, for an entered
    session whose current history node is [c]: back (when [c] allows back
    and the history can go back), exit, current node, fallback. *)
Definition spec_level (nh : NodesHandler.t) (c : Node.t) (us : UserStatus.t)
    (u : Update) : level :=
  let entry :=
    if negb (UserStatus.nodes_handler_entered us)
       || NodesHandler.allow_reentry nh
    then first_match u (NodesHandler.entry_handlers nh) else None in
  let back :=
    if Node.allow_back c && NodesHistory.can_back (UserStatus.nodes_history us)
    then first_match u (NodesHandler.back_handlers nh) else None in
  match entry with
  | Some h => AtEntry h
  | None =>
      if UserStatus.nodes_handler_entered us then
        match back with
        | Some h => AtBack h
        | None =>
            match first_match u (NodesHandler.exit_handlers nh) with
            | Some h => AtExit h
            | None =>
                match node_elects c us u with
                | Some h => AtNode h
                | None =>
                    match first_match u (NodesHandler.fallback_handlers nh) with
                    | Some h => AtFallback h
                    | None => NoLevel
                    end
                end
            end
        end
      else NoLevel
  end.

(** What [check_update] writes to the session at each level. *)
Definition recorded (nh : NodesHandler.t) (cur : node_ref) (lv : level)
    (us : UserStatus.t) : UserStatus.t :=
  match lv with
  | AtEntry h | AtBack h | AtFallback h =>
      UserStatus.set_current_handler (Some (HHandler h)) us
  | AtExit _ =>
      UserStatus.set_current_handler
        (Some (HList (NodesHandler.exit_handlers nh))) us
  | AtNode h =>
      UserStatus.set_current_handler (Some (HNode cur))
        (UserStatus.set_current_node_handler (Some h) us)
  | NoLevel => us
  end.

(** ** Concrete configurations *)

(** A concrete leaf that loops on its own body: one inside handler, no
    successor, not part of the history. *)
Module LeafExample.
Definition h_word : Handler.t := exact_text_handler 1 "word".

Definition leaf : Node.t :=
  Node.set_user_status_list true
    (Node_init [] true PNone None false None [h_word] [] (PStr "bye")
       MARKDOWN false true).

Definition session : UserStatus.t :=
  {| UserStatus.nodes_handler_entered := true;
     UserStatus.current_handler := Some (HNode 0%nat);
     UserStatus.current_node_handler := Some h_word;
     UserStatus.nodes_history := [5%nat];
     UserStatus.display_node := Some 0%nat;
     UserStatus.is_inside_current_node := true;
     UserStatus.next_node := None |}.

Definition u : Update := {| effective_user_id := 7; text := "word" |}.

Definition s0 : state :=
  {| registry := {[ 7 := session ]};
     nodes := {[ 0%nat := leaf ]};
     log := [] |}.
End LeafExample.

(** A node with a static successor whose session holds a different pending
    next node. *)
Module OverrideExample.
Definition h_go : Handler.t := exact_text_handler 1 "go".
Definition h_s : Handler.t := exact_text_handler 10 "s".
Definition h_p : Handler.t := exact_text_handler 20 "p".
Definition h_more : Handler.t := exact_text_handler 30 "more".

Definition node_n : Node.t :=
  Node.set_user_status_list true
    (Node.next 1%nat
       (Node_init [] true PNone None false None [h_go] [] PNone MARKDOWN
          true true)).
Definition node_s : Node.t :=
  Node_init [h_s] true (PStr "S") None false None [h_more] [] PNone MARKDOWN
    true true.
Definition node_p : Node.t :=
  Node_init [h_p] true (PStr "P") None false None [h_more] [] PNone MARKDOWN
    true true.

Definition session : UserStatus.t :=
  {| UserStatus.nodes_handler_entered := true;
     UserStatus.current_handler := Some (HNode 0%nat);
     UserStatus.current_node_handler := Some h_go;
     UserStatus.nodes_history := [0%nat];
     UserStatus.display_node := Some 0%nat;
     UserStatus.is_inside_current_node := true;
     UserStatus.next_node := Some 2%nat |}.

Definition u : Update := {| effective_user_id := 7; text := "go" |}.

Definition s0 : state :=
  {| registry := {[ 7 := session ]};
     nodes := <[0%nat := node_n]> (<[1%nat := node_s]> {[ 2%nat := node_p ]});
     log := [] |}.
End OverrideExample.

(** A router with one entry handler and one exit handler over a root node
    that waits for input. *)
Module ExitExample.
Definition h_start : Handler.t := exact_text_handler 40 "/start".
Definition h_quit : Handler.t := exact_text_handler 50 "/quit".
Definition h_word : Handler.t := exact_text_handler 1 "word".

Definition root : Node.t :=
  Node_init [] true (PStr "hello") None false None [h_word] [] PNone MARKDOWN
    true true.

Definition nodes0 : state :=
  {| registry := ∅; nodes := {[ 0%nat := root ]}; log := [] |}.

Definition make_router : M NodesHandler.t :=
  NodesHandler_init 0%nat [h_start] [] None 0%nat None [] [h_quit] false.

Definition u_start : Update := {| effective_user_id := 7; text := "/start" |}.
Definition u_quit : Update := {| effective_user_id := 7; text := "/quit" |}.
End ExitExample.

(** Three history-taking nodes in a row: the root (node 0) has no inside
    handlers and advances on its own to node 1, which waits for "go" and
    then moves on to node 2. *)
Module BackExample.
Definition h_start : Handler.t := exact_text_handler 10 "/start".
Definition h_go : Handler.t := exact_text_handler 11 "go".

Definition node_a : Node.t :=
  Node.next 1%nat
    (Node_init [] true (PStr "A") None false None [] [] PNone MARKDOWN
       true true).
Definition node_b : Node.t :=
  Node.next 2%nat
    (Node_init [] true (PStr "B") None false None [h_go] [] PNone MARKDOWN
       true true).
Definition node_c : Node.t :=
  Node_init [] true (PStr "C") None false None [] [] PNone MARKDOWN true true.

Definition nodes0 : state :=
  {| registry := ∅;
     nodes := <[0%nat := node_a]> (<[1%nat := node_b]> {[ 2%nat := node_c ]});
     log := [] |}.

Definition make_router : M NodesHandler.t :=
  NodesHandler_init 0%nat [h_start] [] (Some "back") 12%nat None [] [] false.

Definition upd (s : string) : Update := {| effective_user_id := 7; text := s |}.

(** The session of user 7, as far as navigation goes. *)
Definition position (s : state) : option (list node_ref * option node_ref) :=
  match registry s !! 7 with
  | Some us => Some (UserStatus.nodes_history us, UserStatus.display_node us)
  | None => None
  end.
End BackExample.

(** Three history-taking nodes in a row that each wait for input, with a
    session that went forward through all of them. *)
Module WaitExample.
Definition h_start : Handler.t := exact_text_handler 10 "/start".
Definition h_next : Handler.t := exact_text_handler 11 "next".
Definition h_back : Handler.t := exact_text_handler 12 "back".

Definition waiting (hello : string) (successor : option node_ref) : Node.t :=
  let n :=
    Node.set_user_status_list true
      (Node_init [] true (PStr hello) None false None [h_next] [] PNone
         MARKDOWN true true) in
  match successor with
  | Some r => Node.next r n
  | None => n
  end.

Definition node_a : Node.t := waiting "A" (Some 1%nat).
Definition node_b : Node.t := waiting "B" (Some 2%nat).
Definition node_c : Node.t := waiting "C" None.

Definition router : NodesHandler.t :=
  {| NodesHandler.root_node := 0%nat;
     NodesHandler.entry_handlers := [h_start];
     NodesHandler.back_handlers := [h_back];
     NodesHandler.back_str := Some "back";
     NodesHandler.fallback_handlers := [];
     NodesHandler.exit_handlers := [];
     NodesHandler.allow_reentry := false |}.

Definition session : UserStatus.t :=
  {| UserStatus.nodes_handler_entered := true;
     UserStatus.current_handler := Some (HNode 1%nat);
     UserStatus.current_node_handler := Some h_next;
     UserStatus.nodes_history := [0; 1; 2]%nat;
     UserStatus.display_node := Some 2%nat;
     UserStatus.is_inside_current_node := true;
     UserStatus.next_node := None |}.

Definition s0 : state :=
  {| registry := {[ 7 := session ]};
     nodes := <[0%nat := node_a]> (<[1%nat := node_b]> {[ 2%nat := node_c ]});
     log := [] |}.

Definition u_back : Update := {| effective_user_id := 7; text := "back" |}.
End WaitExample.

(** A menu over three children; the middle one is a plain node that does
    not enter automatically. *)
Module MenuExample.
Definition h_start : Handler.t := exact_text_handler 10 "/start".
Definition h_y : Handler.t := exact_text_handler 12 "y".
Definition h_more : Handler.t := exact_text_handler 30 "more".

Definition child_x : Node.t :=
  NamedNode_init 11 "x" None (PStr "hello from X") None false None
    [h_more] [] PNone true true.
Definition child_y : Node.t :=
  Node_init [h_y] false (PStr "hello from Y") None false None
    [h_more] [] PNone MARKDOWN true true.
Definition child_z : Node.t :=
  NamedNode_init 13 "z" None (PStr "hello from Z") None false None
    [h_more] [] PNone true true.

Definition children : gmap node_ref Node.t :=
  <[1%nat := child_x]> (<[2%nat := child_y]> {[ 3%nat := child_z ]}).

Definition menu : option Node.t :=
  SwitchNode_init children [] (PStr "menu") [[1; 2; 3]%nat] true false PNone
    true true.

Definition nodes0 : option state :=
  m ← menu;
  Some {| registry := ∅; nodes := <[0%nat := m]> children; log := [] |}.

(** The menu as a node, bound to the registry, and a session that is inside
    it and has elected the entry handler of child 2. *)
Definition menu_node : Node.t :=
  Node.set_user_status_list true (default child_y menu).

Definition session : UserStatus.t :=
  {| UserStatus.nodes_handler_entered := true;
     UserStatus.current_handler := Some (HNode 0%nat);
     UserStatus.current_node_handler := Some h_y;
     UserStatus.nodes_history := [0%nat];
     UserStatus.display_node := Some 0%nat;
     UserStatus.is_inside_current_node := true;
     UserStatus.next_node := None |}.

Definition s_inside : state :=
  {| registry := {[ 7 := session ]};
     nodes := <[0%nat := menu_node]> children;
     log := [] |}.

Definition make_router : M NodesHandler.t :=
  NodesHandler_init 0%nat [h_start] [] None 0%nat None [] [] false.

Definition upd (s : string) : Update := {| effective_user_id := 7; text := s |}.
End MenuExample.

(** A heap that holds the keyboard [["a"; "b"]; ["c"]] at location 2. *)
Module KeyboardExample.
Definition h0 : KeyboardHeap.heap :=
  {| KeyboardHeap.objs :=
       <[0%nat := KeyboardHeap.Row [BStr "a"; BStr "b"]]>
         (<[1%nat := KeyboardHeap.Row [BStr "c"]]>
            {[ 2%nat := KeyboardHeap.Keyboard [0; 1]%nat ]});
     KeyboardHeap.next_loc := 3%nat |}.

Definition kb : KEYBOARD := [[BStr "a"; BStr "b"]; [BStr "c"]].
End KeyboardExample.

(** ** Relations between the state before and after a run *)

(** Every outcome of [m] that carries a state, a return or a raise, is
    related by [R] to the state [m] started in. *)
Definition respects (R : state -> state -> Prop) {A} (m : M A) : Prop :=
  forall s,
    match m s with
    | Ok _ s' => R s s'
    | Raise _ s' => R s s'
    | Abort _ => True
    end.

(** The sessions of all users but [user_id] are the same. *)
Definition others_untouched (user_id : Z) (s s' : state) : Prop :=
  forall other, other <> user_id -> registry s' !! other = registry s !! other.

(** [n'] is [n] up to the two attributes the program writes to a node after
    its construction, [user_status_list] and [back_str]. *)
Definition same_wiring (n n' : Node.t) : Prop :=
  exists b l, n' = Node.set_back_str b (Node.set_user_status_list l n).

(** The node store holds the same nodes, each up to those two attributes. *)
Definition nodes_rewired (s s' : state) : Prop :=
  forall r,
    match nodes s !! r, nodes s' !! r with
    | Some n, Some n' => same_wiring n n'
    | None, None => True
    | _, _ => False
    end.

(** The log is extended, never rewritten. *)
Definition log_grows (s s' : state) : Prop :=
  exists l, log s' = log s ++ l.

(** The session that indexing the registry with [user_id] gives. *)
Definition session_of (user_id : Z) (s : state) : UserStatus.t :=
  default UserStatus.init (registry s !! user_id).

(** The user is entered or not as before, and the history is the one before
    with nodes pushed on top. *)
Definition history_grows (user_id : Z) (s s' : state) : Prop :=
  UserStatus.nodes_handler_entered (session_of user_id s')
  = UserStatus.nodes_handler_entered (session_of user_id s) /\
  exists pushed,
    UserStatus.nodes_history (session_of user_id s')
    = UserStatus.nodes_history (session_of user_id s) ++ pushed.

(** A write to a session that keeps [nodes_handler_entered] and only pushes
    onto the history. *)
Definition pushes_only (f : UserStatus.t -> UserStatus.t) : Prop :=
  forall us,
    UserStatus.nodes_handler_entered (f us) = UserStatus.nodes_handler_entered us /\
    exists pushed,
      UserStatus.nodes_history (f us) = UserStatus.nodes_history us ++ pushed.

(** While the user is entered, the history is not empty and [root] is at
    its bottom. *)
Definition rooted (root : node_ref) (user_id : Z) (s : state) : Prop :=
  UserStatus.nodes_handler_entered (session_of user_id s) = true ->
  exists above,
    UserStatus.nodes_history (session_of user_id s) = root :: above.

(** ** What the sending methods send *)

(** The [reply_*] call made for the item [o] with [caption]: none when [o]
    is neither a string nor an object of a supported class, and the caption
    is passed only to the methods that take one. *)
Definition sent_item (parse_mode : string) (o : pyobj) (caption : option pyobj)
    (markup : option reply_markup) (silent : bool) : list effect :=
  match o with
  | PStr s => [reply_text s markup parse_mode silent]
  | PTg OtherObject _ | PTg Str _ => []
  | PTg c i =>
      [reply_media c i
         (if class_in c ALLOWED_TELEGRAM_OBJECTS_WITH_CAPTION
          then caption else None)
         markup silent]
  | _ => []
  end.

(** The calls made for a value handed to [reply_object]: an (item, caption)
    pair, or an item without caption. *)
Definition sent_object (parse_mode : string) (o : pyobj)
    (markup : option reply_markup) (silent : bool) : list effect :=
  match o with
  | PList [item; caption] | PTuple [item; caption] =>
      sent_item parse_mode item (Some caption) markup silent
  | _ => sent_item parse_mode o None markup silent
  end.

(** What is sent for the elements of a list before its last one: each
    silently and without markup, followed by the typing indicator. *)
Definition sent_silently (parse_mode : string) (user_id : Z)
    (items : list pyobj) : list effect :=
  flat_map (fun o => sent_object parse_mode o None true
                     ++ [send_chat_action user_id]) items.

(** The state with [l] appended to the log. *)
Definition logged (l : list effect) (s : state) : state :=
  {| registry := registry s; nodes := nodes s; log := log s ++ l |}.

(** ** Nodes that do not wait for input *)

(** A plain node without inside handlers, whose greeting and closing payloads
    can be sent: its entry lifecycle goes on to its inside lifecycle at once. *)
Definition passes_through (n : Node.t) : Prop :=
  Node.inside_handlers n = [] /\ is_SwitchNode (Node.cls n) = false /\
  payload_ok (Node.hello n) = true /\ payload_ok (Node.goodbye n) = true.

(** Every node of [C] passes through, is entered automatically and has its
    static successor in [C]. *)
Definition never_waits (C : node_ref -> Prop) (store : gmap node_ref Node.t)
    : Prop :=
  forall r, C r ->
    exists n nx,
      store !! r = Some n /\ passes_through n /\ Node.auto_entry n = true /\
      Node.next_node n = Some nx /\ C nx.

(** From [self], the static successors run through [path] and then reach
    [w]: [self] and the nodes of [path] pass through, and the nodes of
    [path] are entered automatically. *)
Fixpoint leads_to (store : gmap node_ref Node.t) (self : node_ref)
    (path : list node_ref) (w : node_ref) : Prop :=
  match path with
  | [] =>
      exists n,
        store !! self = Some n /\ passes_through n /\ Node.next_node n = Some w
  | x :: rest =>
      (exists n,
         store !! self = Some n /\ passes_through n /\
         Node.next_node n = Some x) /\
      (exists d, store !! x = Some d /\ Node.auto_entry d = true) /\
      leads_to store x rest w
  end.

(** The node [w] ends a chain of automatic entries: it is not entered
    automatically, or it has inside handlers to wait with. *)
Definition stops_at (store : gmap node_ref Node.t) (w : node_ref) : Prop :=
  exists dw,
    store !! w = Some dw /\
    (Node.auto_entry dw = false \/
     (Node.inside_handlers dw <> [] /\ payload_ok (Node.hello dw) = true)).

(** The node [r] has [switch_on_this] set: it is pushed onto the history
    when the dialog moves to it. *)
Definition takes_part (store : gmap node_ref Node.t) (r : node_ref) : bool :=
  match store !! r with
  | Some n => Node.switch_on_this n
  | None => false
  end.

(** The nodes of [path] that take part in the history. *)
Definition taking_part (store : gmap node_ref Node.t) (path : list node_ref)
    : list node_ref :=
  filter (fun r => takes_part store r = true) path.

(** Two plain nodes without inside handlers that are each other's static
    successor, and a session that has entered at the first. *)
Module CycleExample.
Definition node_a : Node.t :=
  Node.set_user_status_list true
    (Node.next 1%nat
       (Node_init [] true (PStr "A") None false None [] [] PNone MARKDOWN
          true true)).
Definition node_b : Node.t :=
  Node.next 0%nat
    (Node_init [] true (PStr "B") None false None [] [] PNone MARKDOWN
       true true).

Definition session : UserStatus.t :=
  {| UserStatus.nodes_handler_entered := true;
     UserStatus.current_handler := None;
     UserStatus.current_node_handler := None;
     UserStatus.nodes_history := [0%nat];
     UserStatus.display_node := Some 0%nat;
     UserStatus.is_inside_current_node := false;
     UserStatus.next_node := None |}.

Definition s0 : state :=
  {| registry := {[ 7 := session ]};
     nodes := <[0%nat := node_a]> {[ 1%nat := node_b ]};
     log := [] |}.

Definition u : Update := {| effective_user_id := 7; text := "/start" |}.
End CycleExample.

(** The node [r] has [auto_entry] set. *)
Definition enters_automatically (store : gmap node_ref Node.t) (r : node_ref)
    : bool :=
  match store !! r with
  | Some n => Node.auto_entry n
  | None => false
  end.

(** A chain of four nodes: the first three have no inside handlers, the
    third takes no part in the history, and the fourth waits for input. *)
Module ChainExample.
Definition h_more : Handler.t := exact_text_handler 30 "more".

Definition plain (hello : string) (switch_on_this : bool) : Node.t :=
  Node_init [] true (PStr hello) None false None [] [] PNone MARKDOWN
    switch_on_this true.

Definition node_a : Node.t :=
  Node.set_user_status_list true (Node.next 1%nat (plain "A" true)).
Definition node_b : Node.t := Node.next 2%nat (plain "B" true).
Definition node_c : Node.t := Node.next 3%nat (plain "C" false).
Definition node_d : Node.t :=
  Node_init [] true (PStr "D") None false None [h_more] [] PNone MARKDOWN
    true true.

Definition session : UserStatus.t :=
  {| UserStatus.nodes_handler_entered := true;
     UserStatus.current_handler := None;
     UserStatus.current_node_handler := None;
     UserStatus.nodes_history := [0%nat];
     UserStatus.display_node := Some 0%nat;
     UserStatus.is_inside_current_node := false;
     UserStatus.next_node := None |}.

Definition s0 : state :=
  {| registry := {[ 7 := session ]};
     nodes := <[0%nat := node_a]>
                (<[1%nat := node_b]> (<[2%nat := node_c]> {[ 3%nat := node_d ]}));
     log := [] |}.

Definition u : Update := {| effective_user_id := 7; text := "/start" |}.
End ChainExample.



(** A node whose inside handler rejects what it is given. *)
Module RetryExample.
Definition h_enter : Handler.t := exact_text_handler 1 "age".
Definition h_any : Handler.t :=
  {| Handler.hid := 2;
     Handler.check_update := fun _ => true;
     Handler.callback := fun _ => RInt INSIDE_NOT_VALID |}.

Definition node : Node.t :=
  Node.set_user_status_list true
    (Node_init [h_enter] true (PStr "How old are you?") None false None
       [h_any] [] (PStr "Thanks") MARKDOWN true true).

Definition session : UserStatus.t :=
  {| UserStatus.nodes_handler_entered := true;
     UserStatus.current_handler := Some (HNode 0%nat);
     UserStatus.current_node_handler := Some h_any;
     UserStatus.nodes_history := [0%nat];
     UserStatus.display_node := Some 0%nat;
     UserStatus.is_inside_current_node := true;
     UserStatus.next_node := None |}.

Definition s0 : state :=
  {| registry := {[ 7 := session ]};
     nodes := {[ 0%nat := node ]};
     log := [] |}.

Definition u : Update := {| effective_user_id := 7; text := "old enough" |}.
End RetryExample.

(** ** What electing a handler may change *)

(** Where the session stands in the dialog: everything in it but the two
    slots that hold the elected handlers. *)
Definition navigation (us : UserStatus.t)
    : bool * NodesHistory.t * option node_ref * bool * option node_ref :=
  (UserStatus.nodes_handler_entered us, UserStatus.nodes_history us,
   UserStatus.display_node us, UserStatus.is_inside_current_node us,
   UserStatus.next_node us).

(** Nothing was sent, no node was written to, no other session was touched
    and the session of [user_id] stands where it stood. *)
Definition only_elects (user_id : Z) (s s' : state) : Prop :=
  log s' = log s /\ nodes s' = nodes s /\
  others_untouched user_id s s' /\
  navigation (session_of user_id s') = navigation (session_of user_id s).

(** ** Leaving the router *)

(** A user who was entered is still entered. *)
Definition entered_kept (user_id : Z) (s s' : state) : Prop :=
  UserStatus.nodes_handler_entered (session_of user_id s) = true ->
  UserStatus.nodes_handler_entered (session_of user_id s') = true.

(** A write to a session that does not mark an entered user as not
    entered. *)
Definition keeps_entered (f : UserStatus.t -> UserStatus.t) : Prop :=
  forall us,
    UserStatus.nodes_handler_entered us = true ->
    UserStatus.nodes_handler_entered (f us) = true.

(** With [handler] elected, [NodesHandler.handle_update] does not get to its
    exit branch. *)
Definition misses_exit_branch (nh : NodesHandler.t)
    (handler : current_handler_value) : Prop :=
  current_handler_in handler (NodesHandler.entry_handlers nh)
  || current_handler_in handler (NodesHandler.back_handlers nh) = false ->
  current_handler_in handler (NodesHandler.exit_handlers nh) = false.

(** Handler identities stand for objects: an exit handler and a fallback
    handler of the same identity are the same handler. *)
Definition exit_identities_faithful (nh : NodesHandler.t) : Prop :=
  forall c h,
    c ∈ NodesHandler.exit_handlers nh ->
    h ∈ NodesHandler.fallback_handlers nh ->
    Handler.hid c = Handler.hid h -> c = h.

(** The router of [ExitExample] as a value, with user 7 entered and inside
    the root node. *)
Module LeaveExample.
Definition router : NodesHandler.t :=
  {| NodesHandler.root_node := 0%nat;
     NodesHandler.entry_handlers := [ExitExample.h_start];
     NodesHandler.back_handlers := [];
     NodesHandler.back_str := None;
     NodesHandler.fallback_handlers := [];
     NodesHandler.exit_handlers := [ExitExample.h_quit];
     NodesHandler.allow_reentry := false |}.

Definition session : UserStatus.t :=
  {| UserStatus.nodes_handler_entered := true;
     UserStatus.current_handler := Some (HHandler ExitExample.h_start);
     UserStatus.current_node_handler := None;
     UserStatus.nodes_history := [0%nat];
     UserStatus.display_node := Some 0%nat;
     UserStatus.is_inside_current_node := true;
     UserStatus.next_node := None |}.

Definition s1 : state :=
  {| registry := {[ 7 := session ]};
     nodes := {[ 0%nat := Node.set_user_status_list true ExitExample.root ]};
     log := [] |}.
End LeaveExample.

(** * Properties *)

(** ** NodesHistory *)

Lemma can_back_iff (h : NodesHistory.t) :
  NodesHistory.can_back h = true <-> (1 < length h)%nat.
Proof. unfold NodesHistory.can_back. apply Nat.ltb_lt. Qed.

Lemma back_snoc2 (l : list node_ref) (x y : node_ref) :
  NodesHistory.back (l ++ [x; y]) = (inr x, l ++ [x]).
Proof.
  unfold NodesHistory.back.
  replace (l ++ [x; y]) with ((l ++ [x]) ++ [y]) by (rewrite <- app_assoc; reflexivity).
  rewrite removelast_last, last_snoc.
  destruct ((l ++ [x]) ++ [y]) eqn:E; [|reflexivity].
  apply app_eq_nil in E as [_ E]. discriminate.
Qed.

Lemma depth_gt1_snoc2 (h : list node_ref) :
  (1 < length h)%nat -> exists l x y, h = l ++ [x; y].
Proof.
  intros H.
  destruct (exists_last (l := h)) as (h1 & y & ->).
  { intros ->. simpl in H. lia. }
  destruct (exists_last (l := h1)) as (l & x & ->).
  { intros ->. simpl in H. lia. }
  exists l, x, y. rewrite <- app_assoc. reflexivity.
Qed.

(** C5: [can_back] holds exactly at depth greater than 1; at such a depth
    [back] removes the top and returns the new top; at depth 1 or 0 [back]
    raises [IndexError] instead of returning a node. *)
Theorem NodesHistory_back_spec (h : NodesHistory.t) :
  (NodesHistory.can_back h = true <-> (1 < NodesHistory.len h)%nat) /\
  ((1 < NodesHistory.len h)%nat ->
     exists l new_top old_top,
       h = l ++ [new_top; old_top] /\
       NodesHistory.back h = (inr new_top, l ++ [new_top]) /\
       NodesHistory.current (l ++ [new_top]) = Some new_top) /\
  ((NodesHistory.len h <= 1)%nat ->
     fst (NodesHistory.back h) = inl IndexError).
Proof.
  split; [apply can_back_iff|]. split.
  - intros H. destruct (depth_gt1_snoc2 h H) as (l & x & y & ->).
    exists l, x, y. split; [reflexivity|]. split.
    + apply back_snoc2.
    + unfold NodesHistory.current. apply last_snoc.
  - unfold NodesHistory.len. intros H.
    destruct h as [|a [|b t]]; simpl in *; try reflexivity. lia.
Qed.

Lemma NodesHistory_back_spec_witness :
  (exists l new_top old_top,
     [0; 1; 2]%nat = l ++ [new_top; old_top] /\
     NodesHistory.back [0; 1; 2]%nat = (inr new_top, l ++ [new_top]) /\
     NodesHistory.current (l ++ [new_top]) = Some new_top) /\
  fst (NodesHistory.back [0%nat]) = inl IndexError.
Proof.
  split.
  - apply (NodesHistory_back_spec [0; 1; 2]%nat). simpl. lia.
  - apply (NodesHistory_back_spec [0%nat]). simpl. lia.
Defined.

(** ** UserStatusList *)

Lemma contains_true (user_id : Z) (l : gmap Z UserStatus.t) :
  UserStatusList.contains user_id l = true <-> is_Some (l !! user_id).
Proof. unfold UserStatusList.contains. apply bool_decide_eq_true. Qed.

Lemma getitem_present (user_id : Z) (l : gmap Z UserStatus.t) (us : UserStatus.t) :
  l !! user_id = Some us ->
  UserStatusList.getitem user_id l = (l, Some us).
Proof.
  intros H. unfold UserStatusList.getitem.
  replace (UserStatusList.contains user_id l) with true.
  - simpl. rewrite H. reflexivity.
  - symmetry. apply contains_true. eauto.
Qed.

Lemma getitem_absent (user_id : Z) (l : gmap Z UserStatus.t) :
  l !! user_id = None ->
  UserStatusList.getitem user_id l
  = (<[user_id := UserStatus.init]> l, Some UserStatus.init).
Proof.
  intros H. unfold UserStatusList.getitem, UserStatusList.init_user.
  destruct (UserStatusList.contains user_id l) eqn:E.
  - apply contains_true in E. rewrite H in E. destruct E; discriminate.
  - simpl. rewrite lookup_insert_eq. reflexivity.
Qed.

(** C8: indexing the registry creates a session only for an identifier that
    has none; afterwards the identifier has exactly the session the call
    returned, indexing again (also after the session was written to through
    the reference, and after any other identifier was indexed) returns that
    stored session without creating one, and the size stays the same. *)
Theorem UserStatusList_getitem_single_session
    (user_id : Z) (l : gmap Z UserStatus.t) :
  let l1 := fst (UserStatusList.getitem user_id l) in
  let s1 := snd (UserStatusList.getitem user_id l) in
  (l1 = match l !! user_id with
        | Some _ => l
        | None => <[user_id := UserStatus.init]> l
        end) /\
  is_Some s1 /\ l1 !! user_id = s1 /\
  UserStatusList.getitem user_id l1 = (l1, s1) /\
  UserStatusList.len (fst (UserStatusList.getitem user_id l1))
  = UserStatusList.len l1 /\
  (forall f : UserStatus.t -> UserStatus.t,
     UserStatusList.getitem user_id (alter f user_id l1)
     = (alter f user_id l1, f <$> s1)) /\
  (forall other : Z,
     other <> user_id ->
     fst (UserStatusList.getitem other l1) !! user_id = s1).
Proof.
  destruct (l !! user_id) as [us|] eqn:E.
  - rewrite (getitem_present _ _ _ E). cbn [fst snd].
    rewrite (getitem_present _ _ _ E). cbn [fst snd].
    repeat split; eauto.
    + intros f. apply getitem_present. rewrite lookup_alter_eq, E. reflexivity.
    + intros other Hne.
      destruct (l !! other) as [uo|] eqn:Eo.
      * rewrite (getitem_present _ _ _ Eo). exact E.
      * rewrite (getitem_absent _ _ Eo). cbn [fst].
        rewrite lookup_insert_ne by done. exact E.
  - rewrite (getitem_absent _ _ E). cbn [fst snd].
    assert (E1 : <[user_id := UserStatus.init]> l !! user_id
                 = Some UserStatus.init) by apply lookup_insert_eq.
    rewrite (getitem_present _ _ _ E1). cbn [fst snd].
    repeat split; eauto.
    + intros f. apply getitem_present. rewrite lookup_alter_eq, E1. reflexivity.
    + intros other Hne.
      destruct (<[user_id := UserStatus.init]> l !! other) as [uo|] eqn:Eo.
      * rewrite (getitem_present _ _ _ Eo). exact E1.
      * rewrite (getitem_absent _ _ Eo). cbn [fst].
        rewrite lookup_insert_ne by done. exact E1.
Qed.

Lemma UserStatusList_getitem_single_session_witness :
  UserStatusList.getitem 7 (fst (UserStatusList.getitem 7 ∅))
  = UserStatusList.getitem 7 ∅ /\
  fst (UserStatusList.getitem 9 (fst (UserStatusList.getitem 7 ∅))) !! 7
  = snd (UserStatusList.getitem 7 ∅).
Proof.
  destruct (UserStatusList_getitem_single_session 7 ∅)
    as (_ & _ & _ & H1 & _ & _ & H2).
  split.
  - rewrite H1. destruct (UserStatusList.getitem 7 ∅). reflexivity.
  - apply H2. lia.
Defined.

(** ** Sending *)

Lemma supports_caption_class (item : pyobj) :
  supports_caption item
  = match class_of item with
    | Some c => class_in c ALLOWED_TELEGRAM_OBJECTS_WITH_CAPTION
    | None => false
    end.
Proof. destruct item as [| |[] ?| |]; reflexivity. Qed.

(** C9: handed a list or tuple that is not exactly two elements long, or a
    pair whose item is of a class without captions, [reply_object] raises
    [AttributeError] in the state it was called in: nothing has been sent. *)
Theorem reply_object_malformed_pair_raises
    (parse_mode : string) (items : list pyobj)
    (markup : option reply_markup) (silent : bool) (s : state) :
  (length items <> 2%nat \/
   exists item caption,
     items = [item; caption] /\ supports_caption item = false) ->
  Node_reply_object parse_mode (PList items) markup silent s
  = Raise AttributeError s /\
  Node_reply_object parse_mode (PTuple items) markup silent s
  = Raise AttributeError s.
Proof.
  intros H. unfold Node_reply_object, bind.
  destruct items as [|o0 [|o1 [|o2 rest]]]; try (split; reflexivity).
  destruct H as [H | (item & caption & E & Hc)].
  - simpl in H. congruence.
  - injection E as -> ->. rewrite supports_caption_class in Hc.
    rewrite Hc. split; reflexivity.
Qed.

Lemma reply_object_malformed_pair_raises_witness :
  Node_reply_object MARKDOWN (PTuple [PTg Sticker 0%nat; PStr "caption"])
    None false {| registry := ∅; nodes := ∅; log := [] |}
  = Raise AttributeError {| registry := ∅; nodes := ∅; log := [] |}.
Proof.
  apply (reply_object_malformed_pair_raises MARKDOWN
           [PTg Sticker 0%nat; PStr "caption"]).
  right. exists (PTg Sticker 0%nat), (PStr "caption").
  split; reflexivity.
Defined.

Lemma extends_log_refl s : extends_log s s.
Proof. repeat split. exists []. symmetry. apply app_nil_r. Qed.

Lemma extends_log_trans s1 s2 s3 :
  extends_log s1 s2 -> extends_log s2 s3 -> extends_log s1 s3.
Proof.
  intros (R1 & N1 & l1 & L1) (R2 & N2 & l2 & L2).
  repeat split; try congruence.
  exists (l1 ++ l2). rewrite L2, L1, app_assoc. reflexivity.
Qed.

Lemma emit_extends e s : exists s', emit e s = Ok tt s' /\ extends_log s s'.
Proof.
  eexists. split; [reflexivity|]. repeat split. exists [e]. reflexivity.
Qed.

Lemma reply_object_ok parse_mode o markup silent s :
  object_ok o = true ->
  exists s', Node_reply_object parse_mode o markup silent s = Ok tt s' /\
             extends_log s s'.
Proof.
  intros H.
  assert (G : forall (caption : option pyobj) (obj : pyobj),
             exists s',
               ((match obj with
                 | PStr t => emit (reply_text t markup parse_mode silent)
                 | PTg Audio i => emit (reply_media Audio i caption markup silent)
                 | PTg Contact i => emit (reply_media Contact i None markup silent)
                 | PTg Document i => emit (reply_media Document i caption markup silent)
                 | PTg Location i => emit (reply_media Location i None markup silent)
                 | _ => ret tt
                 end);;;
                match obj with
                | PTg PhotoSize i => emit (reply_media PhotoSize i caption markup silent)
                | PTg Sticker i => emit (reply_media Sticker i None markup silent)
                | PTg Venue i => emit (reply_media Venue i None markup silent)
                | PTg Video i => emit (reply_media Video i caption markup silent)
                | PTg VideoNote i => emit (reply_media VideoNote i None markup silent)
                | PTg Voice i => emit (reply_media Voice i caption markup silent)
                | _ => ret tt
                end) s = Ok tt s' /\ extends_log s s').
  { intros caption obj.
    destruct obj as [| |[] ?| |]; unfold bind, emit, ret; simpl;
      eexists; (split; [reflexivity|]); repeat split; simpl;
      try (exists []; symmetry; apply app_nil_r);
      eexists; reflexivity. }
  unfold Node_reply_object.
  destruct o as [| | | items | items]; try apply (G None).
  - simpl in H. destruct items as [|o0 [|o1 [|? ?]]]; try discriminate.
    rewrite supports_caption_class in H. unfold bind at 1. rewrite H.
    apply (G (Some o1) o0).
  - simpl in H. destruct items as [|o0 [|o1 [|? ?]]]; try discriminate.
    rewrite supports_caption_class in H. unfold bind at 1. rewrite H.
    apply (G (Some o1) o0).
Qed.

Lemma reply_list_ok parse_mode user_id items markup s :
  items <> [] -> forallb object_ok items = true ->
  exists s', reply_list parse_mode user_id items markup s = Ok tt s' /\
             extends_log s s'.
Proof.
  revert s. induction items as [|o rest IH]; intros s Hne Hall; [done|].
  simpl in Hall. apply andb_true_iff in Hall as [Ho Hrest].
  destruct rest as [|o' rest'].
  - simpl. apply reply_object_ok. exact Ho.
  - cbn [reply_list]. unfold bind.
    destruct (reply_object_ok parse_mode o None true s Ho) as (s1 & E1 & X1).
    rewrite E1.
    destruct (emit_extends (send_chat_action user_id) s1) as (s2 & E2 & X2).
    rewrite E2.
    destruct (IH s2) as (s3 & E3 & X3); [done|exact Hrest|].
    exists s3. split; [exact E3|].
    eauto using extends_log_trans.
Qed.

Lemma Node_reply_ok parse_mode user_id o markup s :
  to_send_ok o = true ->
  exists s', Node_reply parse_mode user_id o markup s = Ok tt s' /\
             extends_log s s'.
Proof.
  intros H. unfold Node_reply.
  destruct o as [| | | items | items];
    try (apply reply_object_ok; exact H).
  simpl in H. destruct items as [|o rest]; [discriminate|].
  apply reply_list_ok; [done|exact H].
Qed.

(** ** Running the monad: equations of the primitives *)

Lemma registry_set_registry r s : registry (set_registry r s) = r.
Proof. reflexivity. Qed.
Lemma nodes_set_registry r s : nodes (set_registry r s) = nodes s.
Proof. reflexivity. Qed.
Lemma log_set_registry r s : log (set_registry r s) = log s.
Proof. reflexivity. Qed.
Lemma registry_set_nodes n s : registry (set_nodes n s) = registry s.
Proof. reflexivity. Qed.
Lemma nodes_set_nodes n s : nodes (set_nodes n s) = n.
Proof. reflexivity. Qed.
Lemma log_set_nodes n s : log (set_nodes n s) = log s.
Proof. reflexivity. Qed.
Lemma registry_add_log e s : registry (add_log e s) = registry s.
Proof. reflexivity. Qed.
Lemma nodes_add_log e s : nodes (add_log e s) = nodes s.
Proof. reflexivity. Qed.
Lemma log_add_log e s : log (add_log e s) = log s ++ [e].
Proof. reflexivity. Qed.

Create Rewrite HintDb st.
#[export] Hint Rewrite registry_set_registry nodes_set_registry log_set_registry
  registry_set_nodes nodes_set_nodes log_set_nodes
  registry_add_log nodes_add_log log_add_log : st.

Lemma bind_Ok {A B} (m : M A) (k : A -> M B) s a s1 :
  m s = Ok a s1 -> bind m k s = k a s1.
Proof. intros H. unfold bind. rewrite H. reflexivity. Qed.

Lemma bind_assoc {A B C} (m : M A) (k : A -> M B) (k' : B -> M C) s :
  bind (bind m k) k' s = bind m (fun a => bind (k a) k') s.
Proof. unfold bind. destruct (m s); reflexivity. Qed.

Lemma bind_Raise {A B} (m : M A) (k : A -> M B) s e s1 :
  m s = Raise e s1 -> bind m k s = Raise e s1.
Proof. intros H. unfold bind. rewrite H. reflexivity. Qed.

Lemma bind_Ok_inv {A B} (m : M A) (k : A -> M B) s b s2 :
  bind m k s = Ok b s2 -> exists a s1, m s = Ok a s1 /\ k a s1 = Ok b s2.
Proof.
  unfold bind. destruct (m s) as [a s1| |]; try discriminate. eauto.
Qed.

Lemma get_node_eq r n s :
  nodes s !! r = Some n -> get_node r s = Ok n s.
Proof. intros H. unfold get_node. rewrite H. reflexivity. Qed.

Lemma update_node_eq r f n s :
  nodes s !! r = Some n ->
  update_node r f s = Ok tt (set_nodes (<[r := f n]> (nodes s)) s).
Proof. intros H. unfold update_node. rewrite H. reflexivity. Qed.

Lemma getitem_eq user_id us s :
  registry s !! user_id = Some us ->
  user_status_list_getitem true user_id s = Ok tt s.
Proof.
  intros H. unfold user_status_list_getitem.
  rewrite (getitem_present _ _ _ H). destruct s; reflexivity.
Qed.

Lemma user_status_eq user_id us s :
  registry s !! user_id = Some us -> user_status user_id s = Ok us s.
Proof. intros H. unfold user_status. rewrite H. reflexivity. Qed.

Lemma update_user_status_eq user_id f us s :
  registry s !! user_id = Some us ->
  update_user_status user_id f s
  = Ok tt (set_registry (<[user_id := f us]> (registry s)) s).
Proof. intros H. unfold update_user_status. rewrite H. reflexivity. Qed.

(** One step of symbolic execution: rewrite the head of a [bind] with an
    equation of its first action. *)
Ltac step_with H := erewrite bind_Ok by (exact H); cbv beta.

Ltac step_get_node H :=
  erewrite bind_Ok by (apply get_node_eq; exact H); cbv beta.
Ltac step_getitem H :=
  erewrite bind_Ok by (eapply getitem_eq; exact H); cbv beta.
Ltac step_user_status H :=
  erewrite bind_Ok by (apply user_status_eq; exact H); cbv beta.
Ltac step_update H :=
  erewrite bind_Ok by (apply update_user_status_eq; exact H); cbv beta.

Lemma optional_reply_ok parse_mode user_id o markup s :
  payload_ok o = true ->
  exists s',
    (if truthy o then Node_reply parse_mode user_id o markup else ret tt) s
    = Ok tt s' /\ extends_log s s'.
Proof.
  unfold payload_ok. intros H. destruct (truthy o) eqn:E.
  - apply Node_reply_ok. exact H.
  - exists s. split; [reflexivity|apply extends_log_refl].
Qed.

(** ** The inside lifecycle at a terminal leaf *)

Lemma check_candidates_match self u candidates n us h s :
  nodes s !! self = Some n ->
  Node.user_status_list n = true ->
  registry s !! effective_user_id u = Some us ->
  first_match u candidates = Some h ->
  Node_check_candidates self u candidates s
  = Ok true (set_registry
               (<[effective_user_id u :=
                    UserStatus.set_current_node_handler (Some h) us]>
                  (registry s)) s).
Proof.
  intros Hn Hb Hus Hm. unfold Node_check_candidates.
  unfold first_match in Hm. rewrite Hm.
  step_get_node Hn. rewrite Hb. step_getitem Hus. step_update Hus.
  reflexivity.
Qed.

Lemma check_candidates_no_match self u candidates s :
  first_match u candidates = None ->
  Node_check_candidates self u candidates s = Ok false s.
Proof.
  intros Hm. unfold Node_check_candidates.
  unfold first_match in Hm. rewrite Hm. reflexivity.
Qed.

(** C7: when the inside lifecycle of a node finds neither a pending next
    node nor a static successor, and the node has [switch_on_this] false,
    the call returns with [is_inside_current_node] set to true again, the
    history, the displayed node and the node store as they were, and no
    pending next node; an update that one of the node's inside handlers
    accepts is then matched by the node again. *)
Theorem handle_inside_terminal_leaf_stays_inside
    (fuel : nat) (self : node_ref) (u : Update) (n : Node.t)
    (us : UserStatus.t) (s : state) :
  nodes s !! self = Some n ->
  Node.user_status_list n = true ->
  registry s !! effective_user_id u = Some us ->
  payload_ok (Node.goodbye n) = true ->
  UserStatus.next_node us = None ->
  Node.next_node n = None ->
  Node.switch_on_this n = false ->
  exists s' us',
    Node_handle_inside fuel self u s = Ok tt s' /\
    registry s' !! effective_user_id u = Some us' /\
    UserStatus.is_inside_current_node us' = true /\
    UserStatus.nodes_history us' = UserStatus.nodes_history us /\
    UserStatus.display_node us' = UserStatus.display_node us /\
    UserStatus.nodes_handler_entered us' = UserStatus.nodes_handler_entered us /\
    UserStatus.next_node us' = None /\
    nodes s' = nodes s /\
    (forall (u' : Update) (h : Handler.t),
       effective_user_id u' = effective_user_id u ->
       first_match u' (Node.inside_handlers n) = Some h ->
       exists s'' us'',
         Node_check_update self u' s' = Ok true s'' /\
         registry s'' !! effective_user_id u = Some us'' /\
         UserStatus.current_node_handler us'' = Some h /\
         UserStatus.nodes_history us'' = UserStatus.nodes_history us).
Proof.
  intros Hn Hb Hus Hg Hp Hnx Hsw.
  set (uid := effective_user_id u) in *.
  destruct (optional_reply_ok (Node.parse_mode n) uid (Node.goodbye n) None s Hg)
    as (s1 & E1 & R1 & N1 & l1 & L1).
  assert (Hus1 : registry s1 !! uid = Some us) by (rewrite R1; exact Hus).
  unfold Node_handle_inside, Node_handle_inside_body. fold uid.
  step_get_node Hn. rewrite Hb. step_getitem Hus. step_with E1.
  step_update Hus1.
  match goal with |- context [bind (user_status uid) _ ?st] =>
    set (s2 := st) end.
  assert (Hus2 : registry s2 !! uid = Some (UserStatus.exit_current_node us))
    by (subst s2; autorewrite with st; apply lookup_insert_eq).
  step_user_status Hus2.
  replace (UserStatus.next_node (UserStatus.exit_current_node us))
    with (@None node_ref) by (symmetry; exact Hp).
  rewrite Hnx, Hsw. cbn [negb].
  step_update Hus2.
  match goal with |- context [update_user_status uid _ ?st] =>
    set (s3 := st) end.
  assert (Hus3 : registry s3 !! uid
                 = Some (UserStatus.enter_current_node
                           (UserStatus.exit_current_node us)))
    by (subst s3; autorewrite with st; apply lookup_insert_eq).
  rewrite (update_user_status_eq _ _ _ _ Hus3).
  match goal with |- context [Ok tt ?st] => set (s4 := st) end.
  set (us4 := UserStatus.set_next_node None
                (UserStatus.enter_current_node
                   (UserStatus.exit_current_node us))).
  assert (Hus4 : registry s4 !! uid = Some us4)
    by (subst s4; autorewrite with st; apply lookup_insert_eq).
  assert (Hn4 : nodes s4 = nodes s)
    by (subst s4 s3 s2; autorewrite with st; exact N1).
  exists s4, us4. repeat split; try reflexivity; try assumption.
  intros u' h Hu' Hm.
  assert (Hn' : nodes s4 !! self = Some n) by (rewrite Hn4; exact Hn).
  unfold Node_check_update. rewrite Hu'. fold uid.
  step_get_node Hn'. rewrite Hb. step_getitem Hus4. step_user_status Hus4.
  cbn [UserStatus.is_inside_current_node us4 UserStatus.set_next_node
       UserStatus.enter_current_node UserStatus.set_is_inside_current_node negb].
  assert (Hus4' : registry s4 !! effective_user_id u' = Some us4)
    by (rewrite Hu'; exact Hus4).
  rewrite (bind_Ok _ _ _ _ _
             (check_candidates_match self u' _ n us4 h s4 Hn' Hb Hus4' Hm)).
  cbv beta iota. rewrite Hu'. fold uid.
  eexists _, _. split; [reflexivity|].
  autorewrite with st. rewrite lookup_insert_eq.
  repeat split; reflexivity.
Qed.

Lemma handle_inside_terminal_leaf_stays_inside_witness :
  exists s' us',
    Node_handle_inside 0 0%nat LeafExample.u LeafExample.s0 = Ok tt s' /\
    registry s' !! 7 = Some us' /\
    UserStatus.is_inside_current_node us' = true /\
    UserStatus.nodes_history us' = [5%nat].
Proof.
  destruct (handle_inside_terminal_leaf_stays_inside 0 0%nat LeafExample.u
              LeafExample.leaf LeafExample.session LeafExample.s0)
    as (s' & us' & E & R & I & H & _); try reflexivity.
  exists s', us'. repeat split; assumption.
Defined.

(** ** Rules for [post] *)

Lemma post_ret {A} (a : A) s (Q : A -> state -> Prop) :
  Q a s -> post (ret a) s Q.
Proof. intros H. exact H. Qed.

Lemma post_bind {A B} (m : M A) (k : A -> M B) s (Q : B -> state -> Prop) :
  post m s (fun a s1 => post (k a) s1 Q) -> post (bind m k) s Q.
Proof. unfold post, bind. destruct (m s); auto. Qed.

Lemma post_conseq {A} (m : M A) s (P Q : A -> state -> Prop) :
  post m s P -> (forall a s', P a s' -> Q a s') -> post m s Q.
Proof. unfold post. destruct (m s); auto. Qed.

Lemma post_Ok {A} (m : M A) s (Q : A -> state -> Prop) a s' :
  post m s Q -> m s = Ok a s' -> Q a s'.
Proof. unfold post. intros H E. rewrite E in H. exact H. Qed.

Lemma post_raise {A} e s (Q : A -> state -> Prop) : post (raise e) s Q.
Proof. exact I. Qed.

Lemma post_abort {A} r s (Q : A -> state -> Prop) : post (abort_with r) s Q.
Proof. exact I. Qed.

Lemma post_emit e s (Q : unit -> state -> Prop) :
  Q tt (add_log e s) -> post (emit e) s Q.
Proof. intros H. exact H. Qed.

Lemma post_get_node r s (Q : Node.t -> state -> Prop) :
  (forall n, nodes s !! r = Some n -> Q n s) -> post (get_node r) s Q.
Proof. unfold post, get_node. destruct (nodes s !! r); auto. Qed.

Lemma post_update_node r f s (Q : unit -> state -> Prop) :
  (forall n, nodes s !! r = Some n ->
             Q tt (set_nodes (<[r := f n]> (nodes s)) s)) ->
  post (update_node r f) s Q.
Proof. unfold post, update_node. destruct (nodes s !! r); auto. Qed.

Lemma post_getitem b user_id s (Q : unit -> state -> Prop) :
  (b = true ->
   Q tt (set_registry (fst (UserStatusList.getitem user_id (registry s))) s)) ->
  post (user_status_list_getitem b user_id) s Q.
Proof. unfold post, user_status_list_getitem. destruct b; auto. Qed.

Lemma post_user_status user_id s (Q : UserStatus.t -> state -> Prop) :
  (forall us, registry s !! user_id = Some us -> Q us s) ->
  post (user_status user_id) s Q.
Proof. unfold post, user_status. destruct (registry s !! user_id); auto. Qed.

Lemma post_update_user_status user_id f s (Q : unit -> state -> Prop) :
  (forall us, registry s !! user_id = Some us ->
              Q tt (set_registry (<[user_id := f us]> (registry s)) s)) ->
  post (update_user_status user_id f) s Q.
Proof.
  unfold post, update_user_status. destruct (registry s !! user_id); auto.
Qed.

Lemma post_deref {A} (o : option A) s (Q : A -> state -> Prop) :
  (forall a, o = Some a -> Q a s) -> post (deref o) s Q.
Proof. destruct o; intros H; [apply H; reflexivity|exact I]. Qed.

Lemma post_handler h u s (Q : handle_result -> state -> Prop) :
  Q (Handler.callback h u) (add_log (handler_called (Handler.hid h)) s) ->
  post (Handler_handle_update h u) s Q.
Proof. intros H. exact H. Qed.

Lemma post_reply_object parse_mode o markup silent s :
  post (Node_reply_object parse_mode o markup silent) s
       (fun _ s' => extends_log s s').
Proof.
  destruct (object_ok o) eqn:E.
  - destruct (reply_object_ok parse_mode o markup silent s E) as (s' & H & X).
    unfold post. rewrite H. exact X.
  - unfold post.
    destruct o as [| | | items | items]; try discriminate;
      destruct items as [|o0 [|o1 [|? ?]]]; try exact I;
      simpl in E; rewrite supports_caption_class in E;
      unfold Node_reply_object, bind; rewrite E; exact I.
Qed.

Lemma post_reply_list parse_mode user_id items markup s :
  post (reply_list parse_mode user_id items markup) s
       (fun _ s' => extends_log s s').
Proof.
  revert s. induction items as [|o rest IH]; intros s; [exact I|].
  destruct rest as [|o' rest'].
  - apply post_reply_object.
  - cbn [reply_list]. apply post_bind.
    eapply post_conseq; [apply post_reply_object|].
    intros ? s1 X1. apply post_bind. apply post_emit.
    eapply post_conseq; [apply IH|].
    intros ? s3 X3. cbv beta.
    eapply extends_log_trans; [exact X1|].
    eapply extends_log_trans; [|exact X3].
    repeat split. exists [send_chat_action user_id]. reflexivity.
Qed.

Lemma post_reply parse_mode user_id o markup s :
  post (Node_reply parse_mode user_id o markup) s
       (fun _ s' => extends_log s s').
Proof.
  destruct o; try apply post_reply_object. apply post_reply_list.
Qed.

Lemma post_optional_reply parse_mode user_id o markup s :
  post (if truthy o then Node_reply parse_mode user_id o markup else ret tt) s
       (fun _ s' => extends_log s s').
Proof.
  destruct (truthy o); [apply post_reply|]. apply post_ret, extends_log_refl.
Qed.

Lemma post_select handler switch_nodes s :
  post (SwitchNode_select handler switch_nodes) s (fun _ s' => s' = s).
Proof.
  induction switch_nodes as [|c rest IH]; [reflexivity|].
  cbn [SwitchNode_select]. apply post_bind, post_get_node. intros n _.
  destruct (match handler with
            | Some h => handler_in h (Node.entry_handlers n)
            | None => false
            end); [reflexivity|exact IH].
Qed.

(** ** The pending next node is cleared *)

Lemma cleared_extends user_id s s' :
  extends_log s s' -> cleared user_id s -> cleared user_id s'.
Proof. intros (R & _) (us & H & C). exists us. rewrite R. auto. Qed.

Lemma cleared_insert user_id us s :
  UserStatus.next_node us = None ->
  cleared user_id (set_registry (<[user_id := us]> (registry s)) s).
Proof.
  intros H. exists us. autorewrite with st. rewrite lookup_insert_eq. auto.
Qed.

Lemma cleared_set_nodes user_id n s :
  cleared user_id s -> cleared user_id (set_nodes n s).
Proof. intros H. exact H. Qed.

Lemma cleared_add_log user_id e s :
  cleared user_id s -> cleared user_id (add_log e s).
Proof. intros H. exact H. Qed.

Lemma post_trivial {A} (m : M A) s : post m s (fun _ _ => True).
Proof. unfold post. destruct (m s); exact I. Qed.

Section Cleared.
Variable handle_entry : node_ref -> Update -> M unit.
Variable u : Update.
Hypothesis handle_entry_cleared :
  forall x s, cleared (effective_user_id u) s ->
    post (handle_entry x u) s (fun _ s' => cleared (effective_user_id u) s').

Lemma Node_handle_inside_body_cleared self s :
  post (Node_handle_inside_body handle_entry self u) s
       (fun _ s' => cleared (effective_user_id u) s').
Proof.
  unfold Node_handle_inside_body.
  set (uid := effective_user_id u) in *.
  apply post_bind, post_get_node. intros n _.
  apply post_bind, post_getitem. intros _.
  apply post_bind. eapply post_conseq; [apply post_optional_reply|].
  intros ? s1 _. apply post_bind, post_update_user_status. intros us0 _.
  apply post_bind, post_user_status. intros us _.
  destruct (match UserStatus.next_node us with
            | Some p => Some p
            | None => Node.next_node n
            end) as [nx|].
  - apply post_bind, post_update_node. intros d0 _.
    apply post_bind, post_update_user_status. intros us1 _.
    apply post_bind, post_get_node. intros d _.
    apply post_bind.
    eapply post_conseq; [apply post_trivial|].
    intros ? s2 _.
    apply post_bind, post_update_user_status. intros us2 _.
    match goal with |- post _ ?st _ => assert (C : cleared uid st)
      by (apply cleared_insert; reflexivity) end.
    destruct (Node.auto_entry d); [|exact C].
    apply post_bind.
    destruct (Node.next_node n) as [x|];
      [destruct (Node.entry_handlers d) as [|h0 t]|].
    + apply post_ret. apply handle_entry_cleared. exact C.
    + apply post_bind, post_handler. apply post_ret.
      apply handle_entry_cleared. apply cleared_add_log. exact C.
    + apply post_ret. apply handle_entry_cleared. exact C.
  - apply post_bind.
    destruct (negb (Node.switch_on_this n)).
    + apply post_update_user_status. intros us1 _.
      apply post_update_user_status. intros us2 _.
      apply cleared_insert. reflexivity.
    + apply post_ret. apply post_update_user_status. intros us2 _.
      apply cleared_insert. reflexivity.
Qed.

Lemma handle_inside_body_cleared self s :
  post (handle_inside_body handle_entry self u) s
       (fun _ s' => cleared (effective_user_id u) s').
Proof.
  unfold handle_inside_body. apply post_bind, post_get_node. intros n _.
  destruct (is_SwitchNode (Node.cls n)).
  - unfold SwitchNode_handle_inside_body.
    apply post_bind, post_get_node. intros n' _.
    apply post_bind, post_getitem. intros _.
    apply post_bind, post_user_status. intros us _.
    apply post_bind. eapply post_conseq; [apply post_select|].
    intros chosen s1 _. apply post_bind.
    destruct chosen.
    + apply post_update_user_status. intros us1 _.
      apply Node_handle_inside_body_cleared.
    + apply post_ret. apply Node_handle_inside_body_cleared.
  - apply Node_handle_inside_body_cleared.
Qed.
End Cleared.

Lemma Node_handle_entry_cleared fuel u self s :
  cleared (effective_user_id u) s ->
  post (Node_handle_entry fuel self u) s
       (fun _ s' => cleared (effective_user_id u) s').
Proof.
  revert self s. induction fuel as [|fuel IH]; intros self s C; [exact I|].
  cbn [Node_handle_entry]. set (uid := effective_user_id u) in *.
  apply post_bind, post_get_node. intros n _.
  apply post_bind, post_getitem. intros _.
  destruct C as (us & Hus & Hc).
  rewrite (getitem_present _ _ _ Hus). cbn [fst].
  apply post_bind, post_update_user_status. intros us' Hus'.
  autorewrite with st in Hus'. rewrite Hus in Hus'. injection Hus' as <-.
  match goal with |- post _ ?st _ => assert (C : cleared uid st)
    by (apply cleared_insert; exact Hc) end.
  apply post_bind.
  eapply post_conseq with (P := fun _ s' => cleared uid s').
  - destruct (truthy (Node.hello n)); [|exact C].
    apply post_bind, post_user_status. intros us1 _.
    eapply post_conseq; [apply post_reply|].
    intros ? s1 X. cbv beta in X. eapply cleared_extends; [exact X|exact C].
  - intros ? s1 C1.
    destruct (Node.inside_handlers n); [|exact C1].
    apply handle_inside_body_cleared. exact IH.
Qed.

Lemma Node_handle_inside_cleared fuel self u s s' :
  Node_handle_inside fuel self u s = Ok tt s' ->
  cleared (effective_user_id u) s'.
Proof.
  intros E.
  refine (post_Ok _ _ _ _ _ (Node_handle_inside_body_cleared _ u _ self s) E).
  intros x s0. apply Node_handle_entry_cleared.
Qed.

(** ** The inside lifecycle with a next node *)

Ltac lk :=
  cbn [registry nodes log set_registry set_nodes add_log];
  first [ eassumption
        | apply lookup_insert_eq
        | rewrite lookup_insert_ne by congruence; eassumption ].

Ltac step :=
  rewrite ?bind_assoc;
  first [ erewrite bind_Ok by (apply get_node_eq; lk)
        | erewrite bind_Ok by (eapply getitem_eq; lk)
        | erewrite bind_Ok by (apply user_status_eq; lk)
        | erewrite bind_Ok by (apply update_user_status_eq; lk)
        | erewrite bind_Ok by (apply update_node_eq; lk)
        | erewrite bind_Ok by reflexivity ];
  cbv beta; unfold set_registry, set_nodes, add_log; cbn [registry nodes log].

Lemma set_back_str_id d : Node.set_back_str (Node.back_str d) d = d.
Proof. destruct d; reflexivity. Qed.

Lemma NodesHistory_add_eq user_id node us d s :
  registry s !! user_id = Some us ->
  nodes s !! node = Some d ->
  (forall cur, NodesHistory.current (UserStatus.nodes_history us) = Some cur ->
               is_Some (nodes s !! cur)) ->
  exists b,
    NodesHistory_add user_id node s
    = Ok tt (set_registry
               (<[user_id := UserStatus.set_nodes_history
                               (UserStatus.nodes_history us ++ [node]) us]>
                  (registry s))
               (set_nodes (<[node := Node.set_back_str b d]> (nodes s)) s)).
Proof.
  intros Hus Hd Hcur. unfold NodesHistory_add. step.
  destruct (NodesHistory.current (UserStatus.nodes_history us))
    as [cur|] eqn:Ec.
  - destruct (Hcur cur eq_refl) as (c & Hc).
    exists (Node.back_str c). do 2 step.
    rewrite (update_user_status_eq _ _ us) by lk. reflexivity.
  - exists (Node.back_str d). step.
    rewrite (update_user_status_eq _ _ us) by lk.
    rewrite set_back_str_id, (insert_id _ _ _ Hd).
    destruct s; reflexivity.
Qed.

Ltac norm_st :=
  cbn [registry nodes log set_registry set_nodes add_log];
  rewrite ?insert_insert_eq; try reflexivity.

Section InsideNext.
Variable handle_entry : node_ref -> Update -> M unit.

Lemma Node_handle_inside_body_next self u n us nx d s :
  nodes s !! self = Some n ->
  Node.user_status_list n = true ->
  registry s !! effective_user_id u = Some us ->
  payload_ok (Node.goodbye n) = true ->
  chosen_next us n = Some nx ->
  nodes s !! nx = Some d ->
  (forall cur, NodesHistory.current (UserStatus.nodes_history us) = Some cur ->
               is_Some (nodes s !! cur)) ->
  exists s1 s_mid b,
    (if truthy (Node.goodbye n)
     then Node_reply (Node.parse_mode n) (effective_user_id u)
            (Node.goodbye n) None
     else ret tt) s = Ok tt s1 /\
    extends_log s s1 /\
    registry s_mid
    = <[effective_user_id u := after_transition nx (Node.switch_on_this d) us]>
        (registry s) /\
    nodes s_mid
    = <[nx := Node.set_back_str b (Node.set_user_status_list true d)]>
        (nodes s) /\
    log s_mid = log s1 ++ entry_callback_log n d /\
    Node_handle_inside_body handle_entry self u s
    = if Node.auto_entry d then handle_entry nx u s_mid else Ok tt s_mid.
Proof.
  intros Hn Hb Hus Hg Hnext Hd Hcur.
  set (uid := effective_user_id u) in *.
  destruct (optional_reply_ok (Node.parse_mode n) uid (Node.goodbye n) None s Hg)
    as (s1 & E1 & X1).
  exists s1. pose proof X1 as (HR & HN & l1 & HL).
  destruct s as [R N L]. destruct s1 as [R1 N1 L1].
  cbn [registry nodes log] in *. subst R1 N1.
  unfold Node_handle_inside_body. fold uid.
  step. rewrite Hb. step. step_with E1. step. step.
  change (match UserStatus.next_node (UserStatus.exit_current_node us) with
          | Some p => Some p
          | None => Node.next_node n
          end) with (chosen_next us n).
  rewrite Hnext. step. step. step.
  cbn [Node.switch_on_this Node.set_user_status_list Node.auto_entry
       Node.entry_handlers].
  assert (Hfin : forall (st : state) (b : option string),
    registry st = <[uid := after_transition nx (Node.switch_on_this d) us]> R ->
    nodes st = <[nx := Node.set_back_str b (Node.set_user_status_list true d)]> N ->
    log st = L1 ->
    exists s_mid b,
      (if truthy (Node.goodbye n)
       then Node_reply (Node.parse_mode n) uid (Node.goodbye n) None
       else ret tt) {| registry := R; nodes := N; log := L |}
      = Ok tt {| registry := R; nodes := N; log := L1 |} /\
      extends_log {| registry := R; nodes := N; log := L |}
        {| registry := R; nodes := N; log := L1 |} /\
      registry s_mid
      = <[uid := after_transition nx (Node.switch_on_this d) us]> R /\
      nodes s_mid
      = <[nx := Node.set_back_str b (Node.set_user_status_list true d)]> N /\
      log s_mid = L1 ++ entry_callback_log n d /\
      (if Node.auto_entry d
       then (match Node.next_node n, Node.entry_handlers d with
             | Some _, h0 :: _ =>
                 let* _ := Handler_handle_update h0 u in ret tt
             | _, _ => ret tt
             end);;; handle_entry nx u
       else ret tt) st
      = if Node.auto_entry d then handle_entry nx u s_mid else Ok tt s_mid).
  { intros st b HRst HNst HLst. unfold entry_callback_log.
    destruct (Node.auto_entry d).
    - destruct (Node.next_node n) as [x|];
        [destruct (Node.entry_handlers d) as [|h0 t]|].
      + exists st, b. rewrite app_nil_r. auto 7.
      + exists (add_log (handler_called (Handler.hid h0)) st), b.
        autorewrite with st. rewrite HLst. auto 7.
      + exists st, b. rewrite app_nil_r. auto 7.
    - exists st, b. rewrite app_nil_r. auto 7. }
  destruct (Node.switch_on_this d) eqn:Hsw.
  - match goal with |- context [bind (NodesHistory_add uid nx) _ ?st] =>
      destruct (NodesHistory_add_eq uid nx
                  (UserStatus.set_display_node (Some nx)
                     (UserStatus.exit_current_node us))
                  (Node.set_user_status_list true d) st) as (b & Eadd)
    end.
    { lk. }
    { lk. }
    { cbn [UserStatus.nodes_history UserStatus.set_display_node
           UserStatus.exit_current_node UserStatus.set_is_inside_current_node
           registry nodes log set_registry set_nodes add_log].
      intros cur Ec. destruct (decide (nx = cur)) as [->|Hne].
      - rewrite lookup_insert_eq. eauto.
      - rewrite lookup_insert_ne by done. apply Hcur. exact Ec. }
    step_with Eadd. cbn [registry nodes log set_registry set_nodes add_log].
    step.
    eapply (Hfin _ b); norm_st.
  - step. step.
    eapply (Hfin _ (Node.back_str d)); norm_st.
Qed.
End InsideNext.

Section InsideLeaf.
Variable handle_entry : node_ref -> Update -> M unit.

Lemma Node_handle_inside_body_leaf self u n us s :
  nodes s !! self = Some n ->
  Node.user_status_list n = true ->
  registry s !! effective_user_id u = Some us ->
  payload_ok (Node.goodbye n) = true ->
  chosen_next us n = None ->
  exists s1 s',
    (if truthy (Node.goodbye n)
     then Node_reply (Node.parse_mode n) (effective_user_id u)
            (Node.goodbye n) None
     else ret tt) s = Ok tt s1 /\
    Node_handle_inside_body handle_entry self u s = Ok tt s' /\
    registry s' = <[effective_user_id u := after_leaf n us]> (registry s) /\
    nodes s' = nodes s /\ log s' = log s1.
Proof.
  intros Hn Hb Hus Hg Hnext.
  set (uid := effective_user_id u) in *.
  destruct (optional_reply_ok (Node.parse_mode n) uid (Node.goodbye n) None s Hg)
    as (s1 & E1 & X1).
  exists s1. pose proof X1 as (HR & HN & l1 & HL).
  destruct s as [R N L]. destruct s1 as [R1 N1 L1].
  cbn [registry nodes log] in *. subst R1 N1.
  unfold Node_handle_inside_body. fold uid.
  step. rewrite Hb. step. step_with E1. step. step.
  change (match UserStatus.next_node (UserStatus.exit_current_node us) with
          | Some p => Some p
          | None => Node.next_node n
          end) with (chosen_next us n).
  rewrite Hnext. unfold after_leaf.
  destruct (Node.switch_on_this n); cbn [negb].
  - step. rewrite (update_user_status_eq uid _ (UserStatus.exit_current_node us))
      by lk.
    eexists. split; [exact E1|]. split; [reflexivity|]. norm_st.
    repeat split; reflexivity.
  - step.
    erewrite update_user_status_eq by lk.
    eexists. split; [exact E1|]. split; [reflexivity|]. norm_st.
    repeat split; reflexivity.
Qed.
End InsideLeaf.

(** The entry lifecycle of a node that has inside handlers: the session is
    marked inside, the greeting is sent, and the call returns. *)
Lemma Node_handle_entry_waits fuel self u n us s :
  nodes s !! self = Some n ->
  Node.user_status_list n = true ->
  registry s !! effective_user_id u = Some us ->
  payload_ok (Node.hello n) = true ->
  Node.inside_handlers n <> [] ->
  exists s',
    Node_handle_entry (S fuel) self u s = Ok tt s' /\
    registry s'
    = <[effective_user_id u := UserStatus.enter_current_node us]> (registry s) /\
    nodes s' = nodes s /\
    (if truthy (Node.hello n)
     then Node_reply (Node.parse_mode n) (effective_user_id u) (Node.hello n)
            (entry_reply_markup n (UserStatus.nodes_history us))
     else ret tt)
      (set_registry
         (<[effective_user_id u := UserStatus.enter_current_node us]>
            (registry s)) s)
    = Ok tt s'.
Proof.
  intros Hn Hb Hus Hh Hin.
  set (uid := effective_user_id u) in *.
  cbn [Node_handle_entry]. fold uid.
  step. rewrite Hb. step. step.
  match goal with |- context [bind _ _ ?st] => set (s1 := st) end.
  destruct (optional_reply_ok (Node.parse_mode n) uid (Node.hello n)
              (entry_reply_markup n (UserStatus.nodes_history us)) s1 Hh)
    as (s' & E & HR & HN & _).
  exists s'.
  assert (E' : (if truthy (Node.hello n)
                then let* us0 := user_status uid in
                     Node_reply (Node.parse_mode n) uid (Node.hello n)
                       (entry_reply_markup n (UserStatus.nodes_history us0))
                else ret tt) s1 = Ok tt s').
  { destruct (truthy (Node.hello n)); [|exact E].
    erewrite bind_Ok by (apply user_status_eq; subst s1; lk).
    exact E. }
  step_with E'.
  destruct (Node.inside_handlers n); [congruence|].
  repeat split; assumption.
Qed.

(** The entry lifecycle needs fuel only to run at all when the node waits
    for input. *)
Lemma Node_handle_entry_waits_fuel fuel self u n us s :
  nodes s !! self = Some n ->
  Node.user_status_list n = true ->
  registry s !! effective_user_id u = Some us ->
  payload_ok (Node.hello n) = true ->
  Node.inside_handlers n <> [] ->
  (0 < fuel)%nat ->
  exists s' us',
    Node_handle_entry fuel self u s = Ok tt s' /\
    registry s' !! effective_user_id u = Some us' /\
    us' = UserStatus.enter_current_node us /\
    nodes s' = nodes s.
Proof.
  intros Hn Hb Hus Hh Hin Hf. destruct fuel as [|fuel]; [lia|].
  destruct (Node_handle_entry_waits fuel self u n us s Hn Hb Hus Hh Hin)
    as (s' & E & HR & HN & _).
  exists s', (UserStatus.enter_current_node us).
  rewrite HR, lookup_insert_eq. auto.
Qed.

(** The inside lifecycle returns when the next node does not enter
    automatically or waits for input. *)
Lemma handle_inside_to_waiting_node fuel self u n us nx d s :
  nodes s !! self = Some n ->
  Node.user_status_list n = true ->
  registry s !! effective_user_id u = Some us ->
  payload_ok (Node.goodbye n) = true ->
  (forall cur, NodesHistory.current (UserStatus.nodes_history us) = Some cur ->
               is_Some (nodes s !! cur)) ->
  chosen_next us n = Some nx ->
  nodes s !! nx = Some d ->
  Node.auto_entry d = false \/
  (Node.inside_handlers d <> [] /\ payload_ok (Node.hello d) = true /\
   (0 < fuel)%nat) ->
  exists s' us',
    Node_handle_inside fuel self u s = Ok tt s' /\
    registry s' !! effective_user_id u = Some us' /\
    UserStatus.display_node us' = Some nx /\
    UserStatus.next_node us' = None /\
    UserStatus.is_inside_current_node us' = Node.auto_entry d /\
    UserStatus.nodes_history us'
    = (if Node.switch_on_this d
       then UserStatus.nodes_history us ++ [nx]
       else UserStatus.nodes_history us).
Proof.
  intros Hn Hb Hus Hg Hcur Hnx Hd Hstop.
  destruct (Node_handle_inside_body_next (Node_handle_entry fuel)
              self u n us nx d s Hn Hb Hus Hg Hnx Hd Hcur)
    as (s1 & s_mid & b & _ & _ & HR & HN & _ & E).
  unfold Node_handle_inside. rewrite E.
  assert (Hmid : registry s_mid !! effective_user_id u
                 = Some (after_transition nx (Node.switch_on_this d) us))
    by (rewrite HR; apply lookup_insert_eq).
  destruct (Node.auto_entry d) eqn:Ea.
  - destruct Hstop as [Hf|(Hin & Hh & Hf)]; [discriminate|].
    destruct fuel as [|fuel]; [lia|].
    destruct (Node_handle_entry_waits fuel nx u
                (Node.set_back_str b (Node.set_user_status_list true d))
                (after_transition nx (Node.switch_on_this d) us) s_mid)
      as (s' & E' & HR' & _); try assumption; try reflexivity.
    { rewrite HN. apply lookup_insert_eq. }
    eexists s', _. split; [exact E'|].
    split; [rewrite HR'; apply lookup_insert_eq|].
    repeat split; reflexivity.
  - eexists s_mid, _. split; [reflexivity|]. split; [exact Hmid|].
    repeat split; reflexivity.
Qed.

(** ** The next node of the inside lifecycle *)

(** C3 as stated fails: with a static successor (node 1) and a pending next
    node (node 2), the transition goes to the pending node, and the entry
    callback of that node (handler 20) runs all the same. *)
Lemma handle_inside_override_runs_entry_callback :
  UserStatus.next_node OverrideExample.session = Some 2%nat /\
  Node.next_node OverrideExample.node_n = Some 1%nat /\
  exists s' us',
    Node_handle_inside 1 0%nat OverrideExample.u OverrideExample.s0
    = Ok tt s' /\
    registry s' !! 7 = Some us' /\
    UserStatus.display_node us' = Some 2%nat /\
    UserStatus.nodes_history us' = [0; 2]%nat /\
    log s' = [handler_called 20; reply_text "P" None MARKDOWN false].
Proof.
  split; [reflexivity|]. split; [reflexivity|].
  eexists _, _. split; [vm_compute; reflexivity|].
  split; [vm_compute; reflexivity|].
  repeat split; reflexivity.
Qed.

(** C3 (amended): the inside lifecycle moves to the pending next node when
    set and to the static successor otherwise; whenever the call returns the
    pending next node is none; without a next node, or with a next node
    that does not enter automatically or that waits for input, the call
    returns; with a next node the session displays it, the history receives
    it when it has [switch_on_this], and, when it has [auto_entry], the
    callback of its first entry handler runs exactly when the current node
    has a static successor (also when the pending node was the one chosen)
    and the next node has entry handlers, and then its entry lifecycle
    runs. *)
Theorem handle_inside_next_node_rule
    (fuel : nat) (self : node_ref) (u : Update) (n : Node.t)
    (us : UserStatus.t) (s : state) :
  nodes s !! self = Some n ->
  Node.user_status_list n = true ->
  registry s !! effective_user_id u = Some us ->
  payload_ok (Node.goodbye n) = true ->
  (forall cur, NodesHistory.current (UserStatus.nodes_history us) = Some cur ->
               is_Some (nodes s !! cur)) ->
  (forall s', Node_handle_inside fuel self u s = Ok tt s' ->
              cleared (effective_user_id u) s') /\
  (chosen_next us n = None ->
   exists s',
     Node_handle_inside fuel self u s = Ok tt s' /\
     registry s' = <[effective_user_id u := after_leaf n us]> (registry s) /\
     nodes s' = nodes s) /\
  (forall nx d,
     chosen_next us n = Some nx ->
     nodes s !! nx = Some d ->
     exists s1 s_mid b,
       (if truthy (Node.goodbye n)
        then Node_reply (Node.parse_mode n) (effective_user_id u)
               (Node.goodbye n) None
        else ret tt) s = Ok tt s1 /\
       extends_log s s1 /\
       registry s_mid
       = <[effective_user_id u :=
             after_transition nx (Node.switch_on_this d) us]> (registry s) /\
       nodes s_mid
       = <[nx := Node.set_back_str b (Node.set_user_status_list true d)]>
           (nodes s) /\
       log s_mid = log s1 ++ entry_callback_log n d /\
       Node_handle_inside fuel self u s
       = if Node.auto_entry d
         then Node_handle_entry fuel nx u s_mid
         else Ok tt s_mid) /\
  (forall nx d,
     chosen_next us n = Some nx ->
     nodes s !! nx = Some d ->
     Node.auto_entry d = false \/
     (Node.inside_handlers d <> [] /\ payload_ok (Node.hello d) = true /\
      (0 < fuel)%nat) ->
     exists s' us',
       Node_handle_inside fuel self u s = Ok tt s' /\
       registry s' !! effective_user_id u = Some us' /\
       UserStatus.display_node us' = Some nx /\
       UserStatus.next_node us' = None).
Proof.
  intros Hn Hb Hus Hg Hcur. split; [|split; [|split]]; cycle 3.
  - intros nx d Hnx Hd Hstop.
    destruct (handle_inside_to_waiting_node fuel self u n us nx d s
                Hn Hb Hus Hg Hcur Hnx Hd Hstop)
      as (s' & us' & E & R & D & C & _).
    exists s', us'. auto.
  - intros s'. apply Node_handle_inside_cleared.
  - intros Hnone.
    destruct (Node_handle_inside_body_leaf (Node_handle_entry fuel)
                self u n us s Hn Hb Hus Hg Hnone)
      as (s1 & s' & _ & E & HR & HN & _).
    exists s'. auto.
  - intros nx d Hnx Hd.
    apply (Node_handle_inside_body_next (Node_handle_entry fuel)
             self u n us nx d s Hn Hb Hus Hg Hnx Hd Hcur).
Qed.

Lemma handle_inside_next_node_rule_witness :
  exists s1 s_mid b,
    extends_log OverrideExample.s0 s1 /\
    registry s_mid
    = <[7 := after_transition 2%nat true OverrideExample.session]>
        (registry OverrideExample.s0) /\
    nodes s_mid
    = <[2%nat := Node.set_back_str b
                   (Node.set_user_status_list true OverrideExample.node_p)]>
        (nodes OverrideExample.s0) /\
    log s_mid = log s1 ++ [handler_called 20] /\
    Node_handle_inside 1 0%nat OverrideExample.u OverrideExample.s0
    = Node_handle_entry 1 2%nat OverrideExample.u s_mid.
Proof.
  destruct (handle_inside_next_node_rule 1 0%nat OverrideExample.u
              OverrideExample.node_n OverrideExample.session
              OverrideExample.s0) as (_ & _ & H & _); try reflexivity.
  { intros cur Hc. injection Hc as <-. eexists. reflexivity. }
  destruct (H 2%nat OverrideExample.node_p) as (s1 & s_mid & b & H');
    try reflexivity.
  destruct H' as (_ & X & R & N & L & E).
  exists s1, s_mid, b. exact (conj X (conj R (conj N (conj L E)))).
Defined.

(** ** The precedence protocol of the router *)

Lemma Node_check_update_elects cur u c us s :
  nodes s !! cur = Some c ->
  Node.user_status_list c = true ->
  registry s !! effective_user_id u = Some us ->
  Node_check_update cur u s
  = match node_elects c us u with
    | Some h =>
        Ok true (set_registry
                   (<[effective_user_id u :=
                        UserStatus.set_current_node_handler (Some h) us]>
                      (registry s)) s)
    | None => Ok false s
    end.
Proof.
  intros Hc Hb Hus. unfold Node_check_update, node_elects.
  step_get_node Hc. rewrite Hb. step_getitem Hus. step_user_status Hus.
  destruct (UserStatus.is_inside_current_node us); cbn [negb].
  - destruct (first_match u (Node.inside_handlers c)) as [h|] eqn:E1.
    + rewrite (bind_Ok _ _ _ _ _
                 (check_candidates_match cur u _ c us h s Hc Hb Hus E1)).
      reflexivity.
    + rewrite (bind_Ok _ _ _ _ _ (check_candidates_no_match cur u _ s E1)).
      cbv iota.
      destruct (first_match u (Node.inside_fallbacks c)) as [h|] eqn:E2.
      * apply (check_candidates_match cur u _ c us h s); assumption.
      * apply check_candidates_no_match; assumption.
  - destruct (first_match u (Node.entry_handlers c)) as [h|] eqn:E1.
    + apply (check_candidates_match cur u _ c us h s); assumption.
    + apply check_candidates_no_match; assumption.
Qed.

(** For a session that has not entered, only the entry level is tested. *)
Lemma check_update_not_entered nh u us s :
  registry s !! effective_user_id u = Some us ->
  UserStatus.nodes_handler_entered us = false ->
  NodesHandler_check_update nh u s
  = match first_match u (NodesHandler.entry_handlers nh) with
    | Some h =>
        Ok true (set_registry
                   (<[effective_user_id u :=
                        UserStatus.set_current_handler (Some (HHandler h)) us]>
                      (registry s)) s)
    | None => Ok false s
    end.
Proof.
  intros Hus Hent. unfold NodesHandler_check_update.
  step_getitem Hus. step_user_status Hus. rewrite Hent. cbn [negb orb].
  destruct (first_match u (NodesHandler.entry_handlers nh)) as [h|].
  - unfold set_current_handler. step_update Hus. reflexivity.
  - reflexivity.
Qed.

(** For an entered session, [check_update] accepts at the first level of the
    protocol that has an accepting matcher and records it; only at the exit
    level what it records is the list of exit handlers (see [recorded]). *)
Lemma check_update_entered nh u us cur c s :
  registry s !! effective_user_id u = Some us ->
  UserStatus.nodes_handler_entered us = true ->
  NodesHistory.current (UserStatus.nodes_history us) = Some cur ->
  nodes s !! cur = Some c ->
  Node.user_status_list c = true ->
  NodesHandler_check_update nh u s
  = match spec_level nh c us u with
    | NoLevel => Ok false s
    | lv =>
        Ok true (set_registry
                   (<[effective_user_id u := recorded nh cur lv us]>
                      (registry s)) s)
    end.
Proof.
  intros Hus Hent Hcur Hc Hb.
  set (uid := effective_user_id u) in *.
  unfold NodesHandler_check_update, spec_level. fold uid.
  step_getitem Hus. step_user_status Hus. rewrite Hent. cbn [negb orb].
  destruct (if NodesHandler.allow_reentry nh
            then first_match u (NodesHandler.entry_handlers nh)
            else None) as [h|].
  { unfold set_current_handler. step_update Hus. reflexivity. }
  rewrite Hcur. cbn [deref]. rewrite (bind_Ok _ _ _ cur s) by reflexivity.
  step_get_node Hc.
  destruct (if Node.allow_back c
               && NodesHistory.can_back (UserStatus.nodes_history us)
            then first_match u (NodesHandler.back_handlers nh)
            else None) as [h|].
  { unfold set_current_handler. step_update Hus. reflexivity. }
  destruct (first_match u (NodesHandler.exit_handlers nh)) as [h|].
  { unfold set_current_handler. step_update Hus. reflexivity. }
  pose proof (Node_check_update_elects cur u c us s Hc Hb Hus) as En.
  fold uid in En.
  destruct (node_elects c us u) as [h|].
  - step_with En. cbv iota. unfold set_current_handler.
    erewrite bind_Ok
      by (apply update_user_status_eq; cbn [registry set_registry];
          apply lookup_insert_eq).
    cbv beta. unfold ret, set_registry. cbn [registry nodes log recorded].
    rewrite insert_insert_eq. reflexivity.
  - step_with En. cbv iota.
    destruct (first_match u (NodesHandler.fallback_handlers nh)) as [h|].
    + unfold set_current_handler. step_update Hus. reflexivity.
    + reflexivity.
Qed.

(** ** The exit level of the router *)

(** Whatever list [current_handler] holds, [handle_update] fails on it after
    the typing indicator, and the session is left as it was. *)
Lemma handle_update_of_list_raises fuel self u us l s :
  registry s !! effective_user_id u = Some us ->
  UserStatus.current_handler us = Some (HList l) ->
  NodesHandler_handle_update fuel self u s
  = Raise AttributeError (add_log (send_chat_action (effective_user_id u)) s).
Proof.
  intros Hus Hc. unfold NodesHandler_handle_update.
  step. step. step. rewrite Hc. cbn [deref]. step.
  reflexivity.
Qed.

(** Had the exit level recorded the accepting handler, the exit branch of
    [handle_update] would do what it is written for: run the callback and
    mark the session as not entered, with no node lifecycle. *)
Lemma handle_update_exit_branch fuel nh u us h s :
  registry s !! effective_user_id u = Some us ->
  UserStatus.current_handler us = Some (HHandler h) ->
  handler_in h (NodesHandler.entry_handlers nh) = false ->
  handler_in h (NodesHandler.back_handlers nh) = false ->
  handler_in h (NodesHandler.exit_handlers nh) = true ->
  NodesHandler_handle_update fuel nh u s
  = Ok (Handler.callback h u)
       {| registry :=
            <[effective_user_id u := UserStatus.exit_nodes_handler us]>
              (registry s);
          nodes := nodes s;
          log := log s ++ [send_chat_action (effective_user_id u);
                           handler_called (Handler.hid h)] |}.
Proof.
  intros Hus Hc Hne Hnb Hex. unfold NodesHandler_handle_update.
  step. step. step. rewrite Hc. cbn [deref]. step. step.
  cbn [current_handler_in]. rewrite Hne, Hnb, Hex. cbn [orb].
  step. unfold ret. rewrite <- app_assoc. reflexivity.
Qed.

(** C1 (the code against the claim): for a user who has entered, an update
    that the exit handler accepts makes [check_update] return true, but what
    it records as the session's current handler is the whole list of exit
    handlers, not the handler that accepted. *)
Theorem check_update_exit_records_handler_list :
  exists nh s0 s1 s2 us2,
    ExitExample.make_router ExitExample.nodes0 = Ok nh s0 /\
    dispatch 2 nh ExitExample.u_start s0 = Ok true s1 /\
    NodesHandler_check_update nh ExitExample.u_quit s1 = Ok true s2 /\
    registry s2 !! 7 = Some us2 /\
    UserStatus.nodes_handler_entered us2 = true /\
    UserStatus.current_handler us2 = Some (HList [ExitExample.h_quit]) /\
    UserStatus.current_handler us2 <> Some (HHandler ExitExample.h_quit).
Proof.
  eexists _, _, _, _, _.
  split; [vm_compute; reflexivity|].
  split; [vm_compute; reflexivity|].
  split; [vm_compute; reflexivity|].
  split; [vm_compute; reflexivity|].
  split; [reflexivity|]. split; [reflexivity|]. discriminate.
Qed.

(** C2 (the code against the claim): after [check_update] elected the exit
    level, [handle_update] raises [AttributeError] on the recorded list; the
    session stays entered. *)
Theorem handle_update_after_exit_match_raises :
  exists nh s0 s1 s2 s3 us3,
    ExitExample.make_router ExitExample.nodes0 = Ok nh s0 /\
    dispatch 2 nh ExitExample.u_start s0 = Ok true s1 /\
    NodesHandler_check_update nh ExitExample.u_quit s1 = Ok true s2 /\
    NodesHandler_handle_update 2 nh ExitExample.u_quit s2
    = Raise AttributeError s3 /\
    registry s3 !! 7 = Some us3 /\
    UserStatus.nodes_handler_entered us3 = true.
Proof.
  eexists _, _, _, _, _, _.
  split; [vm_compute; reflexivity|].
  split; [vm_compute; reflexivity|].
  split; [vm_compute; reflexivity|].
  split; [vm_compute; reflexivity|].
  split; [vm_compute; reflexivity|]. reflexivity.
Qed.

(** ** Back navigation *)

(** C4 as stated fails: the session enters at node 0, moves forward through
    nodes 1 and 2 (history [0; 1; 2], all three taking part in the history),
    and two accepted back events leave it displaying node 1 at depth 2: the
    root has no inside handlers, so its entry lifecycle, run by the second
    back, advances to its successor again. *)
Lemma back_twice_may_readvance :
  exists nh s0 s1 s2 s3 s4,
    BackExample.make_router BackExample.nodes0 = Ok nh s0 /\
    dispatch 5 nh (BackExample.upd "/start") s0 = Ok true s1 /\
    dispatch 5 nh (BackExample.upd "go") s1 = Ok true s2 /\
    BackExample.position s2 = Some ([0; 1; 2]%nat, Some 2%nat) /\
    dispatch 5 nh (BackExample.upd "back") s2 = Ok true s3 /\
    dispatch 5 nh (BackExample.upd "back") s3 = Ok true s4 /\
    BackExample.position s4 = Some ([0; 1]%nat, Some 1%nat).
Proof.
  eexists _, _, _, _, _, _.
  split; [vm_compute; reflexivity|].
  split; [vm_compute; reflexivity|].
  split; [vm_compute; reflexivity|].
  split; [vm_compute; reflexivity|].
  split; [vm_compute; reflexivity|].
  split; [vm_compute; reflexivity|].
  vm_compute; reflexivity.
Qed.

Lemma current_snoc (l : list node_ref) x :
  NodesHistory.current (l ++ [x]) = Some x.
Proof. apply last_snoc. Qed.

Ltac norm_us :=
  cbn [UserStatus.nodes_handler_entered UserStatus.current_handler
       UserStatus.current_node_handler UserStatus.nodes_history
       UserStatus.display_node UserStatus.is_inside_current_node
       UserStatus.next_node
       UserStatus.set_nodes_handler_entered UserStatus.set_current_handler
       UserStatus.set_current_node_handler UserStatus.set_nodes_history
       UserStatus.set_display_node UserStatus.set_is_inside_current_node
       UserStatus.set_next_node UserStatus.enter_current_node
       UserStatus.exit_current_node UserStatus.enter_nodes_handler
       UserStatus.exit_nodes_handler].

Lemma find_handler_in (f : Handler.t -> bool) l h :
  find f l = Some h -> handler_in h l = true.
Proof.
  intros H. apply find_some in H as [Hin _].
  unfold handler_in. apply existsb_exists. exists h.
  split; [exact Hin|apply Nat.eqb_refl].
Qed.

(** One accepted back event, from a history [l ++ [x; y]] whose previous
    node [x] waits for input. *)
Lemma back_step fuel nh u h_back l x y X Y us s :
  (0 < fuel)%nat ->
  registry s !! effective_user_id u = Some us ->
  UserStatus.nodes_handler_entered us = true ->
  UserStatus.nodes_history us = l ++ [x; y] ->
  nodes s !! x = Some X ->
  nodes s !! y = Some Y ->
  Node.user_status_list X = true ->
  Node.allow_back Y = true ->
  Node.inside_handlers X <> [] ->
  payload_ok (Node.hello X) = true ->
  (NodesHandler.allow_reentry nh = true ->
   first_match u (NodesHandler.entry_handlers nh) = None) ->
  first_match u (NodesHandler.back_handlers nh) = Some h_back ->
  handler_in h_back (NodesHandler.entry_handlers nh) = false ->
  exists s',
    dispatch fuel nh u s = Ok true s' /\
    registry s'
    = <[effective_user_id u := after_back h_back (l ++ [x]) x us]> (registry s) /\
    nodes s' = nodes s.
Proof.
  intros Hf Hus Hent Hh HX HY HbX HaY HinX HhX Hre Hback Hnot.
  set (uid := effective_user_id u) in *.
  destruct fuel as [|fuel]; [lia|].
  assert (Hcan : NodesHistory.can_back (l ++ [x; y]) = true).
  { apply can_back_iff. rewrite length_app. simpl. lia. }
  assert (Hcur : NodesHistory.current (l ++ [x; y]) = Some y).
  { unfold NodesHistory.current.
    replace (l ++ [x; y]) with ((l ++ [x]) ++ [y])
      by (rewrite <- app_assoc; reflexivity).
    apply last_snoc. }
  destruct s as [R N L]. cbn [registry nodes log] in *.
  (* check_update *)
  assert (Echeck :
    NodesHandler_check_update nh u {| registry := R; nodes := N; log := L |}
    = Ok true {| registry :=
                   <[uid := UserStatus.set_current_handler
                              (Some (HHandler h_back)) us]> R;
                 nodes := N; log := L |}).
  { unfold NodesHandler_check_update. fold uid. step. step.
    rewrite Hent. cbn [negb orb].
    assert (E0 : (if NodesHandler.allow_reentry nh
                  then first_match u (NodesHandler.entry_handlers nh)
                  else None) = None).
    { destruct (NodesHandler.allow_reentry nh); [apply Hre|]; reflexivity. }
    rewrite E0, Hh, Hcur. cbn [deref]. step. step.
    rewrite HaY, Hcan, Hback. cbn [andb].
    unfold set_current_handler. step. reflexivity. }
  unfold dispatch. step_with Echeck. cbv iota.
  (* handle_update *)
  unfold NodesHandler_handle_update. fold uid.
  step. step. step. cbn [UserStatus.current_handler UserStatus.set_current_handler deref].
  step. step.
  cbn [current_handler_in]. rewrite Hnot, (find_handler_in _ _ _ Hback).
  cbn [orb]. unfold NodesHistory_back.
  step. norm_us. rewrite Hh, back_snoc2. cbn [fst snd].
  repeat step. norm_us. rewrite !current_snoc. cbn [deref].
  repeat step. rewrite ?bind_assoc.
  match goal with
  | |- context [bind ?m _ ?st] =>
      assert (Ecb : exists l', m st = Ok tt {| registry := registry st;
                                               nodes := nodes st;
                                               log := log st ++ l' |})
  end.
  { destruct (last (Node.entry_handlers X)) as [h|].
    - eexists [_]. reflexivity.
    - exists []. cbn [registry nodes log]. rewrite app_nil_r. reflexivity. }
  destruct Ecb as (l' & Ecb). cbn [registry nodes log] in Ecb.
  step_with Ecb. step.
  match goal with
  | |- context [bind _ _ ?st] =>
      pose proof (fun us0 H =>
                    Node_handle_entry_waits fuel x u X us0 st HX HbX H HhX HinX)
        as W;
      specialize (W _ (lookup_insert_eq _ _ _));
      destruct W as (s' & E & HR & HN & _)
  end.
  step_with E. step.
  exists s'. split; [reflexivity|].
  rewrite HR, HN. cbn [registry nodes log]. fold uid.
  rewrite !insert_insert_eq. split; reflexivity.
Qed.

(** When no level accepts the update, [check_update] answers false and
    leaves the state as it was. *)
Lemma check_update_no_match nh u us cur c s :
  registry s !! effective_user_id u = Some us ->
  UserStatus.nodes_handler_entered us = true ->
  NodesHistory.current (UserStatus.nodes_history us) = Some cur ->
  nodes s !! cur = Some c ->
  Node.user_status_list c = true ->
  (NodesHandler.allow_reentry nh = true ->
   first_match u (NodesHandler.entry_handlers nh) = None) ->
  (Node.allow_back c && NodesHistory.can_back (UserStatus.nodes_history us)
   = true ->
   first_match u (NodesHandler.back_handlers nh) = None) ->
  first_match u (NodesHandler.exit_handlers nh) = None ->
  (if UserStatus.is_inside_current_node us
   then first_match u (Node.inside_handlers c) = None /\
        first_match u (Node.inside_fallbacks c) = None
   else first_match u (Node.entry_handlers c) = None) ->
  first_match u (NodesHandler.fallback_handlers nh) = None ->
  NodesHandler_check_update nh u s = Ok false s.
Proof.
  intros Hus Hent Hcur Hc Hb Hre Hback Hexit Hnode Hfb.
  set (uid := effective_user_id u) in *.
  destruct s as [R N L]. cbn [registry nodes log] in *.
  unfold NodesHandler_check_update. fold uid. step. step.
  rewrite Hent. cbn [negb orb].
  assert (E0 : (if NodesHandler.allow_reentry nh
                then first_match u (NodesHandler.entry_handlers nh)
                else None) = None).
  { destruct (NodesHandler.allow_reentry nh); [apply Hre|]; reflexivity. }
  rewrite E0, Hcur. cbn [deref]. step. step.
  assert (E1 : (if Node.allow_back c
                   && NodesHistory.can_back (UserStatus.nodes_history us)
                then first_match u (NodesHandler.back_handlers nh)
                else None) = None).
  { destruct (Node.allow_back c
              && NodesHistory.can_back (UserStatus.nodes_history us));
      [apply Hback|]; reflexivity. }
  rewrite E1, Hexit.
  assert (E2 : Node_check_update cur u {| registry := R; nodes := N; log := L |}
               = Ok false {| registry := R; nodes := N; log := L |}).
  { unfold Node_check_update. fold uid. step. rewrite Hb. step. step.
    destruct (UserStatus.is_inside_current_node us); cbn [negb].
    - destruct Hnode as [H1 H2].
      rewrite (bind_Ok _ _ _ _ _ (check_candidates_no_match cur u _ _ H1)).
      apply check_candidates_no_match. exact H2.
    - apply check_candidates_no_match. exact Hnode. }
  step_with E2. rewrite Hfb. reflexivity.
Qed.

(** C4 (amended): from a session entered with history [a; b; c], where [a]
    and [b] have inside handlers (their entry lifecycle waits for input) and
    [b] and [c] allow back, two updates that a back handler accepts (and no
    entry handler pre-empts) are both handled and leave the session
    displaying [a] with history [a]; then [can_back] is false, so the back
    level is not tested, and a third such update that no exit handler, no
    inside handler or inside fallback of [a] and no top-level fallback
    accepts is not matched and leaves the state unchanged. *)
Theorem back_twice_returns_to_root
    (fuel : nat) (nh : NodesHandler.t) (u : Update) (h_back : Handler.t)
    (a b c : node_ref) (A B C : Node.t) (us : UserStatus.t) (s : state) :
  (0 < fuel)%nat ->
  registry s !! effective_user_id u = Some us ->
  UserStatus.nodes_handler_entered us = true ->
  UserStatus.nodes_history us = [a; b; c] ->
  nodes s !! a = Some A -> nodes s !! b = Some B -> nodes s !! c = Some C ->
  Node.user_status_list A = true -> Node.user_status_list B = true ->
  Node.allow_back B = true -> Node.allow_back C = true ->
  Node.inside_handlers A <> [] -> Node.inside_handlers B <> [] ->
  payload_ok (Node.hello A) = true -> payload_ok (Node.hello B) = true ->
  (NodesHandler.allow_reentry nh = true ->
   first_match u (NodesHandler.entry_handlers nh) = None) ->
  first_match u (NodesHandler.back_handlers nh) = Some h_back ->
  handler_in h_back (NodesHandler.entry_handlers nh) = false ->
  exists s1 s2 us2,
    dispatch fuel nh u s = Ok true s1 /\
    dispatch fuel nh u s1 = Ok true s2 /\
    registry s2 !! effective_user_id u = Some us2 /\
    UserStatus.display_node us2 = Some a /\
    UserStatus.nodes_history us2 = [a] /\
    NodesHistory.len (UserStatus.nodes_history us2) = 1%nat /\
    NodesHistory.can_back (UserStatus.nodes_history us2) = false /\
    (first_match u (NodesHandler.exit_handlers nh) = None ->
     first_match u (Node.inside_handlers A) = None ->
     first_match u (Node.inside_fallbacks A) = None ->
     first_match u (NodesHandler.fallback_handlers nh) = None ->
     dispatch fuel nh u s2 = Ok false s2).
Proof.
  intros Hf Hus Hent Hh HA HB HC HbA HbB HaB HaC HiA HiB HhA HhB Hre Hback Hnot.
  set (uid := effective_user_id u) in *.
  destruct (back_step fuel nh u h_back [a] b c B C us s)
    as (s1 & E1 & R1 & N1); try assumption.
  set (us1 := after_back h_back ([a] ++ [b]) b us) in *.
  assert (Hus1 : registry s1 !! uid = Some us1)
    by (rewrite R1; apply lookup_insert_eq).
  destruct (back_step fuel nh u h_back [] a b A B us1 s1)
    as (s2 & E2 & R2 & N2); try assumption; try reflexivity;
    try (rewrite N1; assumption).
  set (us2 := after_back h_back ([] ++ [a]) a us1) in *.
  assert (Hus2 : registry s2 !! uid = Some us2)
    by (rewrite R2; apply lookup_insert_eq).
  exists s1, s2, us2. repeat split; try assumption; try reflexivity.
  intros Hexit Hin Hfbk Hfb.
  unfold dispatch.
  rewrite (bind_Ok _ _ _ _ _
             (check_update_no_match nh u us2 a A s2 Hus2 Hent eq_refl
                ltac:(rewrite N2, N1; exact HA) HbA Hre
                ltac:(cbn; rewrite andb_false_r; discriminate)
                Hexit (conj Hin Hfbk) Hfb)).
  reflexivity.
Qed.

(** ** Menus *)

(** C6 as stated fails: the menu (node 0) has children 1, 2, 3 and the
    update "y" is accepted by the entry handler of child 2 only; one handled
    update makes child 2 the displayed node, but child 2 has [auto_entry]
    false, so its entry lifecycle does not run: the session is not inside
    the node and no greeting is sent. *)
Lemma menu_child_without_auto_entry_is_not_entered :
  exists st nh s0 s1 s2 us2,
    MenuExample.nodes0 = Some st /\
    MenuExample.make_router st = Ok nh s0 /\
    dispatch 5 nh (MenuExample.upd "/start") s0 = Ok true s1 /\
    dispatch 5 nh (MenuExample.upd "y") s1 = Ok true s2 /\
    registry s2 !! 7 = Some us2 /\
    UserStatus.display_node us2 = Some 2%nat /\
    UserStatus.nodes_history us2 = [0; 2]%nat /\
    UserStatus.is_inside_current_node us2 = false /\
    log s2 = log s1 ++ [send_chat_action 7; handler_called 12] /\
    ~ In (reply_text "hello from Y" None MARKDOWN false) (log s2).
Proof.
  eexists _, _, _, _, _, _.
  split; [vm_compute; reflexivity|].
  split; [vm_compute; reflexivity|].
  split; [vm_compute; reflexivity|].
  split; [vm_compute; reflexivity|].
  split; [vm_compute; reflexivity|].
  split; [reflexivity|]. split; [reflexivity|]. split; [reflexivity|].
  split; [reflexivity|].
  cbn. intros H. repeat (destruct H as [H|H]; [discriminate H|]). exact H.
Qed.

Lemma mapM_concat {A B} (f : A -> option B) (rows : list (list A)) rs :
  mapM (mapM f) rows = Some rs ->
  Forall2 (fun x y => f x = Some y) (concat rows) (concat rs).
Proof.
  intros H. apply mapM_Some_1 in H.
  induction H as [|row r rows' rs' Hrow _ IH]; [constructor|].
  simpl. apply Forall2_app; [|exact IH].
  apply mapM_Some_1. exact Hrow.
Qed.

(** The in-node matchers of a freshly built menu. *)
Lemma SwitchNode_init_inside_handlers
    store entry_handlers hello switch_nodes keyboard_from_names
    remove_keyboard goodbye switch_on_this allow_back m :
  SwitchNode_init store entry_handlers hello switch_nodes keyboard_from_names
    remove_keyboard goodbye switch_on_this allow_back = Some m ->
  Node.switch_nodes m = concat switch_nodes /\
  Node.inside_fallbacks m = [] /\
  exists children,
    Forall2 (fun r c => store !! r = Some c) (concat switch_nodes) children /\
    Node.inside_handlers m = concat (map Node.entry_handlers children).
Proof.
  unfold SwitchNode_init. intros H.
  destruct (mapM (mapM (fun r => store !! r)) switch_nodes) as [rows|] eqn:E;
    [|discriminate].
  cbn in H. injection H as <-. cbn.
  split; [reflexivity|]. split; [reflexivity|].
  exists (concat rows). split; [|reflexivity].
  apply mapM_concat. exact E.
Qed.

(** The scan of [SwitchNode.handle_inside] finds the first child, in
    declared order, that has the elected handler among its entry handlers. *)
Lemma SwitchNode_select_eq handler switch_nodes s :
  Forall (fun r => is_Some (nodes s !! r)) switch_nodes ->
  SwitchNode_select handler switch_nodes s
  = Ok (find (child_has (nodes s) handler) switch_nodes) s.
Proof.
  intros H. induction H as [|r rest [c Hc] _ IH]; [reflexivity|].
  cbn [SwitchNode_select find]. step. unfold child_has at 1. rewrite Hc.
  destruct handler as [h|].
  - destruct (handler_in h (Node.entry_handlers c)); [reflexivity|exact IH].
  - exact IH.
Qed.

Section SwitchInside.
Variable handle_entry : node_ref -> Update -> M unit.

Lemma SwitchNode_handle_inside_body_eq self u m us s :
  nodes s !! self = Some m ->
  Node.user_status_list m = true ->
  registry s !! effective_user_id u = Some us ->
  Forall (fun r => is_Some (nodes s !! r)) (Node.switch_nodes m) ->
  SwitchNode_handle_inside_body handle_entry self u s
  = Node_handle_inside_body handle_entry self u
      (match find (child_has (nodes s) (UserStatus.current_node_handler us))
               (Node.switch_nodes m) with
       | Some switch_node =>
           set_registry
             (<[effective_user_id u :=
                  UserStatus.set_next_node (Some switch_node) us]>
                (registry s)) s
       | None => s
       end).
Proof.
  intros Hm Hb Hus Hall.
  unfold SwitchNode_handle_inside_body.
  step_get_node Hm. rewrite Hb. step_getitem Hus. step_user_status Hus.
  step_with (SwitchNode_select_eq (UserStatus.current_node_handler us)
               (Node.switch_nodes m) s Hall).
  destruct (find _ _) as [y|].
  - step_update Hus. reflexivity.
  - rewrite (bind_Ok _ _ _ tt s) by reflexivity. reflexivity.
Qed.
End SwitchInside.

(** One update handled by a menu whose elected handler belongs to child
    [y]. *)
Lemma SwitchNode_handle_update_routes fuel self u m us h y Y s :
  nodes s !! self = Some m ->
  is_SwitchNode (Node.cls m) = true ->
  Node.user_status_list m = true ->
  registry s !! effective_user_id u = Some us ->
  UserStatus.current_node_handler us = Some h ->
  Forall (fun r => is_Some (nodes s !! r)) (Node.switch_nodes m) ->
  find (child_has (nodes s) (Some h)) (Node.switch_nodes m) = Some y ->
  nodes s !! y = Some Y ->
  handler_in h (Node.entry_handlers m) = false ->
  handler_in h (Node.inside_fallbacks m) = false ->
  handler_in h (Node.inside_handlers m) = true ->
  is_INSIDE_NOT_VALID (Handler.callback h u) = false ->
  payload_ok (Node.goodbye m) = true ->
  (forall cur, NodesHistory.current (UserStatus.nodes_history us) = Some cur ->
               is_Some (nodes s !! cur)) ->
  exists s_mid b goodbye_log,
    registry s_mid
    = <[effective_user_id u := after_transition y (Node.switch_on_this Y) us]>
        (registry s) /\
    nodes s_mid
    = <[y := Node.set_back_str b (Node.set_user_status_list true Y)]>
        (nodes s) /\
    log s_mid
    = log s ++ [handler_called (Handler.hid h)] ++ goodbye_log
        ++ entry_callback_log m Y /\
    Node_handle_update fuel self u s
    = then_return
        (if Node.auto_entry Y
         then Node_handle_entry fuel y u s_mid
         else Ok tt s_mid)
        (Handler.callback h u).
Proof.
  intros Hm Hcls Hb Hus Hh Hall Hfind HY Hne Hnf Hin Hvalid Hg Hcur.
  set (uid := effective_user_id u) in *.
  destruct s as [R N L]. cbn [registry nodes log] in *.
  assert (Hpre : exists us0 R0,
    (match Handler.callback h u with
     | RNode r => update_user_status uid (UserStatus.set_next_node (Some r))
     | _ => ret tt
     end) {| registry := R; nodes := N;
             log := L ++ [handler_called (Handler.hid h)] |}
    = Ok tt {| registry := R0; nodes := N;
               log := L ++ [handler_called (Handler.hid h)] |} /\
    R0 !! uid = Some us0 /\
    (forall x, <[uid := x]> R0 = <[uid := x]> R) /\
    UserStatus.current_node_handler us0 = Some h /\
    UserStatus.nodes_history us0 = UserStatus.nodes_history us /\
    (forall p, after_transition y p (UserStatus.set_next_node (Some y) us0)
               = after_transition y p us)).
  { destruct (Handler.callback h u) as [|r| |];
      try (exists us, R; repeat split; auto; fail).
    exists (UserStatus.set_next_node (Some r) us),
           (<[uid := UserStatus.set_next_node (Some r) us]> R).
    split; [erewrite update_user_status_eq by lk; reflexivity|].
    split; [apply lookup_insert_eq|].
    split; [intros x; apply insert_insert_eq|].
    repeat split; auto. }
  destruct Hpre as (us0 & R0 & Epre & Hus0 & HR0 & Hh0 & Hhist0 & Hafter).
  set (s0 := {| registry := R0; nodes := N;
                log := L ++ [handler_called (Handler.hid h)] |}) in *.
  (* the inside lifecycle from [s0] *)
  assert (Hsel : find (child_has (nodes s0) (UserStatus.current_node_handler us0))
                      (Node.switch_nodes m) = Some y)
    by (rewrite Hh0; exact Hfind).
  pose proof (SwitchNode_handle_inside_body_eq (Node_handle_entry fuel)
                self u m us0 s0 Hm Hb Hus0 Hall) as Esw.
  fold uid in Esw. rewrite Hsel in Esw.
  match type of Esw with _ = Node_handle_inside_body _ _ _ ?st =>
    set (s0' := st) in * end.
  destruct (Node_handle_inside_body_next (Node_handle_entry fuel) self u m
              (UserStatus.set_next_node (Some y) us0) y Y s0')
    as (s1 & s_mid & b & Egb & Xgb & HRm & HNm & HLm & Ebody);
    try assumption; try reflexivity.
  { subst s0'. cbn [registry set_registry]. apply lookup_insert_eq. }
  { cbn [UserStatus.nodes_history UserStatus.set_next_node].
    rewrite Hhist0. exact Hcur. }
  fold uid in HRm, Ebody. rewrite Hafter in HRm.
  destruct Xgb as (_ & _ & lg & HLg).
  exists s_mid, b, lg.
  split; [rewrite HRm; subst s0'; cbn [registry set_registry];
          rewrite insert_insert_eq; apply HR0|].
  split; [exact HNm|].
  split; [rewrite HLm, HLg; subst s0' s0; cbn [log set_registry];
          rewrite <- !app_assoc; reflexivity|].
  unfold Node_handle_update. fold uid.
  step. rewrite Hb. step. step. rewrite Hh. cbn [deref]. step. step.
  step_with Epre.
  rewrite Hvalid, Hnf, Hne, Hin. cbn [orb].
  unfold handle_inside, handle_inside_body.
  rewrite bind_assoc.
  erewrite (bind_Ok (get_node self)) by (apply get_node_eq; exact Hm).
  cbv beta. rewrite Hcls.
  unfold bind at 1. rewrite Esw, Ebody.
  unfold then_return, ret.
  destruct (Node.auto_entry Y); [|reflexivity].
  destruct (Node_handle_entry fuel y u s_mid); reflexivity.
Qed.

(** C6 (amended): the in-node matchers of a menu are the concatenation, in
    declared child order, of its children's entry handlers; its inside
    lifecycle first sets the pending next node to the first child, in
    declared order, whose entry handlers contain the elected handler, and
    then behaves as the base inside lifecycle; so one update handled by the
    menu, elected on a handler of child [y] that is neither an entry handler
    of the menu nor answers with the invalid sentinel, makes [y] the
    displayed node, and runs the entry lifecycle of [y] when [y] has
    [auto_entry] (and only then). *)
Theorem SwitchNode_routes_to_elected_child :
  (forall store entry_handlers hello switch_nodes keyboard_from_names
          remove_keyboard goodbye switch_on_this allow_back m,
     SwitchNode_init store entry_handlers hello switch_nodes
       keyboard_from_names remove_keyboard goodbye switch_on_this allow_back
     = Some m ->
     Node.switch_nodes m = concat switch_nodes /\
     exists children,
       Forall2 (fun r c => store !! r = Some c) (concat switch_nodes) children /\
       Node.inside_handlers m = concat (map Node.entry_handlers children)) /\
  (forall fuel self u m us s,
     nodes s !! self = Some m ->
     Node.user_status_list m = true ->
     registry s !! effective_user_id u = Some us ->
     Forall (fun r => is_Some (nodes s !! r)) (Node.switch_nodes m) ->
     SwitchNode_handle_inside fuel self u s
     = Node_handle_inside fuel self u
         (match find (child_has (nodes s) (UserStatus.current_node_handler us))
                  (Node.switch_nodes m) with
          | Some switch_node =>
              set_registry
                (<[effective_user_id u :=
                     UserStatus.set_next_node (Some switch_node) us]>
                   (registry s)) s
          | None => s
          end)) /\
  (forall fuel self u m us h y Y s,
     nodes s !! self = Some m ->
     is_SwitchNode (Node.cls m) = true ->
     Node.user_status_list m = true ->
     registry s !! effective_user_id u = Some us ->
     UserStatus.current_node_handler us = Some h ->
     Forall (fun r => is_Some (nodes s !! r)) (Node.switch_nodes m) ->
     find (child_has (nodes s) (Some h)) (Node.switch_nodes m) = Some y ->
     nodes s !! y = Some Y ->
     handler_in h (Node.entry_handlers m) = false ->
     handler_in h (Node.inside_fallbacks m) = false ->
     handler_in h (Node.inside_handlers m) = true ->
     is_INSIDE_NOT_VALID (Handler.callback h u) = false ->
     payload_ok (Node.goodbye m) = true ->
     (forall cur,
        NodesHistory.current (UserStatus.nodes_history us) = Some cur ->
        is_Some (nodes s !! cur)) ->
     exists s_mid b goodbye_log,
       registry s_mid
       = <[effective_user_id u :=
             after_transition y (Node.switch_on_this Y) us]> (registry s) /\
       nodes s_mid
       = <[y := Node.set_back_str b (Node.set_user_status_list true Y)]>
           (nodes s) /\
       log s_mid
       = log s ++ [handler_called (Handler.hid h)] ++ goodbye_log
           ++ entry_callback_log m Y /\
       Node_handle_update fuel self u s
       = then_return
           (if Node.auto_entry Y
            then Node_handle_entry fuel y u s_mid
            else Ok tt s_mid)
           (Handler.callback h u)).
Proof.
  split; [|split].
  - intros store eh hello rows kfn rk gb sw ab m H.
    destruct (SwitchNode_init_inside_handlers _ _ _ _ _ _ _ _ _ _ H)
      as (H1 & _ & H2).
    auto.
  - intros fuel self u m us s. apply SwitchNode_handle_inside_body_eq.
  - intros fuel self u m us h y Y s.
    apply SwitchNode_handle_update_routes.
Qed.

Lemma SwitchNode_routes_to_elected_child_witness :
  (exists children,
     Forall2 (fun r c => MenuExample.children !! r = Some c)
       (concat [[1; 2; 3]%nat]) children /\
     Node.inside_handlers MenuExample.menu_node
     = concat (map Node.entry_handlers children)) /\
  (exists s_mid b goodbye_log,
     registry s_mid
     = <[7 := after_transition 2%nat true MenuExample.session]>
         (registry MenuExample.s_inside) /\
     nodes s_mid
     = <[2%nat := Node.set_back_str b
                    (Node.set_user_status_list true MenuExample.child_y)]>
         (nodes MenuExample.s_inside) /\
     log s_mid = [handler_called 12] ++ goodbye_log ++ [] /\
     Node_handle_update 3 0%nat (MenuExample.upd "y") MenuExample.s_inside
     = then_return (Ok tt s_mid) RNone).
Proof.
  destruct SwitchNode_routes_to_elected_child as (H1 & _ & H3). split.
  - destruct (H1 MenuExample.children [] (PStr "menu") [[1; 2; 3]%nat] true
                false PNone true true (default MenuExample.child_y MenuExample.menu))
      as (_ & H); [reflexivity|exact H].
  - apply (H3 3%nat 0%nat (MenuExample.upd "y") MenuExample.menu_node
              MenuExample.session MenuExample.h_y 2%nat MenuExample.child_y
              MenuExample.s_inside); try reflexivity.
    + repeat constructor; eexists; reflexivity.
    + intros cur H. injection H as <-. eexists. reflexivity.
Defined.

Lemma back_twice_returns_to_root_witness :
  exists s1 s2 us2,
    dispatch 1 WaitExample.router WaitExample.u_back WaitExample.s0
    = Ok true s1 /\
    dispatch 1 WaitExample.router WaitExample.u_back s1 = Ok true s2 /\
    registry s2 !! 7 = Some us2 /\
    UserStatus.display_node us2 = Some 0%nat /\
    UserStatus.nodes_history us2 = [0%nat] /\
    dispatch 1 WaitExample.router WaitExample.u_back s2 = Ok false s2.
Proof.
  destruct (back_twice_returns_to_root 1 WaitExample.router WaitExample.u_back
              WaitExample.h_back 0%nat 1%nat 2%nat
              WaitExample.node_a WaitExample.node_b WaitExample.node_c
              WaitExample.session WaitExample.s0)
    as (s1 & s2 & us2 & E1 & E2 & R2 & D2 & H2 & _ & _ & E3);
    try reflexivity; try discriminate; try lia.
  exists s1, s2, us2.
  repeat (split; [assumption|]).
  apply E3; reflexivity.
Defined.

(** ** The reply keyboard is handed out as a copy *)

Section KeyboardHeapFacts.
Import KeyboardHeap.

Lemma kb_row_at_lt h r bs : wf h -> row_at h r = Some bs -> (r < next_loc h)%nat.
Proof.
  intros W H. destruct (decide (r < next_loc h)%nat) as [|Hge]; [done|].
  unfold row_at in H. rewrite W in H by lia. discriminate.
Qed.

Lemma kb_keyboard_at_lt h l rs :
  wf h -> keyboard_at h l = Some rs -> (l < next_loc h)%nat.
Proof.
  intros W H. destruct (decide (l < next_loc h)%nat) as [|Hge]; [done|].
  unfold keyboard_at in H. rewrite W in H by lia. discriminate.
Qed.

Lemma kb_row_at_preserved h h' r :
  preserves h h' -> (r < next_loc h)%nat -> row_at h' r = row_at h r.
Proof. intros P H. unfold row_at. rewrite (P r H). reflexivity. Qed.

Lemma kb_read_keyboard_preserved h h' l kb :
  wf h -> preserves h h' ->
  read_keyboard h l = Some kb -> read_keyboard h' l = Some kb.
Proof.
  intros W P H. unfold read_keyboard in *.
  destruct (keyboard_at h l) as [rs|] eqn:E; [|discriminate].
  cbn in H.
  assert (E' : keyboard_at h' l = Some rs).
  { unfold keyboard_at in *. rewrite (P l); [exact E|].
    eapply kb_keyboard_at_lt; [exact W|]. unfold keyboard_at. exact E. }
  rewrite E'. cbn.
  apply mapM_Some. apply mapM_Some in H.
  eapply Forall2_impl; [exact H|].
  intros r bs Hr. cbv beta in *.
  rewrite (kb_row_at_preserved h h' r P); [exact Hr|].
  eapply kb_row_at_lt; eauto.
Qed.

Lemma kb_wf_alloc o h : wf h -> wf (fst (alloc o h)).
Proof.
  intros W a Ha. cbn in *. rewrite lookup_insert_ne by lia. apply W. lia.
Qed.

Lemma kb_preserves_alloc o h : preserves h (fst (alloc o h)).
Proof. intros a Ha. cbn. rewrite lookup_insert_ne by lia. reflexivity. Qed.

Lemma kb_preserves_trans h1 h2 h3 :
  (next_loc h1 <= next_loc h2)%nat ->
  preserves h1 h2 -> preserves h2 h3 -> preserves h1 h3.
Proof. intros L P1 P2 a Ha. rewrite P2 by lia. apply P1. exact Ha. Qed.

Lemma kb_deepcopy_rows_spec (n0 : loc) rs :
  forall memo h,
    wf h -> (n0 <= next_loc h)%nat ->
    (forall r r', memo !! r = Some r' ->
       (n0 <= r' < next_loc h)%nat /\ (r < n0)%nat /\
       exists bs, row_at h r = Some bs /\ row_at h r' = Some bs) ->
    Forall (fun r => (r < n0)%nat /\ is_Some (row_at h r)) rs ->
    exists out h',
      deepcopy_rows memo rs h = Some (out, h') /\
      wf h' /\ (next_loc h <= next_loc h')%nat /\ preserves h h' /\
      Forall2 (fun r r' => (n0 <= r' < next_loc h')%nat /\
                           row_at h' r' = row_at h r) rs out.
Proof.
  induction rs as [|r rest IH]; intros memo h W Hn Hmemo Hrs.
  - exists [], h. repeat split; auto.
  - apply Forall_cons in Hrs as [[Hr [bs Hbs]] Hrest].
    cbn [deepcopy_rows].
    destruct (memo !! r) as [r'|] eqn:Em.
    + destruct (IH memo h W Hn Hmemo Hrest)
        as (out & h' & E & W' & L' & P' & F').
      rewrite E. cbn. exists (r' :: out), h'.
      repeat split; auto.
      destruct (Hmemo r r' Em) as (Hr' & _ & bs' & Hb1 & Hb2).
      constructor; [|exact F'].
      split; [lia|].
      rewrite (kb_row_at_preserved h h' r' P') by lia. congruence.
    + rewrite Hbs. cbn [mbind option_bind].
      pose proof (kb_wf_alloc (Row bs) h W) as Wa.
      pose proof (kb_preserves_alloc (Row bs) h) as Pa.
      assert (Hrow1 : forall x, (x < next_loc h)%nat ->
                                row_at (fst (alloc (Row bs) h)) x = row_at h x).
      { intros x Hx. apply kb_row_at_preserved; [exact Pa|exact Hx]. }
      assert (Hnew : row_at (fst (alloc (Row bs) h)) (next_loc h) = Some bs).
      { unfold row_at. cbn. rewrite lookup_insert_eq. reflexivity. }
      assert (Hnext : next_loc (fst (alloc (Row bs) h)) = S (next_loc h))
        by reflexivity.
      change (snd (alloc (Row bs) h)) with (next_loc h).
      destruct (IH (<[r := next_loc h]> memo) (fst (alloc (Row bs) h)))
        as (out & h' & E & W' & L' & P' & F').
      * exact Wa.
      * rewrite Hnext. lia.
      * intros x x' Hx. rewrite Hnext.
        destruct (decide (r = x)) as [->|Hne].
        -- rewrite lookup_insert_eq in Hx. injection Hx as <-.
           split; [lia|]. split; [exact Hr|].
           exists bs. split; [|exact Hnew].
           rewrite Hrow1 by lia. exact Hbs.
        -- rewrite lookup_insert_ne in Hx by done.
           destruct (Hmemo x x' Hx) as (Hx' & Hx0 & bs' & Hb1 & Hb2).
           split; [lia|]. split; [exact Hx0|].
           exists bs'. rewrite !Hrow1 by lia. auto.
      * eapply Forall_impl; [exact Hrest|].
        intros x [Hx Hs]. split; [exact Hx|]. rewrite Hrow1 by lia. exact Hs.
      * rewrite E. cbn [mbind option_bind fst snd].
        exists (next_loc h :: out), h'.
        rewrite Hnext in L'.
        split; [reflexivity|]. split; [exact W'|]. split; [lia|].
        split.
        { eapply kb_preserves_trans; [|exact Pa|exact P'].
          rewrite Hnext. lia. }
        constructor.
        -- split; [lia|].
           rewrite (kb_row_at_preserved _ h' _ P') by (rewrite Hnext; lia).
           congruence.
        -- assert (Hlt : Forall (fun y => (y < n0)%nat) rest).
           { eapply Forall_impl; [exact Hrest|]. intros ? [? _]. assumption. }
           clear -F' Hlt Hrow1 Hn.
           induction F' as [|x x' rest' out' [Hx Hrx] _ IHF]; [constructor|].
           apply Forall_cons in Hlt as [Hx0 Hlt].
           constructor; [|apply IHF; exact Hlt].
           split; [exact Hx|]. rewrite Hrx. apply Hrow1. lia.
Qed.
End KeyboardHeapFacts.

Section KeyboardCopy.
Import KeyboardHeap.

Lemma kb_Forall2_compose {A B C} (P : A -> B -> Prop) (Q : A -> C -> Prop)
    (R : B -> C -> Prop) l k m :
  (forall a b c, P a b -> Q a c -> R b c) ->
  Forall2 P l k -> Forall2 Q l m -> Forall2 R k m.
Proof.
  intros H F. revert m. induction F as [|a b l k Hab _ IH]; intros m G.
  - inversion G. constructor.
  - inversion G as [|? c ? m' Hac G']; subst. constructor; eauto.
Qed.

Lemma kb_preserves_store h h' l o :
  preserves h h' -> (next_loc h <= l)%nat -> preserves h (store l o h').
Proof.
  intros P Hl a Ha. cbn. rewrite lookup_insert_ne by lia. apply P. exact Ha.
Qed.

Lemma kb_deepcopy_spec h l kb :
  wf h ->
  read_keyboard h l = Some kb ->
  exists rs out h',
    keyboard_at h l = Some rs /\
    deepcopy l h = Some (next_loc h, h') /\
    (l < next_loc h)%nat /\
    keyboard_at h' (next_loc h) = Some out /\
    Forall2 (fun r r' => (next_loc h < r')%nat /\ row_at h' r' = row_at h r)
      rs out /\
    (next_loc h < next_loc h')%nat /\
    preserves h h' /\
    read_keyboard h' (next_loc h) = Some kb.
Proof.
  intros W H. unfold read_keyboard in H.
  destruct (keyboard_at h l) as [rs|] eqn:Ek; [|discriminate].
  cbn in H. apply mapM_Some in H.
  assert (Hl : (l < next_loc h)%nat) by (eapply kb_keyboard_at_lt; eauto).
  pose proof (kb_wf_alloc (Keyboard []) h W) as Wa.
  pose proof (kb_preserves_alloc (Keyboard []) h) as Pa.
  assert (Hrs : Forall (fun r => (r < S (next_loc h))%nat /\
                                 is_Some (row_at (fst (alloc (Keyboard []) h)) r))
                       rs).
  { clear Ek. induction H as [|r bs rs' kb' Hr _ IH]; constructor; [|exact IH].
    pose proof (kb_row_at_lt h r bs W Hr).
    split; [lia|]. rewrite (kb_row_at_preserved h _ r Pa) by lia. eauto. }
  destruct (kb_deepcopy_rows_spec (S (next_loc h)) rs ∅
              (fst (alloc (Keyboard []) h)) Wa)
    as (out & h2 & E & W2 & L2 & P2 & F); [cbn; lia| |exact Hrs|].
  { intros r r' Hm. rewrite lookup_empty in Hm. discriminate. }
  cbn [fst alloc next_loc] in L2.
  exists rs, out, (store (next_loc h) (Keyboard out) h2).
  assert (Hk' : keyboard_at (store (next_loc h) (Keyboard out) h2) (next_loc h)
                = Some out).
  { unfold keyboard_at. cbn. rewrite lookup_insert_eq. reflexivity. }
  assert (F0 : forall o,
             Forall2 (fun r r' =>
                        (next_loc h < r')%nat /\
                        row_at (store (next_loc h) o h2) r' = row_at h r)
                     rs out).
  { intros o.
    assert (Hlt : Forall (fun r => (r < next_loc h)%nat) rs).
    { clear -H W. induction H as [|r bs rs' kb' Hr _ IH]; constructor;
        [eapply kb_row_at_lt; eauto|exact IH]. }
    clear -F Hlt Pa.
    induction F as [|r r' rs' out' [Hr' Hrow] _ IH]; [constructor|].
    apply Forall_cons in Hlt as [Hr Hlt].
    constructor; [|apply IH; exact Hlt].
    split; [lia|]. unfold row_at at 1. cbn [objs store].
    rewrite lookup_insert_ne by lia.
    fold (row_at h2 r'). rewrite Hrow.
    apply kb_row_at_preserved; [exact Pa|exact Hr]. }
  pose proof (F0 (Keyboard out)) as F'.
  split; [reflexivity|]. split.
  { unfold deepcopy. rewrite Ek. cbn [mbind option_bind].
    rewrite E. reflexivity. }
  split; [exact Hl|]. split; [exact Hk'|]. split; [exact F'|].
  split; [cbn; lia|]. split.
  { apply kb_preserves_store; [|lia].
    eapply kb_preserves_trans; [|exact Pa|exact P2]. cbn. lia. }
  unfold read_keyboard. rewrite Hk'. cbn [mbind option_bind].
  apply mapM_Some.
  eapply kb_Forall2_compose; [|exact F'|exact H].
  intros r r' bs [_ Hrow] Hr. cbv beta in *. congruence.
Qed.
End KeyboardCopy.

Section KeyboardProperty.
Import KeyboardHeap.

Lemma kb_add_keyboard_button_frame h h' l' rs btn max_row_len :
  preserves h h' ->
  (next_loc h <= next_loc h')%nat ->
  (next_loc h <= l')%nat ->
  keyboard_at h' l' = Some rs ->
  Forall (fun r' => (next_loc h <= r')%nat /\ is_Some (row_at h' r')) rs ->
  exists h'',
    add_keyboard_button l' btn max_row_len h' = Some h'' /\
    preserves h h''.
Proof.
  intros P L Hl Hk Hrs. unfold add_keyboard_button.
  rewrite Hk. cbn [mbind option_bind].
  assert (Happ : preserves h
                   (store l' (Keyboard (rs ++ [next_loc h']))
                      (fst (alloc (Row [btn]) h')))).
  { apply kb_preserves_store; [|exact Hl].
    eapply kb_preserves_trans; [exact L|exact P|apply kb_preserves_alloc]. }
  destruct (last rs) as [r|] eqn:El; [|eauto].
  assert (Hr : (next_loc h <= r)%nat /\ is_Some (row_at h' r)).
  { apply last_Some in El as (rs0 & ->).
    apply Forall_app in Hrs as [_ Hrs]. apply Forall_cons in Hrs as [Hr _].
    exact Hr. }
  destruct Hr as [Hr [bs Hbs]]. rewrite Hbs. cbn [mbind option_bind].
  destruct (length bs <? max_row_len)%nat; [|eauto].
  eexists. split; [reflexivity|].
  apply kb_preserves_store; [exact P|exact Hr].
Qed.

(** C10: when the stored reply keyboard is a list, reading the property
    returns a new list object whose rows are new objects too, that reads as
    the same keyboard as the stored one; the stored keyboard reads the same
    after the copy, after [add_keyboard_button] on the returned value (which
    always succeeds), and after any writes that leave the objects that
    existed before the read untouched; when the stored value is not a list,
    the property returns none and the heap is as it was. *)
Theorem reply_keyboard_returns_isolated_copy :
  (forall (h : heap) (l : loc) (kb : KEYBOARD),
     wf h ->
     read_keyboard h l = Some kb ->
     exists l' h' rs rs',
       reply_keyboard (SList l) h = Some (Some l', h') /\
       l' <> l /\ objs h !! l' = None /\
       keyboard_at h l = Some rs /\ keyboard_at h' l' = Some rs' /\
       Forall (fun r' => objs h !! r' = None /\ r' ∉ rs) rs' /\
       read_keyboard h' l' = Some kb /\
       read_keyboard h' l = Some kb /\
       (forall btn max_row_len,
          exists h'',
            add_keyboard_button l' btn max_row_len h' = Some h'' /\
            read_keyboard h'' l = Some kb) /\
       (forall h'', preserves h h'' -> read_keyboard h'' l = Some kb)) /\
  (forall h : heap,
     reply_keyboard SNone h = Some (None, h) /\
     reply_keyboard SOther h = Some (None, h)).
Proof.
  split; [|intros h; split; reflexivity].
  intros h l kb W H.
  destruct (kb_deepcopy_spec h l kb W H)
    as (rs & out & h' & Ek & Ed & Hl & Hk' & F & L & P & Hread).
  exists (next_loc h), h', rs, out.
  assert (Hrows : Forall (fun r => (r < next_loc h)%nat) rs).
  { unfold read_keyboard in H. rewrite Ek in H. cbn in H.
    apply mapM_Some in H. clear -H W.
    induction H as [|r bs rs' kb' Hr _ IH]; constructor;
      [eapply kb_row_at_lt; eauto|exact IH]. }
  split; [unfold reply_keyboard; rewrite Ed; reflexivity|].
  split; [lia|]. split; [apply W; lia|].
  split; [exact Ek|]. split; [exact Hk'|]. split.
  { apply Forall2_Forall_r with (Q := fun r' => (next_loc h < r')%nat) in F.
    - eapply Forall_impl; [exact F|]. intros r' Hr'. cbv beta in *.
      split; [apply W; lia|].
      intros Hin. rewrite Forall_forall in Hrows.
      specialize (Hrows r' Hin). lia.
    - apply Forall_true. intros r r' [Hr' _]. exact Hr'. }
  split; [exact Hread|].
  split; [eapply kb_read_keyboard_preserved; eauto|].
  split; [|intros h'' P'; eapply kb_read_keyboard_preserved; eauto].
  intros btn max_row_len.
  destruct (kb_add_keyboard_button_frame h h' (next_loc h) out btn max_row_len)
    as (h'' & Ea & P''); [exact P|lia|lia|exact Hk'| |].
  - unfold read_keyboard in H. rewrite Ek in H. cbn in H.
    apply mapM_Some in H. clear -F H.
    revert kb H. induction F as [|r r' rs' out' [Hr' Hrow] _ IH];
      intros kb H; [constructor|].
    inversion H as [|? bs ? kb' Hr H']; subst.
    constructor; [|eapply IH; exact H'].
    split; [lia|]. rewrite Hrow, Hr. eauto.
  - exists h''. split; [exact Ea|].
    eapply kb_read_keyboard_preserved; eauto.
Qed.

(** The value the node model takes for the property is the reading of the
    object the getter returns. *)
Lemma reply_keyboard_value_refinement (n : Node.t) (v : stored) (h : heap) :
  wf h ->
  (forall l, v = SList l -> is_Some (read_keyboard h l)) ->
  Node.__reply_keyboard n = stored_value h v ->
  exists r h',
    reply_keyboard v h = Some (r, h') /\
    (r ≫= read_keyboard h') = Node.reply_keyboard n.
Proof.
  intros W Hl Hn. unfold Node.reply_keyboard. rewrite Hn.
  destruct v as [|l|]; try (exists None, h; split; reflexivity).
  destruct (Hl l eq_refl) as [kb Hkb].
  destruct (kb_deepcopy_spec h l kb W Hkb)
    as (rs & out & h' & _ & Ed & _ & _ & _ & _ & _ & Hread).
  exists (Some (next_loc h)), h'. split.
  - unfold reply_keyboard. rewrite Ed. reflexivity.
  - cbn. rewrite Hread, Hkb. reflexivity.
Qed.

Lemma reply_keyboard_returns_isolated_copy_witness :
  exists l' h' (rs rs' : list loc),
    reply_keyboard (SList 2%nat) KeyboardExample.h0 = Some (Some l', h') /\
    l' <> 2%nat /\
    keyboard_at h' l' = Some rs' /\
    Forall (fun r' => objs KeyboardExample.h0 !! r' = None /\ r' ∉ rs) rs' /\
    read_keyboard h' l' = Some KeyboardExample.kb /\
    (exists h'',
       add_keyboard_button l' (BStr "back") 2 h' = Some h'' /\
       read_keyboard h'' 2%nat = Some KeyboardExample.kb).
Proof.
  destruct (proj1 reply_keyboard_returns_isolated_copy
              KeyboardExample.h0 2%nat KeyboardExample.kb)
    as (l' & h' & rs & rs' & E & Hne & _ & _ & Hk & Hf & Hr & _ & Ha & _).
  - intros a Ha. unfold KeyboardExample.h0 in *. cbn [objs next_loc] in *.
    rewrite !lookup_insert_ne, lookup_singleton_ne by lia. reflexivity.
  - reflexivity.
  - exists l', h', rs, rs'.
    split; [exact E|]. split; [exact Hne|]. split; [exact Hk|].
    split; [exact Hf|]. split; [exact Hr|]. apply Ha.
Defined.
End KeyboardProperty.

(** * Further properties of the code *)

(** ** What a run respects *)

Section Respects.
Variable R : state -> state -> Prop.
Hypothesis R_refl : forall s, R s s.
Hypothesis R_trans : forall s1 s2 s3, R s1 s2 -> R s2 s3 -> R s1 s3.
Variable u : Update.
Variable okf : (UserStatus.t -> UserStatus.t) -> Prop.
Hypothesis R_emit : forall e s, R s (add_log e s).
Hypothesis R_getitem :
  forall s,
    R s (set_registry
           (fst (UserStatusList.getitem (effective_user_id u) (registry s))) s).
Hypothesis R_update :
  forall f us s,
    okf f -> registry s !! effective_user_id u = Some us ->
    R s (set_registry (<[effective_user_id u := f us]> (registry s)) s).
Hypothesis R_bind_node :
  forall r n b s,
    nodes s !! r = Some n ->
    R s (set_nodes (<[r := Node.set_user_status_list b n]> (nodes s)) s).
Hypothesis R_back_str :
  forall r n b s,
    nodes s !! r = Some n ->
    R s (set_nodes (<[r := Node.set_back_str b n]> (nodes s)) s).
(* the writes of the node methods *)
Hypothesis ok_current_node_handler :
  forall h, okf (UserStatus.set_current_node_handler h).
Hypothesis ok_inside : forall b, okf (UserStatus.set_is_inside_current_node b).
Hypothesis ok_display : forall d, okf (UserStatus.set_display_node d).
Hypothesis ok_next : forall x, okf (UserStatus.set_next_node x).
Hypothesis ok_push :
  forall node,
    okf (fun us => UserStatus.set_nodes_history
                     (UserStatus.nodes_history us ++ [node]) us).
(* the writes of the router *)
Hypothesis ok_current_handler : forall h, okf (UserStatus.set_current_handler h).
Hypothesis ok_entered : forall b, okf (UserStatus.set_nodes_handler_entered b).
Hypothesis ok_history : forall h, okf (UserStatus.set_nodes_history h).

Lemma respects_ret {A} (a : A) : respects R (ret a).
Proof. intros s. apply R_refl. Qed.

Lemma respects_raise {A} e : respects R (@raise A e).
Proof. intros s. apply R_refl. Qed.

Lemma respects_abort {A} r : respects R (@abort_with A r).
Proof. intros s. exact I. Qed.

Lemma respects_bind {A B} (m : M A) (k : A -> M B) :
  respects R m -> (forall a, respects R (k a)) -> respects R (bind m k).
Proof.
  intros Hm Hk s. unfold bind. specialize (Hm s).
  destruct (m s) as [a s1|e s1|r]; auto.
  specialize (Hk a s1). destruct (k a s1); eauto.
Qed.

Lemma respects_emit e : respects R (emit e).
Proof. intros s. apply R_emit. Qed.

Lemma respects_get_node r : respects R (get_node r).
Proof. intros s. unfold get_node. destruct (nodes s !! r); [apply R_refl|exact I]. Qed.

Lemma respects_bind_node r b :
  respects R (update_node r (Node.set_user_status_list b)).
Proof.
  intros s. unfold update_node. destruct (nodes s !! r) eqn:E; [|exact I].
  apply R_bind_node. exact E.
Qed.

Lemma respects_back_str r b :
  respects R (update_node r (Node.set_back_str b)).
Proof.
  intros s. unfold update_node. destruct (nodes s !! r) eqn:E; [|exact I].
  apply R_back_str. exact E.
Qed.

Lemma respects_getitem b :
  respects R (user_status_list_getitem b (effective_user_id u)).
Proof.
  intros s. unfold user_status_list_getitem.
  destruct b; [apply R_getitem|apply R_refl].
Qed.

Lemma respects_user_status : respects R (user_status (effective_user_id u)).
Proof.
  intros s. unfold user_status.
  destruct (registry s !! effective_user_id u); [apply R_refl|exact I].
Qed.

Lemma respects_update f :
  okf f -> respects R (update_user_status (effective_user_id u) f).
Proof.
  intros Hf s. unfold update_user_status.
  destruct (registry s !! effective_user_id u) eqn:E; [|exact I].
  apply R_update; assumption.
Qed.

Lemma respects_deref {A} (o : option A) : respects R (deref o).
Proof. destruct o; [apply respects_ret|apply respects_raise]. Qed.

Lemma respects_handler h : respects R (Handler_handle_update h u).
Proof.
  unfold Handler_handle_update.
  apply respects_bind; [apply respects_emit|intros _; apply respects_ret].
Qed.

Lemma respects_reply_object parse_mode o markup silent :
  respects R (Node_reply_object parse_mode o markup silent).
Proof.
  unfold Node_reply_object. apply respects_bind.
  - destruct o as [| | |items|items]; try apply respects_ret;
      destruct items as [|o0 [|o1 [|? ?]]]; try apply respects_raise;
      destruct (match class_of o0 with
                | Some c => class_in c ALLOWED_TELEGRAM_OBJECTS_WITH_CAPTION
                | None => false
                end); first [apply respects_ret|apply respects_raise].
  - intros [caption obj]. cbn [fst snd]. apply respects_bind.
    + destruct obj as [| |[] ?| |];
        first [apply respects_emit|apply respects_ret].
    + intros _. destruct obj as [| |[] ?| |];
        first [apply respects_emit|apply respects_ret].
Qed.

Lemma respects_reply_list parse_mode items markup :
  respects R (reply_list parse_mode (effective_user_id u) items markup).
Proof.
  induction items as [|o rest IH]; [apply respects_raise|].
  destruct rest as [|o' rest'].
  - apply respects_reply_object.
  - cbn [reply_list]. apply respects_bind; [apply respects_reply_object|].
    intros _. apply respects_bind; [apply respects_emit|].
    intros _. exact IH.
Qed.

Lemma respects_reply parse_mode o markup :
  respects R (Node_reply parse_mode (effective_user_id u) o markup).
Proof.
  destruct o; try apply respects_reply_object. apply respects_reply_list.
Qed.

Lemma respects_check_candidates self candidates :
  respects R (Node_check_candidates self u candidates).
Proof.
  unfold Node_check_candidates.
  destruct (find _ candidates); [|apply respects_ret].
  apply respects_bind; [apply respects_get_node|]. intros n.
  apply respects_bind; [apply respects_getitem|]. intros _.
  apply respects_bind; [apply respects_update, ok_current_node_handler|].
  intros _. apply respects_ret.
Qed.

Lemma respects_Node_check_update self :
  respects R (Node_check_update self u).
Proof.
  unfold Node_check_update.
  apply respects_bind; [apply respects_get_node|]. intros n.
  apply respects_bind; [apply respects_getitem|]. intros _.
  apply respects_bind; [apply respects_user_status|]. intros us.
  destruct (negb (UserStatus.is_inside_current_node us)).
  - apply respects_check_candidates.
  - apply respects_bind; [apply respects_check_candidates|].
    intros []; [apply respects_ret|apply respects_check_candidates].
Qed.

Lemma respects_history_add node :
  respects R (NodesHistory_add (effective_user_id u) node).
Proof.
  unfold NodesHistory_add.
  apply respects_bind; [apply respects_user_status|]. intros us.
  apply respects_bind.
  - destruct (NodesHistory.current (UserStatus.nodes_history us));
      [|apply respects_ret].
    apply respects_bind; [apply respects_get_node|]. intros c.
    apply respects_back_str.
  - intros _. apply respects_update, ok_push.
Qed.

Lemma respects_select handler switch_nodes :
  respects R (SwitchNode_select handler switch_nodes).
Proof.
  induction switch_nodes as [|c rest IH]; [apply respects_ret|].
  cbn [SwitchNode_select].
  apply respects_bind; [apply respects_get_node|]. intros n.
  destruct (match handler with
            | Some h => handler_in h (Node.entry_handlers n)
            | None => false
            end); [apply respects_ret|exact IH].
Qed.

Section Body.
Variable handle_entry : node_ref -> Update -> M unit.
Hypothesis respects_handle_entry : forall x, respects R (handle_entry x u).

Lemma respects_Node_handle_inside_body self :
  respects R (Node_handle_inside_body handle_entry self u).
Proof.
  unfold Node_handle_inside_body.
  apply respects_bind; [apply respects_get_node|]. intros n.
  apply respects_bind; [apply respects_getitem|]. intros _.
  apply respects_bind.
  { destruct (truthy (Node.goodbye n));
      [apply respects_reply|apply respects_ret]. }
  intros _.
  apply respects_bind; [apply respects_update, ok_inside|]. intros _.
  apply respects_bind; [apply respects_user_status|]. intros us.
  destruct (match UserStatus.next_node us with
            | Some p => Some p
            | None => Node.next_node n
            end) as [nx|].
  - apply respects_bind; [apply respects_bind_node|]. intros _.
    apply respects_bind; [apply respects_update, ok_display|]. intros _.
    apply respects_bind; [apply respects_get_node|]. intros d.
    apply respects_bind.
    { destruct (Node.switch_on_this d);
        [apply respects_history_add|apply respects_ret]. }
    intros _.
    apply respects_bind; [apply respects_update, ok_next|]. intros _.
    destruct (Node.auto_entry d); [|apply respects_ret].
    apply respects_bind; [|intros _; apply respects_handle_entry].
    destruct (Node.next_node n); [|apply respects_ret].
    destruct (Node.entry_handlers d); [apply respects_ret|].
    apply respects_bind; [apply respects_handler|].
    intros _. apply respects_ret.
  - apply respects_bind.
    { destruct (negb (Node.switch_on_this n));
        [apply respects_update, ok_inside|apply respects_ret]. }
    intros _. apply respects_update, ok_next.
Qed.

Lemma respects_handle_inside_body self :
  respects R (handle_inside_body handle_entry self u).
Proof.
  unfold handle_inside_body.
  apply respects_bind; [apply respects_get_node|]. intros n.
  destruct (is_SwitchNode (Node.cls n));
    [|apply respects_Node_handle_inside_body].
  unfold SwitchNode_handle_inside_body.
  apply respects_bind; [apply respects_get_node|]. intros n'.
  apply respects_bind; [apply respects_getitem|]. intros _.
  apply respects_bind; [apply respects_user_status|]. intros us.
  apply respects_bind; [apply respects_select|]. intros chosen.
  apply respects_bind; [|intros _; apply respects_Node_handle_inside_body].
  destruct chosen; [apply respects_update, ok_next|apply respects_ret].
Qed.
End Body.

Lemma respects_Node_handle_entry fuel :
  forall self, respects R (Node_handle_entry fuel self u).
Proof.
  induction fuel as [|fuel IH]; intros self; [apply respects_abort|].
  cbn [Node_handle_entry].
  apply respects_bind; [apply respects_get_node|]. intros n.
  apply respects_bind; [apply respects_getitem|]. intros _.
  apply respects_bind; [apply respects_update, ok_inside|]. intros _.
  apply respects_bind.
  { destruct (truthy (Node.hello n)); [|apply respects_ret].
    apply respects_bind; [apply respects_user_status|]. intros us.
    apply respects_reply. }
  intros _. destruct (Node.inside_handlers n); [|apply respects_ret].
  apply respects_handle_inside_body. exact IH.
Qed.

Lemma respects_Node_handle_update fuel self :
  respects R (Node_handle_update fuel self u).
Proof.
  unfold Node_handle_update.
  apply respects_bind; [apply respects_get_node|]. intros n.
  apply respects_bind; [apply respects_getitem|]. intros _.
  apply respects_bind; [apply respects_user_status|]. intros us.
  apply respects_bind; [apply respects_deref|]. intros handler.
  apply respects_bind; [apply respects_handler|]. intros handle_result.
  apply respects_bind.
  { destruct handle_result; try apply respects_ret.
    apply respects_update, ok_next. }
  intros _. apply respects_bind; [|intros _; apply respects_ret].
  destruct (is_INSIDE_NOT_VALID handle_result
            || handler_in handler (Node.inside_fallbacks n)).
  - apply respects_bind; [apply respects_user_status|]. intros us'.
    apply respects_bind; [apply respects_deref|]. intros dn.
    apply respects_bind; [apply respects_get_node|]. intros d.
    apply respects_bind; [|intros _; apply respects_Node_handle_entry].
    destruct (Node.entry_handlers d); [apply respects_ret|].
    apply respects_bind; [apply respects_handler|].
    intros _. apply respects_ret.
  - destruct (handler_in handler (Node.entry_handlers n));
      [apply respects_Node_handle_entry|].
    destruct (handler_in handler (Node.inside_handlers n));
      [|apply respects_ret].
    apply respects_handle_inside_body. apply respects_Node_handle_entry.
Qed.

Lemma respects_check_update nh : respects R (NodesHandler_check_update nh u).
Proof.
  unfold NodesHandler_check_update, set_current_handler.
  apply respects_bind; [apply respects_getitem|]. intros _.
  apply respects_bind; [apply respects_user_status|]. intros us.
  destruct (if negb (UserStatus.nodes_handler_entered us)
               || NodesHandler.allow_reentry nh
            then first_match u (NodesHandler.entry_handlers nh)
            else None).
  { apply respects_bind; [apply respects_update, ok_current_handler|].
    intros _. apply respects_ret. }
  destruct (UserStatus.nodes_handler_entered us); [|apply respects_ret].
  apply respects_bind; [apply respects_deref|]. intros cur.
  apply respects_bind; [apply respects_get_node|]. intros c.
  destruct (if Node.allow_back c
               && NodesHistory.can_back (UserStatus.nodes_history us)
            then first_match u (NodesHandler.back_handlers nh)
            else None).
  { apply respects_bind; [apply respects_update, ok_current_handler|].
    intros _. apply respects_ret. }
  destruct (first_match u (NodesHandler.exit_handlers nh)).
  { apply respects_bind; [apply respects_update, ok_current_handler|].
    intros _. apply respects_ret. }
  apply respects_bind; [apply respects_Node_check_update|]. intros [].
  { apply respects_bind; [apply respects_update, ok_current_handler|].
    intros _. apply respects_ret. }
  destruct (first_match u (NodesHandler.fallback_handlers nh));
    [|apply respects_ret].
  apply respects_bind; [apply respects_update, ok_current_handler|].
  intros _. apply respects_ret.
Qed.

Lemma respects_history_back :
  respects R (NodesHistory_back (effective_user_id u)).
Proof.
  unfold NodesHistory_back.
  apply respects_bind; [apply respects_user_status|]. intros us.
  apply respects_bind; [apply respects_update, ok_history|]. intros _.
  destruct (fst (NodesHistory.back (UserStatus.nodes_history us)));
    [apply respects_raise|apply respects_ret].
Qed.

(** What [handle_update] does after the typing indicator. *)
Lemma respects_handle_update_rest fuel nh :
  respects R
    (let* us := user_status (effective_user_id u) in
     let* handler := deref (UserStatus.current_handler us) in
     let* handle_result :=
       match handler with
       | HHandler h => Handler_handle_update h u
       | HNode n => Node_handle_update fuel n u
       | HList _ => raise AttributeError
       end in
     (if current_handler_in handler (NodesHandler.entry_handlers nh)
         || current_handler_in handler (NodesHandler.back_handlers nh) then
        (if current_handler_in handler (NodesHandler.entry_handlers nh) then
           update_user_status (effective_user_id u)
             UserStatus.enter_nodes_handler;;;
           update_user_status (effective_user_id u)
             (UserStatus.set_display_node (Some (NodesHandler.root_node nh)));;;
           update_user_status (effective_user_id u)
             (UserStatus.set_nodes_history
                (NodesHistory.set_root (NodesHandler.root_node nh)))
         else
           let* _ := NodesHistory_back (effective_user_id u) in
           let* us := user_status (effective_user_id u) in
           update_user_status (effective_user_id u)
             (UserStatus.set_display_node
                (NodesHistory.current (UserStatus.nodes_history us)));;;
           update_user_status (effective_user_id u)
             UserStatus.enter_current_node);;;
        let* us := user_status (effective_user_id u) in
        let* dn := deref (UserStatus.display_node us) in
        let* d := get_node dn in
        match last (Node.entry_handlers d) with
        | Some h => let* _ := Handler_handle_update h u in ret tt
        | None => ret tt
        end;;;
        let* cur := deref (NodesHistory.current (UserStatus.nodes_history us)) in
        Node_handle_entry fuel cur u
      else if current_handler_in handler (NodesHandler.exit_handlers nh) then
        update_user_status (effective_user_id u) UserStatus.exit_nodes_handler
      else ret tt);;;
     ret handle_result).
Proof.
  apply respects_bind; [apply respects_user_status|]. intros us.
  apply respects_bind; [apply respects_deref|]. intros handler.
  apply respects_bind.
  { destruct handler; [apply respects_handler
                      |apply respects_Node_handle_update
                      |apply respects_raise]. }
  intros handle_result.
  apply respects_bind; [|intros _; apply respects_ret].
  destruct (current_handler_in handler (NodesHandler.entry_handlers nh)
            || current_handler_in handler (NodesHandler.back_handlers nh)).
  - apply respects_bind.
    { destruct (current_handler_in handler (NodesHandler.entry_handlers nh)).
      - apply respects_bind; [apply respects_update, ok_entered|]. intros _.
        apply respects_bind; [apply respects_update, ok_display|]. intros _.
        apply respects_update, ok_history.
      - apply respects_bind; [apply respects_history_back|]. intros _.
        apply respects_bind; [apply respects_user_status|]. intros us'.
        apply respects_bind; [apply respects_update, ok_display|]. intros _.
        apply respects_update, ok_inside. }
    intros _.
    apply respects_bind; [apply respects_user_status|]. intros us'.
    apply respects_bind; [apply respects_deref|]. intros dn.
    apply respects_bind; [apply respects_get_node|]. intros d.
    apply respects_bind.
    { destruct (last (Node.entry_handlers d)); [|apply respects_ret].
      apply respects_bind; [apply respects_handler|].
      intros _. apply respects_ret. }
    intros _.
    apply respects_bind; [apply respects_deref|]. intros cur.
    apply respects_Node_handle_entry.
  - destruct (current_handler_in handler (NodesHandler.exit_handlers nh));
      [apply respects_update, ok_entered|apply respects_ret].
Qed.

Lemma respects_handle_update fuel nh :
  respects R (NodesHandler_handle_update fuel nh u).
Proof.
  unfold NodesHandler_handle_update.
  apply respects_bind; [apply respects_getitem|]. intros _.
  apply respects_bind; [apply respects_emit|]. intros _.
  apply respects_handle_update_rest.
Qed.

(** The state [handle_update] ends in is related to the one right after the
    typing indicator. *)
Lemma handle_update_after_typing fuel nh s :
  match NodesHandler_handle_update fuel nh u s with
  | Ok _ s' | Raise _ s' =>
      R (add_log (send_chat_action (effective_user_id u))
           (set_registry
              (fst (UserStatusList.getitem (effective_user_id u) (registry s)))
              s)) s'
  | Abort _ => True
  end.
Proof.
  unfold NodesHandler_handle_update, user_status_list_getitem, emit.
  unfold bind at 1. unfold bind at 1.
  apply respects_handle_update_rest.
Qed.

Lemma respects_dispatch fuel nh : respects R (dispatch fuel nh u).
Proof.
  unfold dispatch.
  apply respects_bind; [apply respects_check_update|]. intros [].
  - apply respects_bind; [apply respects_handle_update|].
    intros _. apply respects_ret.
  - apply respects_ret.
Qed.
End Respects.

(** ** Sessions of other users *)

Lemma getitem_other user_id other (l : gmap Z UserStatus.t) :
  other <> user_id ->
  fst (UserStatusList.getitem user_id l) !! other = l !! other.
Proof.
  intros Hne. unfold UserStatusList.getitem, UserStatusList.init_user.
  destruct (UserStatusList.contains user_id l); cbn [fst]; [reflexivity|].
  apply lookup_insert_ne. congruence.
Qed.

(** X1: handling an update of one user, whether it returns or raises, leaves
    the session of every other user as it was. *)
Theorem dispatch_leaves_other_users_untouched
    (fuel : nat) (nh : NodesHandler.t) (u : Update) :
  respects (others_untouched (effective_user_id u)) (dispatch fuel nh u).
Proof.
  apply respects_dispatch with (okf := fun _ => True); try (intros; exact I).
  - intros s other _. reflexivity.
  - intros s1 s2 s3 H1 H2 other Hne. rewrite H2, H1 by exact Hne. reflexivity.
  - intros e s other _. reflexivity.
  - intros s other Hne. cbn [registry set_registry].
    apply getitem_other. exact Hne.
  - intros f us s _ _ other Hne. cbn [registry set_registry].
    apply lookup_insert_ne. congruence.
  - intros r n b s _ other _. reflexivity.
  - intros r n b s _ other _. reflexivity.
Qed.

(** ** The configuration of the nodes *)

Lemma same_wiring_refl n : same_wiring n n.
Proof.
  exists (Node.back_str n), (Node.user_status_list n).
  destruct n; reflexivity.
Qed.

Lemma same_wiring_trans n1 n2 n3 :
  same_wiring n1 n2 -> same_wiring n2 n3 -> same_wiring n1 n3.
Proof. intros (b1 & l1 & ->) (b2 & l2 & ->). exists b2, l2. reflexivity. Qed.

Lemma nodes_rewired_refl s : nodes_rewired s s.
Proof.
  intros r. destruct (nodes s !! r); [apply same_wiring_refl|exact I].
Qed.

Lemma nodes_rewired_same s s' : nodes s' = nodes s -> nodes_rewired s s'.
Proof.
  intros H r. rewrite H.
  destruct (nodes s !! r); [apply same_wiring_refl|exact I].
Qed.

Lemma nodes_rewired_trans s1 s2 s3 :
  nodes_rewired s1 s2 -> nodes_rewired s2 s3 -> nodes_rewired s1 s3.
Proof.
  intros H1 H2 r. specialize (H1 r). specialize (H2 r).
  destruct (nodes s1 !! r), (nodes s2 !! r), (nodes s3 !! r);
    try contradiction; try exact I.
  eapply same_wiring_trans; eassumption.
Qed.

Lemma nodes_rewired_insert r n n' s :
  nodes s !! r = Some n -> same_wiring n n' ->
  nodes_rewired s (set_nodes (<[r := n']> (nodes s)) s).
Proof.
  intros Hn Hw x. cbn [nodes set_nodes].
  destruct (decide (r = x)) as [->|Hne].
  - rewrite lookup_insert_eq, Hn. exact Hw.
  - rewrite lookup_insert_ne by exact Hne.
    destruct (nodes s !! x); [apply same_wiring_refl|exact I].
Qed.

(** X2: handling an update, whether it returns or raises, neither adds nor
    removes a node, and changes no attribute of a node other than
    [user_status_list] and [back_str]: handlers, payloads, keyboards, flags
    and the static successor stay as constructed. *)
Theorem dispatch_keeps_node_configuration
    (fuel : nat) (nh : NodesHandler.t) (u : Update) :
  respects nodes_rewired (dispatch fuel nh u).
Proof.
  apply respects_dispatch with (okf := fun _ => True); try (intros; exact I).
  - apply nodes_rewired_refl.
  - apply nodes_rewired_trans.
  - intros e s. apply nodes_rewired_same. reflexivity.
  - intros s. apply nodes_rewired_same. reflexivity.
  - intros f us s _ _. apply nodes_rewired_same. reflexivity.
  - intros r n b s Hn. apply (nodes_rewired_insert r n _ s Hn).
    exists (Node.back_str n), b. destruct n; reflexivity.
  - intros r n b s Hn. apply (nodes_rewired_insert r n _ s Hn).
    exists b, (Node.user_status_list n). destruct n; reflexivity.
Qed.

(** ** The typing indicator *)

Lemma log_grows_refl s : log_grows s s.
Proof. exists []. symmetry. apply app_nil_r. Qed.

Lemma log_grows_same s s' : log s' = log s -> log_grows s s'.
Proof. intros H. exists []. rewrite H. symmetry. apply app_nil_r. Qed.

Lemma log_grows_trans s1 s2 s3 :
  log_grows s1 s2 -> log_grows s2 s3 -> log_grows s1 s3.
Proof.
  intros [l1 H1] [l2 H2]. exists (l1 ++ l2).
  rewrite H2, H1, app_assoc. reflexivity.
Qed.

(** X3: whatever [handle_update] goes on to do, return or raise, the first
    effect it adds to the log is the typing indicator for the user of the
    update, and it removes nothing from the log. *)
Theorem handle_update_typing_indicator_first
    (fuel : nat) (nh : NodesHandler.t) (u : Update) (s : state) :
  match NodesHandler_handle_update fuel nh u s with
  | Ok _ s' | Raise _ s' =>
      exists rest,
        log s' = log s ++ send_chat_action (effective_user_id u) :: rest
  | Abort _ => True
  end.
Proof.
  pose proof (handle_update_after_typing log_grows) as H.
  specialize (H log_grows_refl log_grows_trans u (fun _ => True)).
  match type of H with
  | ?P1 -> ?P2 -> ?P3 -> ?P4 -> ?P5 -> _ =>
      assert (H1 : P1) by (intros e s0; exists [e]; reflexivity);
      assert (H2 : P2) by (intros s0; apply log_grows_same; reflexivity);
      assert (H3 : P3)
        by (intros f us s0 _ _; apply log_grows_same; reflexivity);
      assert (H4 : P4)
        by (intros r n b s0 _; apply log_grows_same; reflexivity);
      assert (H5 : P5)
        by (intros r n b s0 _; apply log_grows_same; reflexivity)
  end.
  specialize (H H1 H2 H3 H4 H5). cbv beta in H.
  repeat match type of H with
         | (forall _ : _, True) -> _ => specialize (H (fun _ => I))
         end.
  specialize (H fuel nh s).
  destruct (NodesHandler_handle_update fuel nh u s) as [r s'|e s'|a];
    try exact I;
    destruct H as [rest Hl]; exists rest; rewrite Hl;
    cbn [log add_log set_registry]; rewrite <- app_assoc; reflexivity.
Qed.

(** ** The history is only pushed onto by the nodes *)

Lemma session_of_lookup user_id us s :
  registry s !! user_id = Some us -> session_of user_id s = us.
Proof. intros H. unfold session_of. rewrite H. reflexivity. Qed.

Lemma session_of_getitem user_id s :
  session_of user_id
    (set_registry (fst (UserStatusList.getitem user_id (registry s))) s)
  = session_of user_id s.
Proof.
  unfold session_of. cbn [registry set_registry].
  destruct (registry s !! user_id) as [us|] eqn:E.
  - rewrite (getitem_present _ _ _ E). cbn [fst]. rewrite E. reflexivity.
  - rewrite (getitem_absent _ _ E). cbn [fst].
    rewrite lookup_insert_eq. reflexivity.
Qed.

Lemma history_grows_refl user_id s : history_grows user_id s s.
Proof. split; [reflexivity|]. exists []. symmetry. apply app_nil_r. Qed.

Lemma history_grows_trans user_id s1 s2 s3 :
  history_grows user_id s1 s2 -> history_grows user_id s2 s3 ->
  history_grows user_id s1 s3.
Proof.
  intros [E1 [p1 H1]] [E2 [p2 H2]]. split; [congruence|].
  exists (p1 ++ p2). rewrite H2, H1, app_assoc. reflexivity.
Qed.

Lemma history_grows_same user_id s s' :
  session_of user_id s' = session_of user_id s -> history_grows user_id s s'.
Proof. intros H. unfold history_grows. rewrite H. apply history_grows_refl. Qed.

Lemma history_grows_update user_id f us s :
  pushes_only f ->
  registry s !! user_id = Some us ->
  history_grows user_id s
    (set_registry (<[user_id := f us]> (registry s)) s).
Proof.
  intros Hf Hus. unfold history_grows.
  rewrite (session_of_lookup _ us s Hus).
  rewrite (session_of_lookup user_id (f us))
    by (cbn [registry set_registry]; apply lookup_insert_eq).
  apply Hf.
Qed.

Lemma pushes_only_same f :
  (forall us, UserStatus.nodes_handler_entered (f us)
              = UserStatus.nodes_handler_entered us) ->
  (forall us, UserStatus.nodes_history (f us) = UserStatus.nodes_history us) ->
  pushes_only f.
Proof.
  intros H1 H2 us. split; [apply H1|].
  exists []. rewrite H2. symmetry. apply app_nil_r.
Qed.

Ltac history_grows_side :=
  first
    [ apply history_grows_refl
    | apply history_grows_trans
    | intros; apply history_grows_same; first [reflexivity|apply session_of_getitem]
    | intros; apply history_grows_update; assumption
    | intros; apply pushes_only_same; reflexivity
    | intros node us; split; [reflexivity|exists [node]; reflexivity] ].

Lemma Node_check_update_history_grows self u :
  respects (history_grows (effective_user_id u)) (Node_check_update self u).
Proof.
  apply respects_Node_check_update with (okf := pushes_only);
    history_grows_side.
Qed.

Lemma Node_handle_entry_history_grows fuel self u :
  respects (history_grows (effective_user_id u)) (Node_handle_entry fuel self u).
Proof.
  apply respects_Node_handle_entry with (okf := pushes_only);
    history_grows_side.
Qed.

Lemma Node_handle_update_history_grows fuel self u :
  respects (history_grows (effective_user_id u))
    (Node_handle_update fuel self u).
Proof.
  apply respects_Node_handle_update with (okf := pushes_only);
    history_grows_side.
Qed.

Lemma check_update_history_grows nh u :
  respects (history_grows (effective_user_id u))
    (NodesHandler_check_update nh u).
Proof.
  apply respects_check_update with (okf := pushes_only);
    history_grows_side.
Qed.

(** X4: the methods of a node ([check_update], [handle_entry],
    [handle_update], with every lifecycle they run), whether they return or
    raise, never change whether the user is entered and never remove or
    replace an element of the history: the history after is the history
    before with nodes pushed on top. *)
Theorem node_methods_only_push_history
    (fuel : nat) (self : node_ref) (u : Update) :
  respects (history_grows (effective_user_id u)) (Node_check_update self u) /\
  respects (history_grows (effective_user_id u))
    (Node_handle_entry fuel self u) /\
  respects (history_grows (effective_user_id u))
    (Node_handle_update fuel self u).
Proof.
  split; [apply Node_check_update_history_grows|].
  split; [apply Node_handle_entry_history_grows
         |apply Node_handle_update_history_grows].
Qed.

(** ** The root stays at the bottom of the history *)

Lemma respects_post {A} R (m : M A) s :
  respects R m -> post m s (fun _ s' => R s s').
Proof. intros H. specialize (H s). unfold post. destruct (m s); auto. Qed.

Lemma rooted_history_grows root user_id s s' :
  history_grows user_id s s' -> rooted root user_id s -> rooted root user_id s'.
Proof.
  intros [E [p H]] Hr He. rewrite E in He.
  destruct (Hr He) as [above Ha]. exists (above ++ p). rewrite H, Ha.
  reflexivity.
Qed.

Lemma rooted_same root user_id s s' :
  session_of user_id s' = session_of user_id s ->
  rooted root user_id s -> rooted root user_id s'.
Proof. intros H. unfold rooted. rewrite H. auto. Qed.

Lemma rooted_update root user_id (us' : UserStatus.t) s :
  (UserStatus.nodes_handler_entered us' = true ->
   exists above, UserStatus.nodes_history us' = root :: above) ->
  rooted root user_id (set_registry (<[user_id := us']> (registry s)) s).
Proof.
  intros H. unfold rooted.
  rewrite (session_of_lookup user_id us')
    by (cbn [registry set_registry]; apply lookup_insert_eq).
  exact H.
Qed.

Lemma rooted_lookup root user_id us s :
  rooted root user_id s ->
  registry s !! user_id = Some us ->
  UserStatus.nodes_handler_entered us = true ->
  exists above, UserStatus.nodes_history us = root :: above.
Proof.
  intros Hr Hus. unfold rooted in Hr.
  rewrite (session_of_lookup _ _ _ Hus) in Hr. exact Hr.
Qed.

Lemma back_keeps_bottom root above n h' :
  NodesHistory.back (root :: above) = (inr n, h') ->
  exists above', h' = root :: above'.
Proof.
  unfold NodesHistory.back. destruct above as [|x above].
  - cbn. discriminate.
  - change (removelast (root :: x :: above))
      with (root :: removelast (x :: above)).
    destruct (last (root :: removelast (x :: above))); intros H;
      [|discriminate].
    injection H as _ <-. eauto.
Qed.

Lemma handle_update_rooted fuel nh u s :
  rooted (NodesHandler.root_node nh) (effective_user_id u) s ->
  post (NodesHandler_handle_update fuel nh u) s
       (fun _ s' => rooted (NodesHandler.root_node nh) (effective_user_id u) s').
Proof.
  set (uid := effective_user_id u). set (root := NodesHandler.root_node nh).
  intros Hr. unfold NodesHandler_handle_update. fold uid.
  apply post_bind, post_getitem. intros _.
  apply post_bind, post_emit.
  match goal with |- post _ ?st _ => assert (H2 : rooted root uid st) end.
  { eapply rooted_same; [|exact Hr].
    unfold session_of. cbn [registry add_log].
    apply (session_of_getitem uid s). }
  apply post_bind, post_user_status. intros us Hus.
  apply post_bind, post_deref. intros handler _.
  apply post_bind.
  eapply post_conseq with (P := fun _ s' => rooted root uid s').
  { destruct handler as [h|n|l].
    - apply post_handler. eapply rooted_same; [|exact H2]. reflexivity.
    - eapply post_conseq;
        [apply respects_post, Node_handle_update_history_grows|].
      intros ? s3 H3. eapply rooted_history_grows; [exact H3|exact H2].
    - apply post_raise. }
  clear s Hr H2 us Hus. intros handle_result s Hr. cbv beta.
  apply post_bind.
  eapply post_conseq with (P := fun _ s' => rooted root uid s');
    [|intros ? s' H'; apply post_ret; exact H'].
  destruct (current_handler_in handler (NodesHandler.entry_handlers nh)
            || current_handler_in handler (NodesHandler.back_handlers nh)).
  - apply post_bind.
    eapply post_conseq with (P := fun _ s' => rooted root uid s').
    { destruct (current_handler_in handler (NodesHandler.entry_handlers nh)).
      - apply post_bind, post_update_user_status. intros us1 _.
        apply post_bind, post_update_user_status. intros us2 _.
        apply post_update_user_status. intros us3 _.
        apply rooted_update. intros _. exists []. reflexivity.
      - unfold NodesHistory_back.
        apply post_bind, post_bind, post_user_status. intros usb Hb.
        apply post_bind, post_update_user_status. intros usb' Hb'.
        rewrite Hb in Hb'. injection Hb' as <-.
        destruct (NodesHistory.back (UserStatus.nodes_history usb))
          as [[e|n] h'] eqn:Eb; cbn [fst snd]; [apply post_raise|].
        apply post_ret.
        apply post_bind, post_user_status. intros us1 H1.
        cbn [registry set_registry] in H1. rewrite lookup_insert_eq in H1.
        injection H1 as <-.
        apply post_bind, post_update_user_status. intros us2 H2.
        cbn [registry set_registry] in H2. rewrite lookup_insert_eq in H2.
        injection H2 as <-.
        apply post_update_user_status. intros us3 H3.
        cbn [registry set_registry] in H3. rewrite lookup_insert_eq in H3.
        injection H3 as <-.
        apply rooted_update. norm_us. intros He.
        destruct (rooted_lookup root uid usb s Hr Hb He) as [above Ha].
        rewrite Ha in Eb. eapply back_keeps_bottom. exact Eb. }
    clear s Hr. intros ? s Hr. cbv beta.
    apply post_bind, post_user_status. intros us _.
    apply post_bind, post_deref. intros dn _.
    apply post_bind, post_get_node. intros d _.
    apply post_bind.
    eapply post_conseq with (P := fun _ s' => rooted root uid s').
    { destruct (last (Node.entry_handlers d)); [|exact Hr].
      apply post_bind, post_handler. apply post_ret.
      eapply rooted_same; [|exact Hr]. reflexivity. }
    clear s Hr. intros ? s Hr. cbv beta.
    apply post_bind, post_deref. intros cur _.
    eapply post_conseq;
      [apply respects_post, Node_handle_entry_history_grows|].
    intros ? s' H'. eapply rooted_history_grows; [exact H'|exact Hr].
  - destruct (current_handler_in handler (NodesHandler.exit_handlers nh));
      [|exact Hr].
    apply post_update_user_status. intros us _.
    apply rooted_update. cbn. discriminate.
Qed.

(** X5: if, while the user is entered, the history is not empty and has the
    router's root node at its bottom, the same holds after every update the
    router accepts and handles to the end. *)
Theorem dispatch_keeps_root_at_bottom
    (fuel : nat) (nh : NodesHandler.t) (u : Update) (s s' : state)
    (accepted : bool) :
  rooted (NodesHandler.root_node nh) (effective_user_id u) s ->
  dispatch fuel nh u s = Ok accepted s' ->
  rooted (NodesHandler.root_node nh) (effective_user_id u) s'.
Proof.
  intros Hr E.
  apply (post_Ok (dispatch fuel nh u) s
           (fun _ st => rooted (NodesHandler.root_node nh)
                          (effective_user_id u) st) accepted s');
    [|exact E].
  unfold dispatch. apply post_bind.
  eapply post_conseq;
    [apply respects_post, check_update_history_grows|].
  intros b s1 H1. cbv beta in H1 |- *.
  assert (Hr1 : rooted (NodesHandler.root_node nh) (effective_user_id u) s1)
    by (eapply rooted_history_grows; eassumption).
  destruct b; [|exact Hr1].
  apply post_bind.
  eapply post_conseq; [apply handle_update_rooted; exact Hr1|].
  intros ? s2 H2. exact H2.
Qed.

Lemma dispatch_keeps_root_at_bottom_witness :
  exists s',
    dispatch 1 WaitExample.router WaitExample.u_back WaitExample.s0
    = Ok true s' /\
    rooted 0%nat 7 s'.
Proof.
  eexists. split; [vm_compute; reflexivity|].
  apply (dispatch_keeps_root_at_bottom 1 WaitExample.router WaitExample.u_back
           WaitExample.s0 _ true).
  - intros _. exists [1; 2]%nat. reflexivity.
  - vm_compute. reflexivity.
Defined.

(** ** What the sending methods send *)

Lemma logged_nil s : logged [] s = s.
Proof. unfold logged. rewrite app_nil_r. destruct s; reflexivity. Qed.

Lemma logged_logged l1 l2 s : logged l2 (logged l1 s) = logged (l1 ++ l2) s.
Proof. unfold logged. cbn [registry nodes log]. rewrite app_assoc. reflexivity. Qed.

Lemma add_log_logged e s : add_log e s = logged [e] s.
Proof. reflexivity. Qed.

Lemma reply_item_eq parse_mode (caption : option pyobj) (obj : pyobj)
    markup silent s :
  ((match obj with
    | PStr t => emit (reply_text t markup parse_mode silent)
    | PTg Audio i => emit (reply_media Audio i caption markup silent)
    | PTg Contact i => emit (reply_media Contact i None markup silent)
    | PTg Document i => emit (reply_media Document i caption markup silent)
    | PTg Location i => emit (reply_media Location i None markup silent)
    | _ => ret tt
    end);;;
   match obj with
   | PTg PhotoSize i => emit (reply_media PhotoSize i caption markup silent)
   | PTg Sticker i => emit (reply_media Sticker i None markup silent)
   | PTg Venue i => emit (reply_media Venue i None markup silent)
   | PTg Video i => emit (reply_media Video i caption markup silent)
   | PTg VideoNote i => emit (reply_media VideoNote i None markup silent)
   | PTg Voice i => emit (reply_media Voice i caption markup silent)
   | _ => ret tt
   end) s
  = Ok tt (logged (sent_item parse_mode obj caption markup silent) s).
Proof.
  destruct obj as [| |[] ?| |]; unfold bind, emit, ret; cbn [sent_item];
    rewrite ?logged_nil; reflexivity.
Qed.

Lemma reply_object_sent parse_mode o markup silent s :
  object_ok o = true ->
  Node_reply_object parse_mode o markup silent s
  = Ok tt (logged (sent_object parse_mode o markup silent) s).
Proof.
  intros H. unfold Node_reply_object.
  destruct o as [| | | items | items];
    try (rewrite (bind_Ok _ _ _ _ _ eq_refl); apply reply_item_eq).
  - simpl in H. destruct items as [|o0 [|o1 [|? ?]]]; try discriminate.
    rewrite supports_caption_class in H. rewrite H.
    rewrite (bind_Ok _ _ _ _ _ eq_refl). apply reply_item_eq.
  - simpl in H. destruct items as [|o0 [|o1 [|? ?]]]; try discriminate.
    rewrite supports_caption_class in H. rewrite H.
    rewrite (bind_Ok _ _ _ _ _ eq_refl). apply reply_item_eq.
Qed.

Lemma reply_object_not_ok parse_mode o markup silent s :
  object_ok o = false ->
  Node_reply_object parse_mode o markup silent s = Raise AttributeError s.
Proof.
  intros H. unfold Node_reply_object, bind.
  destruct o as [| | | items | items]; try discriminate;
    simpl in H; destruct items as [|o0 [|o1 [|? ?]]]; try reflexivity;
    rewrite supports_caption_class in H; rewrite H; reflexivity.
Qed.

Lemma sent_item_length parse_mode o caption markup silent :
  (length (sent_item parse_mode o caption markup silent) <= 1)%nat.
Proof. destruct o as [| |[] ?| |]; cbn; lia. Qed.

(** X6: handed a value that is not a malformed pair, [reply_object] returns
    and changes nothing but the log, to which it adds at most one call: the
    [reply_*] call of the object's class, with the markup and the silent flag
    it was given, the parse mode for text only and the caption only from a
    pair; for [None] and for an object of no supported class it adds
    nothing. *)
Theorem reply_object_makes_one_call
    (parse_mode : string) (o : pyobj) (markup : option reply_markup)
    (silent : bool) (s : state) :
  object_ok o = true ->
  Node_reply_object parse_mode o markup silent s
  = Ok tt (logged (sent_object parse_mode o markup silent) s) /\
  (length (sent_object parse_mode o markup silent) <= 1)%nat /\
  (o = PNone \/ (exists i, o = PTg OtherObject i) ->
   sent_object parse_mode o markup silent = []).
Proof.
  intros H. split; [apply reply_object_sent; exact H|].
  split.
  - destruct o as [| | | [|? [|? [|? ?]]] | [|? [|? [|? ?]]]];
      cbn [sent_object]; apply sent_item_length.
  - intros [->|[i ->]]; reflexivity.
Qed.

Lemma reply_object_makes_one_call_witness :
  Node_reply_object MARKDOWN (PTuple [PTg Voice 3%nat; PStr "listen"])
    (Some ReplyKeyboardRemove) true {| registry := ∅; nodes := ∅; log := [] |}
  = Ok tt {| registry := ∅; nodes := ∅;
             log := [reply_media Voice 3%nat (Some (PStr "listen"))
                       (Some ReplyKeyboardRemove) true] |}.
Proof.
  apply (reply_object_makes_one_call MARKDOWN
           (PTuple [PTg Voice 3%nat; PStr "listen"])
           (Some ReplyKeyboardRemove) true
           {| registry := ∅; nodes := ∅; log := [] |}).
  reflexivity.
Defined.

Lemma reply_list_cons parse_mode user_id o o' rest markup :
  reply_list parse_mode user_id (o :: o' :: rest) markup
  = (Node_reply_object parse_mode o None true;;;
     emit (send_chat_action user_id);;;
     reply_list parse_mode user_id (o' :: rest) markup).
Proof. reflexivity. Qed.

Lemma reply_list_sent parse_mode user_id front final markup s :
  forallb object_ok front = true ->
  reply_list parse_mode user_id (front ++ [final]) markup s
  = Node_reply_object parse_mode final markup false
      (logged (sent_silently parse_mode user_id front) s).
Proof.
  revert s. induction front as [|o front IH]; intros s Hall.
  - cbn. rewrite logged_nil. reflexivity.
  - simpl in Hall. apply andb_true_iff in Hall as [Ho Hfront].
    change ((o :: front) ++ [final]) with (o :: (front ++ [final])).
    destruct (front ++ [final]) as [|o' rest] eqn:E.
    { destruct front; discriminate. }
    rewrite reply_list_cons. rewrite <- E in IH |- *.
    rewrite (bind_Ok _ _ _ _ _ (reply_object_sent parse_mode o None true s Ho)).
    erewrite bind_Ok by reflexivity.
    rewrite IH by exact Hfront.
    rewrite add_log_logged, !logged_logged.
    cbn [sent_silently flat_map]. rewrite <- app_assoc. reflexivity.
Qed.

(** X7: [reply] on a list whose elements are all well formed sends every
    element in order: each one before the last silently and without markup,
    followed by the typing indicator, and the last one with the markup and
    with notification; nothing else changes. *)
Theorem reply_sends_list_in_order
    (parse_mode : string) (user_id : Z) (front : list pyobj) (final : pyobj)
    (markup : option reply_markup) (s : state) :
  forallb object_ok (front ++ [final]) = true ->
  Node_reply parse_mode user_id (PList (front ++ [final])) markup s
  = Ok tt (logged (sent_silently parse_mode user_id front
                   ++ sent_object parse_mode final markup false) s).
Proof.
  intros H. rewrite forallb_app in H. apply andb_true_iff in H as [Hf Hl].
  cbn in Hl. rewrite andb_true_r in Hl.
  cbn [Node_reply]. rewrite reply_list_sent by exact Hf.
  rewrite reply_object_sent by exact Hl.
  rewrite logged_logged. reflexivity.
Qed.

Lemma reply_sends_list_in_order_witness :
  Node_reply MARKDOWN 7 (PList [PStr "one"; PTg Sticker 4%nat; PStr "two"])
    (Some ReplyKeyboardRemove) {| registry := ∅; nodes := ∅; log := [] |}
  = Ok tt {| registry := ∅; nodes := ∅;
             log := [reply_text "one" None MARKDOWN true;
                     send_chat_action 7;
                     reply_media Sticker 4%nat None None true;
                     send_chat_action 7;
                     reply_text "two" (Some ReplyKeyboardRemove) MARKDOWN
                       false] |}.
Proof.
  apply (reply_sends_list_in_order MARKDOWN 7
           [PStr "one"; PTg Sticker 4%nat] (PStr "two")
           (Some ReplyKeyboardRemove)
           {| registry := ∅; nodes := ∅; log := [] |}).
  reflexivity.
Defined.

Lemma reply_list_stops parse_mode user_id good bad rest markup s :
  forallb object_ok good = true ->
  object_ok bad = false ->
  reply_list parse_mode user_id (good ++ bad :: rest) markup s
  = Raise AttributeError (logged (sent_silently parse_mode user_id good) s).
Proof.
  revert s. induction good as [|o good IH]; intros s Hall Hbad.
  - cbn [app sent_silently flat_map]. rewrite logged_nil.
    destruct rest as [|o' rest'].
    + cbn [reply_list]. apply reply_object_not_ok. exact Hbad.
    + cbn [reply_list]. apply bind_Raise, reply_object_not_ok. exact Hbad.
  - simpl in Hall. apply andb_true_iff in Hall as [Ho Hgood].
    change ((o :: good) ++ bad :: rest) with (o :: (good ++ bad :: rest)).
    destruct (good ++ bad :: rest) as [|o' rest'] eqn:E.
    { destruct good; discriminate. }
    rewrite reply_list_cons. rewrite <- E in IH |- *.
    rewrite (bind_Ok _ _ _ _ _ (reply_object_sent parse_mode o None true s Ho)).
    erewrite bind_Ok by reflexivity.
    rewrite IH by assumption.
    rewrite add_log_logged, !logged_logged.
    cbn [sent_silently flat_map]. rewrite <- app_assoc. reflexivity.
Qed.

(** X8: [reply] does not check a list before it starts to send.  When an
    element is a malformed pair, the elements before it have been sent
    (silently, each followed by the typing indicator) when [AttributeError]
    is raised, and nothing after it is sent; on the empty list [reply]
    raises [IndexError] and sends nothing. *)
Theorem reply_stops_at_malformed_element
    (parse_mode : string) (user_id : Z) (good : list pyobj) (bad : pyobj)
    (rest : list pyobj) (markup : option reply_markup) (s : state) :
  forallb object_ok good = true ->
  object_ok bad = false ->
  Node_reply parse_mode user_id (PList (good ++ bad :: rest)) markup s
  = Raise AttributeError (logged (sent_silently parse_mode user_id good) s) /\
  Node_reply parse_mode user_id (PList []) markup s = Raise IndexError s.
Proof.
  intros Hg Hb. split; [|reflexivity].
  cbn [Node_reply]. apply reply_list_stops; assumption.
Qed.

Lemma reply_stops_at_malformed_element_witness :
  Node_reply MARKDOWN 7
    (PList [PStr "one"; PTuple [PStr "not a media object"; PStr "caption"];
            PStr "two"])
    None {| registry := ∅; nodes := ∅; log := [] |}
  = Raise AttributeError
      {| registry := ∅; nodes := ∅;
         log := [reply_text "one" None MARKDOWN true; send_chat_action 7] |}.
Proof.
  apply (reply_stops_at_malformed_element MARKDOWN 7 [PStr "one"]
           (PTuple [PStr "not a media object"; PStr "caption"])
           [PStr "two"] None {| registry := ∅; nodes := ∅; log := [] |});
    reflexivity.
Defined.

(** ** Adding a button to a keyboard *)

Lemma add_keyboard_button_snoc (rows : KEYBOARD) (row : list button)
    (btn : button) (max_row_len : nat) :
  add_keyboard_button (rows ++ [row]) btn max_row_len
  = if (length row <? max_row_len)%nat
    then rows ++ [row ++ [btn]]
    else rows ++ [row] ++ [[btn]].
Proof.
  unfold add_keyboard_button. rewrite last_snoc, removelast_last.
  destruct (length row <? max_row_len)%nat; [reflexivity|].
  rewrite <- app_assoc. reflexivity.
Qed.




Lemma kb_row_at_store_ne h x o r :
  x <> r ->
  KeyboardHeap.row_at (KeyboardHeap.store x o h) r = KeyboardHeap.row_at h r.
Proof.
  intros Hne. unfold KeyboardHeap.row_at. cbn.
  rewrite lookup_insert_ne by exact Hne. reflexivity.
Qed.

Lemma kb_rows_read_after h h' rs kb :
  Forall2 (fun r bs => KeyboardHeap.row_at h r = Some bs) rs kb ->
  (forall r, r ∈ rs -> KeyboardHeap.row_at h' r = KeyboardHeap.row_at h r) ->
  Forall2 (fun r bs => KeyboardHeap.row_at h' r = Some bs) rs kb.
Proof.
  intros F. induction F as [|r bs rs' kb' Hr _ IH]; intros H; [constructor|].
  constructor.
  - rewrite H by (apply elem_of_cons; auto). exact Hr.
  - apply IH. intros x Hx. apply H. apply elem_of_cons. auto.
Qed.

(** X10: on a keyboard object whose rows are distinct row objects,
    [add_keyboard_button] succeeds and the keyboard, updated in place, reads
    as the value that [add_keyboard_button] on keyboard values gives for
    what it read before. *)
Theorem add_keyboard_button_in_place_reads_as_value
    (h : KeyboardHeap.heap) (l : KeyboardHeap.loc) (rs : list KeyboardHeap.loc)
    (kb : KEYBOARD) (btn : button) (max_row_len : nat) :
  KeyboardHeap.wf h ->
  KeyboardHeap.keyboard_at h l = Some rs ->
  NoDup rs ->
  KeyboardHeap.read_keyboard h l = Some kb ->
  exists h',
    KeyboardHeap.add_keyboard_button l btn max_row_len h = Some h' /\
    KeyboardHeap.read_keyboard h' l
    = Some (add_keyboard_button kb btn max_row_len).
Proof.
  intros W Hk Hnd Hread.
  unfold KeyboardHeap.read_keyboard in Hread. rewrite Hk in Hread.
  cbn [mbind option_bind] in Hread. apply mapM_Some in Hread.
  assert (Hl : (l < KeyboardHeap.next_loc h)%nat)
    by (eapply kb_keyboard_at_lt; eauto).
  assert (Hrow_l : forall r, r ∈ rs -> r <> l /\ (r < KeyboardHeap.next_loc h)%nat).
  { intros r Hin.
    destruct (list_elem_of_lookup_1 _ _ Hin) as [i Hi].
    destruct (Forall2_lookup_l _ _ _ _ _ Hread Hi) as (bs & _ & Hbs).
    split; [|eapply kb_row_at_lt; eauto].
    intros ->. unfold KeyboardHeap.row_at in Hbs.
    unfold KeyboardHeap.keyboard_at in Hk.
    destruct (KeyboardHeap.objs h !! l) as [[?|?]|]; discriminate. }
  assert (Happend :
    exists h',
      Some (KeyboardHeap.store l
              (KeyboardHeap.Keyboard
                 (rs ++ [snd (KeyboardHeap.alloc (KeyboardHeap.Row [btn]) h)]))
              (fst (KeyboardHeap.alloc (KeyboardHeap.Row [btn]) h)))
      = Some h' /\
      KeyboardHeap.read_keyboard h' l = Some (kb ++ [[btn]])).
  { eexists. split; [reflexivity|].
    unfold KeyboardHeap.read_keyboard, KeyboardHeap.keyboard_at.
    cbn [KeyboardHeap.objs KeyboardHeap.store KeyboardHeap.alloc fst snd].
    rewrite lookup_insert_eq. cbn [mbind option_bind].
    apply mapM_Some. apply Forall2_app.
    - eapply kb_rows_read_after; [exact Hread|].
      intros r Hin. destruct (Hrow_l r Hin) as [Hne Hlt].
      unfold KeyboardHeap.row_at.
      cbn [KeyboardHeap.objs KeyboardHeap.store KeyboardHeap.alloc fst snd].
      rewrite lookup_insert_ne by congruence.
      rewrite lookup_insert_ne by lia. reflexivity.
    - constructor; [|constructor].
      unfold KeyboardHeap.row_at.
      cbn [KeyboardHeap.objs KeyboardHeap.store KeyboardHeap.alloc fst snd].
      rewrite lookup_insert_ne by lia.
      rewrite lookup_insert_eq. reflexivity. }
  unfold KeyboardHeap.add_keyboard_button. rewrite Hk.
  cbn [mbind option_bind].
  destruct (last rs) as [r|] eqn:El.
  - apply last_Some in El as [rs0 ->].
    apply Forall2_app_inv_l in Hread as (kb0 & kbl & F0 & Fl & ->).
    inversion Fl as [|? bs ? ? Hbs Fnil]; subst. inversion Fnil; subst.
    rewrite Hbs. cbn [mbind option_bind].
    rewrite add_keyboard_button_snoc.
    destruct (length bs <? max_row_len)%nat.
    + eexists. split; [reflexivity|].
      assert (Hne : r <> l).
      { apply Hrow_l. apply elem_of_app. right. apply list_elem_of_here. }
      unfold KeyboardHeap.read_keyboard, KeyboardHeap.keyboard_at.
      cbn [KeyboardHeap.objs KeyboardHeap.store].
      rewrite lookup_insert_ne by exact Hne.
      unfold KeyboardHeap.keyboard_at in Hk. rewrite Hk.
      cbn [mbind option_bind].
      apply mapM_Some. apply Forall2_app.
      * eapply kb_rows_read_after; [exact F0|].
        intros x Hx. apply kb_row_at_store_ne.
        apply NoDup_app in Hnd as (_ & Hdis & _).
        intros ->. apply (Hdis x Hx). apply list_elem_of_here.
      * constructor; [|constructor].
        unfold KeyboardHeap.row_at. cbn [KeyboardHeap.objs KeyboardHeap.store].
        rewrite lookup_insert_eq. reflexivity.
    + destruct Happend as (h' & E & R). exists h'. split; [exact E|].
      rewrite R. rewrite <- app_assoc. reflexivity.
  - apply last_None in El. subst rs. inversion Hread; subst.
    exact Happend.
Qed.

Lemma add_keyboard_button_in_place_reads_as_value_witness :
  exists h',
    KeyboardHeap.add_keyboard_button 2%nat (BStr "back") 2 KeyboardExample.h0
    = Some h' /\
    KeyboardHeap.read_keyboard h' 2%nat
    = Some [[BStr "a"; BStr "b"]; [BStr "c"; BStr "back"]].
Proof.
  apply (add_keyboard_button_in_place_reads_as_value KeyboardExample.h0 2%nat
           [0; 1]%nat KeyboardExample.kb (BStr "back") 2).
  - intros a Ha. cbn in *.
    rewrite !lookup_insert_ne by lia. apply lookup_singleton_ne. lia.
  - reflexivity.
  - apply NoDup_cons. split; [|apply NoDup_singleton].
    intros H. apply list_elem_of_singleton in H. discriminate.
  - reflexivity.
Defined.

(** ** Construction of the node classes *)

Lemma SwitchNode_init_remove_keyboard store entry_handlers hello switch_nodes
    keyboard_from_names remove_keyboard goodbye switch_on_this allow_back n :
  SwitchNode_init store entry_handlers hello switch_nodes keyboard_from_names
    remove_keyboard goodbye switch_on_this allow_back = Some n ->
  Node.remove_keyboard n = remove_keyboard.
Proof.
  unfold SwitchNode_init.
  destruct (mapM (mapM (fun r => store !! r)) switch_nodes) as [rows|];
    [|discriminate].
  cbn [mbind option_bind]. intros H. injection H as <-. reflexivity.
Qed.

(** X11: a [NamedSwitchNode] does not keep the [remove_keyboard] argument it
    is constructed with: the node built is the same whatever the argument
    is, its [remove_keyboard] attribute is false, and so the markup that its
    entry lifecycle builds for the greeting is never [ReplyKeyboardRemove]. *)
Theorem NamedSwitchNode_ignores_remove_keyboard
    (store : gmap node_ref Node.t) (entry_hid : nat) (name : string)
    (entry_callback : option (Update -> handle_result)) (hello : pyobj)
    (switch_nodes : list (list node_ref)) (keyboard_from_names : bool)
    (remove_keyboard : bool) (goodbye : pyobj)
    (switch_on_this allow_back : bool) (n : Node.t) :
  NamedSwitchNode_init store entry_hid name entry_callback hello switch_nodes
    keyboard_from_names remove_keyboard goodbye switch_on_this allow_back
  = Some n ->
  Node.remove_keyboard n = false /\
  NamedSwitchNode_init store entry_hid name entry_callback hello switch_nodes
    keyboard_from_names (negb remove_keyboard) goodbye switch_on_this
    allow_back
  = Some n /\
  forall history : NodesHistory.t,
    entry_reply_markup n history <> Some ReplyKeyboardRemove.
Proof.
  intros H.
  assert (Hrk : Node.remove_keyboard n = false).
  { unfold NamedSwitchNode_init in H.
    cbn [NamedNode_init with_cls Node_init Node.entry_handlers Node.hello
         Node.goodbye Node.switch_on_this Node.allow_back] in H.
    match type of H with
    | (mbind _ ?m) = _ => destruct m as [sw|] eqn:E
    end; [|discriminate].
    cbn [mbind option_bind] in H. injection H as <-.
    cbn [with_cls Node.remove_keyboard].
    apply (SwitchNode_init_remove_keyboard _ _ _ _ _ _ _ _ _ _ E). }
  split; [exact Hrk|]. split; [exact H|].
  intros history. unfold entry_reply_markup. rewrite Hrk.
  destruct (keyboard_truthy (Node.reply_keyboard n)).
  - destruct (Node.allow_back n && NodesHistory.can_back history
              && str_truthy (Node.back_str n)); discriminate.
  - destruct (keyboard_truthy (Node.inline_keyboard n)); discriminate.
Qed.

Lemma NamedSwitchNode_ignores_remove_keyboard_witness :
  exists n,
    NamedSwitchNode_init MenuExample.children 20 "menu" None (PStr "choose")
      [[1; 3]%nat] true true PNone true true = Some n /\
    Node.remove_keyboard n = false /\
    entry_reply_markup n [0%nat]
    = Some (ReplyKeyboardMarkup [[BStr "x"; BStr "z"]]).
Proof.
  eexists. split; [reflexivity|].
  split; [|reflexivity].
  eapply (NamedSwitchNode_ignores_remove_keyboard MenuExample.children 20
            "menu" None (PStr "choose") [[1; 3]%nat] true true PNone true
            true).
  reflexivity.
Defined.

(** ** The router and users it has not seen *)

Lemma getitem_absent_eq user_id s :
  registry s !! user_id = None ->
  user_status_list_getitem true user_id s
  = Ok tt (set_registry (<[user_id := UserStatus.init]> (registry s)) s).
Proof.
  intros H. unfold user_status_list_getitem.
  rewrite (getitem_absent _ _ H). reflexivity.
Qed.

(** X12: [check_update] registers every user it is asked about.  For a user
    without a session it creates a fresh one, tests the entry handlers only,
    and leaves the fresh session in the registry: with the accepting entry
    handler recorded when it returns true, and untouched when it returns
    false. *)
Theorem check_update_registers_unknown_user
    (nh : NodesHandler.t) (u : Update) (s : state) :
  registry s !! effective_user_id u = None ->
  NodesHandler_check_update nh u s
  = match first_match u (NodesHandler.entry_handlers nh) with
    | Some h =>
        Ok true
          (set_registry
             (<[effective_user_id u :=
                  UserStatus.set_current_handler (Some (HHandler h))
                    UserStatus.init]> (registry s)) s)
    | None =>
        Ok false
          (set_registry
             (<[effective_user_id u := UserStatus.init]> (registry s)) s)
    end.
Proof.
  intros H. unfold NodesHandler_check_update.
  rewrite (bind_Ok _ _ _ _ _ (getitem_absent_eq _ _ H)).
  erewrite bind_Ok
    by (apply user_status_eq; cbn [registry set_registry];
        apply lookup_insert_eq).
  cbn [UserStatus.nodes_handler_entered UserStatus.init negb orb].
  destruct (first_match u (NodesHandler.entry_handlers nh)) as [h|].
  - unfold set_current_handler.
    erewrite bind_Ok
      by (apply update_user_status_eq; cbn [registry set_registry];
          apply lookup_insert_eq).
    unfold ret, set_registry. cbn [registry nodes log].
    rewrite insert_insert_eq. reflexivity.
  - reflexivity.
Qed.

Lemma check_update_registers_unknown_user_witness :
  NodesHandler_check_update WaitExample.router
    {| effective_user_id := 8; text := "hello" |} WaitExample.s0
  = Ok false
      (set_registry (<[8 := UserStatus.init]> (registry WaitExample.s0))
         WaitExample.s0).
Proof.
  apply (check_update_registers_unknown_user WaitExample.router
           {| effective_user_id := 8; text := "hello" |} WaitExample.s0).
  reflexivity.
Defined.

(** X13: [handle_update] for a user for whom no handler has been elected (a
    user without a session, or a session in which [check_update] has never
    accepted) creates the session if there is none, sends the typing
    indicator and raises [AttributeError]; nothing else changes. *)
Theorem handle_update_without_elected_handler_raises
    (fuel : nat) (nh : NodesHandler.t) (u : Update) (s : state) :
  match registry s !! effective_user_id u with
  | Some us => UserStatus.current_handler us = None
  | None => True
  end ->
  NodesHandler_handle_update fuel nh u s
  = Raise AttributeError
      (add_log (send_chat_action (effective_user_id u))
         (set_registry
            (fst (UserStatusList.getitem (effective_user_id u) (registry s)))
            s)).
Proof.
  intros H. unfold NodesHandler_handle_update.
  destruct (registry s !! effective_user_id u) as [us|] eqn:E.
  - rewrite (getitem_present _ _ _ E). cbn [fst].
    step. step. step. rewrite H. reflexivity.
  - rewrite (getitem_absent _ _ E). cbn [fst].
    rewrite (bind_Ok _ _ _ _ _ (getitem_absent_eq _ _ E)).
    erewrite bind_Ok by reflexivity.
    erewrite bind_Ok
      by (apply user_status_eq; cbn [registry set_registry add_log];
          apply lookup_insert_eq).
    reflexivity.
Qed.

Lemma handle_update_without_elected_handler_raises_witness :
  NodesHandler_handle_update 1 WaitExample.router
    {| effective_user_id := 8; text := "hello" |} WaitExample.s0
  = Raise AttributeError
      {| registry := <[8 := UserStatus.init]> (registry WaitExample.s0);
         nodes := nodes WaitExample.s0;
         log := [send_chat_action 8] |}.
Proof.
  apply (handle_update_without_elected_handler_raises 1 WaitExample.router
           {| effective_user_id := 8; text := "hello" |} WaitExample.s0).
  exact I.
Defined.

(** ** The precedence protocol of [check_update] *)

Lemma spec_level_not_entered nh c us u :
  UserStatus.nodes_handler_entered us = false ->
  spec_level nh c us u
  = match first_match u (NodesHandler.entry_handlers nh) with
    | Some h => AtEntry h
    | None => NoLevel
    end.
Proof.
  intros H. unfold spec_level. rewrite H. cbn [negb orb].
  destruct (first_match u (NodesHandler.entry_handlers nh)); reflexivity.
Qed.

(** X14: [check_update] tests the levels in the order entry (only for a user
    who is not entered, or when re-entry is allowed), and then, only for an
    entered user: back (only when the current history node allows back and
    the history can go back), exit, current node, fallback.  It returns true
    at the first level with an accepting matcher and writes to the session
    only what that level records (the accepting handler; the current node
    with the handler it elected; at the exit level the whole list of exit
    handlers); when no level accepts it returns false and the state is as
    before. *)
Theorem check_update_follows_precedence
    (nh : NodesHandler.t) (u : Update) (us : UserStatus.t) (cur : node_ref)
    (c : Node.t) (s : state) :
  registry s !! effective_user_id u = Some us ->
  (UserStatus.nodes_handler_entered us = true ->
   NodesHistory.current (UserStatus.nodes_history us) = Some cur /\
   nodes s !! cur = Some c /\
   Node.user_status_list c = true) ->
  NodesHandler_check_update nh u s
  = match spec_level nh c us u with
    | NoLevel => Ok false s
    | lv =>
        Ok true (set_registry
                   (<[effective_user_id u := recorded nh cur lv us]>
                      (registry s)) s)
    end.
Proof.
  intros Hus Hent.
  destruct (UserStatus.nodes_handler_entered us) eqn:E.
  - destruct (Hent eq_refl) as (Hcur & Hc & Hb).
    apply check_update_entered; assumption.
  - rewrite (check_update_not_entered nh u us s Hus E).
    rewrite (spec_level_not_entered nh c us u E).
    destruct (first_match u (NodesHandler.entry_handlers nh)); reflexivity.
Qed.

Lemma check_update_follows_precedence_witness :
  NodesHandler_check_update WaitExample.router WaitExample.u_back
    WaitExample.s0
  = Ok true
      (set_registry
         (<[7 := UserStatus.set_current_handler
                   (Some (HHandler WaitExample.h_back)) WaitExample.session]>
            (registry WaitExample.s0)) WaitExample.s0).
Proof.
  apply (check_update_follows_precedence WaitExample.router WaitExample.u_back
           WaitExample.session 2%nat WaitExample.node_c WaitExample.s0).
  - reflexivity.
  - intros _. repeat split; reflexivity.
Defined.

(** ** Nodes that no router has bound *)

(** X15: a node whose [user_status_list] is still [None] (it is neither the
    root of a router nor has a predecessor handed it the registry) cannot be
    used: [check_update], [handle_update], [handle_entry] and
    [handle_inside] (of [Node] and of [SwitchNode]) all raise [TypeError] on
    their first statement, before anything has been changed or sent. *)
Theorem unbound_node_raises_TypeError
    (fuel : nat) (self : node_ref) (u : Update) (n : Node.t) (s : state) :
  nodes s !! self = Some n ->
  Node.user_status_list n = false ->
  Node_check_update self u s = Raise TypeError s /\
  Node_handle_update fuel self u s = Raise TypeError s /\
  Node_handle_entry (S fuel) self u s = Raise TypeError s /\
  Node_handle_inside fuel self u s = Raise TypeError s /\
  SwitchNode_handle_inside fuel self u s = Raise TypeError s /\
  handle_inside fuel self u s = Raise TypeError s.
Proof.
  intros Hn Hb.
  assert (Hi : Node_handle_inside fuel self u s = Raise TypeError s).
  { unfold Node_handle_inside, Node_handle_inside_body.
    step_get_node Hn. rewrite Hb. reflexivity. }
  assert (Hs : SwitchNode_handle_inside fuel self u s = Raise TypeError s).
  { unfold SwitchNode_handle_inside, SwitchNode_handle_inside_body.
    step_get_node Hn. rewrite Hb. reflexivity. }
  repeat split.
  - unfold Node_check_update. step_get_node Hn. rewrite Hb. reflexivity.
  - unfold Node_handle_update. step_get_node Hn. rewrite Hb. reflexivity.
  - cbn [Node_handle_entry]. step_get_node Hn. rewrite Hb. reflexivity.
  - exact Hi.
  - exact Hs.
  - unfold handle_inside, handle_inside_body. step_get_node Hn.
    destruct (is_SwitchNode (Node.cls n)); [exact Hs|exact Hi].
Qed.

Lemma unbound_node_raises_TypeError_witness :
  Node_check_update 1%nat (MenuExample.upd "x")
    {| registry := ∅; nodes := MenuExample.children; log := [] |}
  = Raise TypeError
      {| registry := ∅; nodes := MenuExample.children; log := [] |}.
Proof.
  apply (unbound_node_raises_TypeError 1 1%nat (MenuExample.upd "x")
           MenuExample.child_x
           {| registry := ∅; nodes := MenuExample.children; log := [] |});
    reflexivity.
Defined.

(** ** Entering through the router *)

Ltac log_grows_side :=
  first
    [ apply log_grows_refl
    | apply log_grows_trans
    | intros e s0; exists [e]; reflexivity
    | intros; apply log_grows_same; reflexivity
    | intros; exact I ].

Lemma Node_handle_entry_log_grows fuel self u :
  respects log_grows (Node_handle_entry fuel self u).
Proof.
  apply respects_Node_handle_entry with (okf := fun _ => True);
    log_grows_side.
Qed.



(** ** Chains of automatic entries *)

(** The entry lifecycle of a node that passes through, up to the entry of
    its successor. *)
Lemma Node_handle_entry_passes fuel self u n us nx d s :
  nodes s !! self = Some n ->
  Node.user_status_list n = true ->
  registry s !! effective_user_id u = Some us ->
  passes_through n ->
  UserStatus.next_node us = None ->
  Node.next_node n = Some nx ->
  nodes s !! nx = Some d ->
  (forall cur, NodesHistory.current (UserStatus.nodes_history us) = Some cur ->
               is_Some (nodes s !! cur)) ->
  exists s_mid b,
    registry s_mid
    = <[effective_user_id u :=
          after_transition nx (Node.switch_on_this d)
            (UserStatus.enter_current_node us)]> (registry s) /\
    nodes s_mid
    = <[nx := Node.set_back_str b (Node.set_user_status_list true d)]>
        (nodes s) /\
    log_grows s s_mid /\
    Node_handle_entry (S fuel) self u s
    = if Node.auto_entry d then Node_handle_entry fuel nx u s_mid
      else Ok tt s_mid.
Proof.
  intros Hn Hb Hus (Hin & Hcls & Hh & Hg) Hpend Hnext Hd Hcur.
  set (uid := effective_user_id u) in *.
  cbn [Node_handle_entry]. fold uid.
  step. rewrite Hb. step. step.
  match goal with |- context [bind _ _ ?st] => set (s1 := st) end.
  destruct (optional_reply_ok (Node.parse_mode n) uid (Node.hello n)
              (entry_reply_markup n (UserStatus.nodes_history us)) s1 Hh)
    as (s2 & E & HR & HN & l2 & HL).
  assert (E' : (if truthy (Node.hello n)
                then let* us0 := user_status uid in
                     Node_reply (Node.parse_mode n) uid (Node.hello n)
                       (entry_reply_markup n (UserStatus.nodes_history us0))
                else ret tt) s1 = Ok tt s2).
  { destruct (truthy (Node.hello n)); [|exact E].
    erewrite bind_Ok by (apply user_status_eq; subst s1; lk).
    exact E. }
  step_with E'. rewrite Hin.
  subst s1. cbn [registry nodes log] in HR, HN, HL.
  assert (Hn2 : nodes s2 !! self = Some n) by (rewrite HN; exact Hn).
  assert (Hus2 : registry s2 !! uid = Some (UserStatus.enter_current_node us))
    by (rewrite HR; apply lookup_insert_eq).
  unfold handle_inside_body.
  rewrite (bind_Ok _ _ _ _ _ (get_node_eq _ _ _ Hn2)). rewrite Hcls.
  destruct (Node_handle_inside_body_next (Node_handle_entry fuel) self u n
              (UserStatus.enter_current_node us) nx d s2)
    as (s3 & s_mid & b & _ & X3 & HR3 & HN3 & HL3 & E3); try assumption.
  { unfold chosen_next. cbn. rewrite Hpend. exact Hnext. }
  { rewrite HN. exact Hd. }
  { rewrite HN. exact Hcur. }
  fold uid in HR3, E3.
  exists s_mid, b. rewrite E3.
  split; [rewrite HR3, HR; apply insert_insert_eq|].
  split; [rewrite HN3, HN; reflexivity|].
  split; [|reflexivity].
  destruct X3 as (_ & _ & l3 & HL3').
  exists (l2 ++ l3 ++ entry_callback_log n d).
  rewrite HL3, HL3', HL, <- !app_assoc. reflexivity.
Qed.

Lemma never_waits_insert C store nx d b l :
  never_waits C store ->
  store !! nx = Some d ->
  never_waits C
    (<[nx := Node.set_back_str b (Node.set_user_status_list l d)]> store).
Proof.
  intros H Hd r Hr. destruct (H r Hr) as (n & x & Hn & Hp & Ha & Hx & Hc).
  destruct (decide (nx = r)) as [->|Hne].
  - rewrite Hd in Hn. injection Hn as ->.
    exists (Node.set_back_str b (Node.set_user_status_list l n)), x.
    rewrite lookup_insert_eq. auto.
  - exists n, x. rewrite lookup_insert_ne by exact Hne. auto.
Qed.

Lemma history_top_after_transition (store : gmap node_ref Node.t) nx d d' push
    us :
  store !! nx = Some d ->
  (forall cur, NodesHistory.current (UserStatus.nodes_history us) = Some cur ->
               is_Some (store !! cur)) ->
  forall cur,
    NodesHistory.current
      (UserStatus.nodes_history
         (after_transition nx push (UserStatus.enter_current_node us)))
    = Some cur ->
    is_Some (<[nx := d']> store !! cur).
Proof.
  intros Hd Hcur cur. cbn. intros Hc.
  destruct (decide (nx = cur)) as [->|Hne].
  - rewrite lookup_insert_eq. eauto.
  - rewrite lookup_insert_ne by exact Hne.
    destruct push.
    + unfold NodesHistory.current in Hc. rewrite last_snoc in Hc. congruence.
    + apply Hcur. exact Hc.
Qed.

(** X17: nothing bounds a chain of automatic entries.  When the static
    successors from a node never leave a set of plain nodes that have no
    inside handlers and are entered automatically (a node that is its own
    successor, or any longer cycle), the entry lifecycle of that node calls
    itself again and again: whatever the recursion bound, it is exceeded
    before the call returns or raises. *)
Theorem handle_entry_on_cycle_exceeds_every_bound
    (C : node_ref -> Prop) (self : node_ref) (u : Update) (n : Node.t)
    (us : UserStatus.t) (s : state) :
  never_waits C (nodes s) ->
  C self ->
  nodes s !! self = Some n ->
  Node.user_status_list n = true ->
  registry s !! effective_user_id u = Some us ->
  UserStatus.next_node us = None ->
  (forall cur, NodesHistory.current (UserStatus.nodes_history us) = Some cur ->
               is_Some (nodes s !! cur)) ->
  forall fuel, Node_handle_entry fuel self u s = Abort OutOfFuel.
Proof.
  intros HC Hself Hn Hb Hus Hpend Hcur fuel.
  revert self n us s HC Hself Hn Hb Hus Hpend Hcur.
  induction fuel as [|fuel IH]; intros self n us s HC Hself Hn Hb Hus Hpend Hcur;
    [reflexivity|].
  destruct (HC self Hself) as (n0 & nx & Hn0 & Hp & _ & Hnext & Hnx).
  rewrite Hn in Hn0. injection Hn0 as <-.
  destruct (HC nx Hnx) as (d & x & Hd & _ & Ha & _ & _).
  destruct (Node_handle_entry_passes fuel self u n us nx d s)
    as (s_mid & b & HR & HN & _ & E); try assumption.
  rewrite E, Ha.
  apply (IH nx (Node.set_back_str b (Node.set_user_status_list true d))
            (after_transition nx (Node.switch_on_this d)
               (UserStatus.enter_current_node us))).
  - rewrite HN. apply never_waits_insert; assumption.
  - exact Hnx.
  - rewrite HN. apply lookup_insert_eq.
  - reflexivity.
  - rewrite HR. apply lookup_insert_eq.
  - reflexivity.
  - rewrite HN. eapply history_top_after_transition; eassumption.
Qed.

Lemma handle_entry_on_cycle_exceeds_every_bound_witness :
  Node_handle_entry 1000 0%nat CycleExample.u CycleExample.s0
  = Abort OutOfFuel.
Proof.
  apply (handle_entry_on_cycle_exceeds_every_bound
           (fun r => r = 0%nat \/ r = 1%nat) 0%nat CycleExample.u
           CycleExample.node_a CycleExample.session CycleExample.s0).
  - intros r [->| ->].
    + exists CycleExample.node_a, 1%nat. repeat split; auto.
    + exists CycleExample.node_b, 0%nat. repeat split; auto.
  - left. reflexivity.
  - reflexivity.
  - reflexivity.
  - reflexivity.
  - reflexivity.
  - intros cur H. injection H as <-. eexists. reflexivity.
Defined.

Lemma takes_part_insert store nx d b l r :
  store !! nx = Some d ->
  takes_part
    (<[nx := Node.set_back_str b (Node.set_user_status_list l d)]> store) r
  = takes_part store r.
Proof.
  intros Hd. unfold takes_part. destruct (decide (nx = r)) as [->|Hne].
  - rewrite lookup_insert_eq, Hd. reflexivity.
  - rewrite lookup_insert_ne by exact Hne. reflexivity.
Qed.

Lemma taking_part_cons store x path :
  taking_part store (x :: path)
  = (if takes_part store x then [x] else []) ++ taking_part store path.
Proof.
  unfold taking_part. rewrite filter_cons.
  destruct (takes_part store x);
    [rewrite decide_True by done|rewrite decide_False by done]; reflexivity.
Qed.

Lemma takes_part_lookup (store : gmap node_ref Node.t) r n :
  store !! r = Some n -> takes_part store r = Node.switch_on_this n.
Proof. intros H. unfold takes_part. rewrite H. reflexivity. Qed.

Lemma taking_part_insert store nx d b l path :
  store !! nx = Some d ->
  taking_part
    (<[nx := Node.set_back_str b (Node.set_user_status_list l d)]> store) path
  = taking_part store path.
Proof.
  intros Hd. unfold taking_part. apply list_filter_iff.
  intros r. rewrite (takes_part_insert store nx d b l r Hd). reflexivity.
Qed.

Lemma enters_automatically_insert store nx d b l r :
  store !! nx = Some d ->
  enters_automatically
    (<[nx := Node.set_back_str b (Node.set_user_status_list l d)]> store) r
  = enters_automatically store r.
Proof.
  intros Hd. unfold enters_automatically.
  destruct (decide (nx = r)) as [->|Hne].
  - rewrite lookup_insert_eq, Hd. reflexivity.
  - rewrite lookup_insert_ne by exact Hne. reflexivity.
Qed.

Lemma lookup_insert_wiring (store : gmap node_ref Node.t) nx d b l r n :
  store !! nx = Some d ->
  store !! r = Some n ->
  exists b' l',
    <[nx := Node.set_back_str b (Node.set_user_status_list l d)]> store !! r
    = Some (Node.set_back_str b' (Node.set_user_status_list l' n)).
Proof.
  intros Hd Hn. destruct (decide (nx = r)) as [->|Hne].
  - rewrite Hd in Hn. injection Hn as ->. exists b, l.
    apply lookup_insert_eq.
  - exists (Node.back_str n), (Node.user_status_list n).
    rewrite lookup_insert_ne by exact Hne. rewrite Hn.
    destruct n; reflexivity.
Qed.

Lemma leads_to_insert store nx d b l self path w :
  store !! nx = Some d ->
  leads_to store self path w ->
  leads_to (<[nx := Node.set_back_str b (Node.set_user_status_list l d)]> store)
    self path w.
Proof.
  intros Hd. revert self. induction path as [|x rest IH]; intros self.
  - intros (n & Hn & Hp & Hx).
    destruct (lookup_insert_wiring store nx d b l self n Hd Hn)
      as (b' & l' & E).
    eexists. split; [exact E|]. split; [exact Hp|exact Hx].
  - intros ((n & Hn & Hp & Hx) & (dx & Hdx & Ha) & Hrest).
    destruct (lookup_insert_wiring store nx d b l self n Hd Hn)
      as (b' & l' & E).
    destruct (lookup_insert_wiring store nx d b l x dx Hd Hdx)
      as (b2 & l2 & E2).
    split; [eexists; split; [exact E|]; split; [exact Hp|exact Hx]|].
    split; [eexists; split; [exact E2|exact Ha]|].
    apply IH. exact Hrest.
Qed.

Lemma stops_at_insert store nx d b l w :
  store !! nx = Some d ->
  stops_at store w ->
  stops_at (<[nx := Node.set_back_str b (Node.set_user_status_list l d)]> store)
    w.
Proof.
  intros Hd (dw & Hw & Hstop).
  destruct (lookup_insert_wiring store nx d b l w dw Hd Hw) as (b' & l' & E).
  eexists. split; [exact E|exact Hstop].
Qed.

(** X18: the entry lifecycle of a node without inside handlers moves the
    dialog on along the static successors for as long as they are plain
    nodes without inside handlers that are entered automatically, and
    returns at the first node that has inside handlers or is not entered
    automatically.  The session then displays that node, is inside it
    exactly when it is entered automatically, has no pending next node, and
    its history is the one before with, in order, those of the nodes moved
    to that have [switch_on_this] set; whether the user is entered is
    unchanged, the nodes keep their configuration and the log is only
    extended.  A recursion depth of the number of nodes moved to plus one
    is enough for the call to return. *)
Theorem handle_entry_walks_chain_to_waiting_node
    (fuel : nat) (self : node_ref) (path : list node_ref) (w : node_ref)
    (u : Update) (n : Node.t) (us : UserStatus.t) (s : state) :
  leads_to (nodes s) self path w ->
  stops_at (nodes s) w ->
  nodes s !! self = Some n ->
  Node.user_status_list n = true ->
  registry s !! effective_user_id u = Some us ->
  UserStatus.next_node us = None ->
  (forall cur, NodesHistory.current (UserStatus.nodes_history us) = Some cur ->
               is_Some (nodes s !! cur)) ->
  (length path + 2 <= fuel)%nat ->
  exists s' us',
    Node_handle_entry fuel self u s = Ok tt s' /\
    registry s' !! effective_user_id u = Some us' /\
    UserStatus.display_node us' = Some w /\
    UserStatus.nodes_history us'
    = UserStatus.nodes_history us ++ taking_part (nodes s) (path ++ [w]) /\
    UserStatus.is_inside_current_node us'
    = enters_automatically (nodes s) w /\
    UserStatus.next_node us' = None /\
    UserStatus.nodes_handler_entered us'
    = UserStatus.nodes_handler_entered us /\
    nodes_rewired s s' /\ log_grows s s'.
Proof.
  revert fuel self w u n us s.
  induction path as [|x rest IH];
    intros fuel self w u n us s Hlead Hstop Hn Hb Hus Hpend Hcur Hfuel.
  - destruct Hlead as (n0 & Hn0 & Hp & Hnext).
    rewrite Hn in Hn0. injection Hn0 as <-.
    destruct Hstop as (dw & Hw & Hstop).
    destruct fuel as [|fuel]; [cbn in Hfuel; lia|].
    destruct (Node_handle_entry_passes fuel self u n us w dw s)
      as (s_mid & b & HR & HN & HL & E); try assumption.
    rewrite E.
    assert (Hrew : nodes_rewired s s_mid).
    { intros r. rewrite HN. apply (nodes_rewired_insert w dw _ s Hw).
      exists b, true. reflexivity. }
    assert (Htp : taking_part (nodes s) ([] ++ [w])
                  = if Node.switch_on_this dw then [w] else []).
    { cbn [app]. rewrite taking_part_cons, (takes_part_lookup _ _ _ Hw).
      apply app_nil_r. }
    assert (Hea : enters_automatically (nodes s) w = Node.auto_entry dw)
      by (unfold enters_automatically; rewrite Hw; reflexivity).
    rewrite Htp, Hea.
    destruct (Node.auto_entry dw) eqn:Ea.
    + destruct Hstop as [Hf|[Hin Hh]]; [discriminate|].
      destruct (Node_handle_entry_waits_fuel fuel w u
                  (Node.set_back_str b (Node.set_user_status_list true dw))
                  (after_transition w (Node.switch_on_this dw)
                     (UserStatus.enter_current_node us)) s_mid)
        as (s' & us' & E' & HR' & -> & HN'); try assumption; try reflexivity.
      { rewrite HN. apply lookup_insert_eq. }
      { rewrite HR. apply lookup_insert_eq. }
      { cbn in Hfuel. lia. }
      pose proof (Node_handle_entry_log_grows fuel w u s_mid) as HL'.
      rewrite E' in HL'.
      exists s', (UserStatus.enter_current_node
                    (after_transition w (Node.switch_on_this dw)
                       (UserStatus.enter_current_node us))).
      split; [exact E'|]. split; [exact HR'|].
      split; [reflexivity|].
      split; [cbn; destruct (Node.switch_on_this dw);
              rewrite ?app_nil_r; reflexivity|].
      split; [reflexivity|]. split; [reflexivity|]. split; [reflexivity|].
      split; [|eapply log_grows_trans; eassumption].
      eapply nodes_rewired_trans; [exact Hrew|].
      apply nodes_rewired_same. exact HN'.
    + exists s_mid, (after_transition w (Node.switch_on_this dw)
                       (UserStatus.enter_current_node us)).
      split; [reflexivity|].
      split; [rewrite HR; apply lookup_insert_eq|].
      split; [reflexivity|].
      split; [cbn; destruct (Node.switch_on_this dw);
              rewrite ?app_nil_r; reflexivity|].
      split; [reflexivity|]. split; [reflexivity|]. split; [reflexivity|].
      split; assumption.
  - destruct Hlead as ((n0 & Hn0 & Hp & Hnext) & (d & Hd & Ha) & Hrest).
    rewrite Hn in Hn0. injection Hn0 as <-.
    destruct fuel as [|fuel]; [cbn in Hfuel; lia|].
    destruct (Node_handle_entry_passes fuel self u n us x d s)
      as (s_mid & b & HR & HN & HL & E); try assumption.
    rewrite E, Ha.
    assert (Hrew : nodes_rewired s s_mid).
    { intros r. rewrite HN. apply (nodes_rewired_insert x d _ s Hd).
      exists b, true. reflexivity. }
    destruct (IH fuel x w u
                (Node.set_back_str b (Node.set_user_status_list true d))
                (after_transition x (Node.switch_on_this d)
                   (UserStatus.enter_current_node us)) s_mid)
      as (s' & us' & E' & HR' & Hdn & Hh & Hi & Hnn & He & Hrew' & HL').
    { rewrite HN. apply leads_to_insert; assumption. }
    { rewrite HN. apply stops_at_insert; assumption. }
    { rewrite HN. apply lookup_insert_eq. }
    { reflexivity. }
    { rewrite HR. apply lookup_insert_eq. }
    { reflexivity. }
    { rewrite HN. eapply history_top_after_transition; eassumption. }
    { cbn in Hfuel. lia. }
    exists s', us'. split; [exact E'|]. split; [exact HR'|].
    split; [exact Hdn|].
    split.
    { rewrite Hh, HN. rewrite (taking_part_insert _ _ _ _ _ _ Hd).
      cbn [app]. rewrite taking_part_cons, (takes_part_lookup _ _ _ Hd). cbn.
      destruct (Node.switch_on_this d);
        rewrite <- ?app_assoc, ?app_nil_r; reflexivity. }
    split; [rewrite Hi, HN; apply (enters_automatically_insert _ _ _ _ _ _ Hd)|].
    split; [exact Hnn|]. split; [exact He|].
    split; [eapply nodes_rewired_trans|eapply log_grows_trans]; eassumption.
Qed.

Lemma handle_entry_walks_chain_to_waiting_node_witness :
  exists s' us',
    Node_handle_entry 4 0%nat ChainExample.u ChainExample.s0 = Ok tt s' /\
    registry s' !! 7 = Some us' /\
    UserStatus.display_node us' = Some 3%nat /\
    UserStatus.nodes_history us' = [0; 1; 3]%nat /\
    UserStatus.is_inside_current_node us' = true.
Proof.
  destruct (handle_entry_walks_chain_to_waiting_node 4 0%nat [1; 2]%nat 3%nat
              ChainExample.u ChainExample.node_a ChainExample.session
              ChainExample.s0)
    as (s' & us' & E & HR & Hd & Hh & Hi & _).
  - split; [exists ChainExample.node_a; repeat split; reflexivity|].
    split; [exists ChainExample.node_b; split; reflexivity|].
    split; [exists ChainExample.node_b; repeat split; reflexivity|].
    split; [exists ChainExample.node_c; split; reflexivity|].
    exists ChainExample.node_c. repeat split; reflexivity.
  - exists ChainExample.node_d. split; [reflexivity|]. right.
    split; [discriminate|reflexivity].
  - reflexivity.
  - reflexivity.
  - reflexivity.
  - reflexivity.
  - intros cur H. injection H as <-. eexists. reflexivity.
  - cbn. lia.
  - exists s', us'. repeat split; assumption.
Defined.

(** ** Forward and back on the history *)

(** X19: pushing a node onto a history that is not empty and going back at
    once undoes the push: [back] returns the node that was current before,
    and the session, its history included, is exactly as before.  What the
    round trip leaves behind is the back string of the node pushed, which
    [add] has overwritten with that of the node that was current. *)
Theorem history_add_then_back_restores
    (user_id : Z) (node cur : node_ref) (us : UserStatus.t) (c d : Node.t)
    (s : state) :
  registry s !! user_id = Some us ->
  NodesHistory.current (UserStatus.nodes_history us) = Some cur ->
  nodes s !! cur = Some c ->
  nodes s !! node = Some d ->
  (NodesHistory_add user_id node;;; NodesHistory_back user_id) s
  = Ok cur
       (set_nodes (<[node := Node.set_back_str (Node.back_str c) d]> (nodes s))
          s).
Proof.
  intros Hus Hcur Hc Hd.
  apply last_Some in Hcur as [h0 Hh].
  unfold NodesHistory_add, NodesHistory_back.
  step. unfold NodesHistory.current. rewrite Hh, last_snoc.
  step. step. step. step.
  norm_us. rewrite Hh, <- app_assoc. cbn [app].
  rewrite back_snoc2. cbn [fst snd].
  step. unfold ret. rewrite insert_insert_eq. norm_us.
  rewrite <- Hh.
  replace (UserStatus.set_nodes_history (UserStatus.nodes_history us)
             (UserStatus.set_nodes_history (h0 ++ [cur; node]) us))
    with us by (destruct us; reflexivity).
  rewrite (insert_id _ _ _ Hus). unfold set_nodes. reflexivity.
Qed.

Lemma history_add_then_back_restores_witness :
  (NodesHistory_add 7 0%nat;;; NodesHistory_back 7) WaitExample.s0
  = Ok 2%nat
       (set_nodes
          (<[0%nat := Node.set_back_str (Node.back_str WaitExample.node_c)
                        WaitExample.node_a]> (nodes WaitExample.s0))
          WaitExample.s0).
Proof.
  apply (history_add_then_back_restores 7 0%nat 2%nat WaitExample.session
           WaitExample.node_c WaitExample.node_a WaitExample.s0);
    reflexivity.
Defined.

(** ** Asking again *)



(** ** Updates that nothing matches *)

Lemma then_true_not_false (m : M unit) s s' : (m;;; ret true) s <> Ok false s'.
Proof. unfold bind, ret. destruct (m s); congruence. Qed.

Lemma check_candidates_false self u candidates s s' :
  Node_check_candidates self u candidates s = Ok false s' -> s' = s.
Proof.
  unfold Node_check_candidates.
  destruct (find _ candidates) as [c|].
  - unfold bind, ret.
    destruct (get_node self s) as [n s1| |]; try discriminate.
    destruct (user_status_list_getitem _ _ s1) as [[] s2| |]; try discriminate.
    destruct (update_user_status _ _ s2) as [[] s3| |]; discriminate.
  - unfold ret. congruence.
Qed.

Lemma Node_check_update_false self u us s s' :
  registry s !! effective_user_id u = Some us ->
  Node_check_update self u s = Ok false s' -> s' = s.
Proof.
  intros Hus. unfold Node_check_update.
  destruct (nodes s !! self) as [n|] eqn:Hn;
    [|unfold bind, get_node; rewrite Hn; discriminate].
  step_get_node Hn.
  destruct (Node.user_status_list n); [|discriminate].
  step_getitem Hus. step_user_status Hus.
  destruct (negb (UserStatus.is_inside_current_node us)).
  - apply check_candidates_false.
  - intros H. apply bind_Ok_inv in H as (b & s1 & E1 & E2).
    destruct b; [discriminate|].
    apply check_candidates_false in E1. subst s1.
    apply check_candidates_false in E2. exact E2.
Qed.

Lemma check_update_false nh u s s' :
  NodesHandler_check_update nh u s = Ok false s' ->
  s' = set_registry
         (fst (UserStatusList.getitem (effective_user_id u) (registry s))) s.
Proof.
  set (uid := effective_user_id u).
  unfold NodesHandler_check_update. fold uid.
  rewrite (bind_Ok _ _ _ tt
             (set_registry (fst (UserStatusList.getitem uid (registry s))) s))
    by reflexivity.
  set (s0 := set_registry (fst (UserStatusList.getitem uid (registry s))) s).
  assert (Hus0 : exists us0, registry s0 !! uid = Some us0).
  { subst s0. cbn [registry set_registry].
    destruct (registry s !! uid) as [us|] eqn:E.
    - rewrite (getitem_present _ _ _ E). eauto.
    - rewrite (getitem_absent _ _ E). cbn [fst].
      rewrite lookup_insert_eq. eauto. }
  destruct Hus0 as [us0 Hus0]. step_user_status Hus0.
  unfold set_current_handler.
  destruct (if negb (UserStatus.nodes_handler_entered us0)
               || NodesHandler.allow_reentry nh
            then first_match u (NodesHandler.entry_handlers nh)
            else None);
    [intros H; destruct (then_true_not_false _ _ _ H)|].
  destruct (UserStatus.nodes_handler_entered us0); [|unfold ret; congruence].
  destruct (NodesHistory.current (UserStatus.nodes_history us0)) as [cur|];
    [|discriminate].
  cbn [deref]. rewrite (bind_Ok _ _ _ cur s0) by reflexivity.
  destruct (nodes s0 !! cur) as [c|] eqn:Hc;
    [|unfold bind, get_node; rewrite Hc; discriminate].
  step_get_node Hc.
  destruct (if Node.allow_back c
               && NodesHistory.can_back (UserStatus.nodes_history us0)
            then first_match u (NodesHandler.back_handlers nh)
            else None);
    [intros H; destruct (then_true_not_false _ _ _ H)|].
  destruct (first_match u (NodesHandler.exit_handlers nh));
    [intros H; destruct (then_true_not_false _ _ _ H)|].
  intros H. apply bind_Ok_inv in H as (b & s1 & E1 & E2).
  destruct b; [destruct (then_true_not_false _ _ _ E2)|].
  apply (Node_check_update_false cur u us0) in E1; [|exact Hus0]. subst s1.
  destruct (first_match u (NodesHandler.fallback_handlers nh));
    [destruct (then_true_not_false _ _ _ E2)|].
  unfold ret in E2. congruence.
Qed.

(** X21: an update that the router does not accept has no effect.  When
    [check_update] returns false, [handle_update] is not called, nothing is
    sent, no callback runs, the node store and every session are as they
    were; the only trace is the fresh session that indexing the registry
    creates for a user it had not seen. *)
Theorem unmatched_update_changes_nothing
    (fuel : nat) (nh : NodesHandler.t) (u : Update) (s s' : state) :
  dispatch fuel nh u s = Ok false s' ->
  NodesHandler_check_update nh u s = Ok false s' /\
  s' = set_registry
         (fst (UserStatusList.getitem (effective_user_id u) (registry s))) s /\
  (forall us, registry s !! effective_user_id u = Some us -> s' = s).
Proof.
  intros H. unfold dispatch in H.
  apply bind_Ok_inv in H as (accepted & s1 & E1 & E2).
  destruct accepted.
  - apply bind_Ok_inv in E2 as (r & s2 & _ & E3). discriminate.
  - unfold ret in E2. injection E2 as ->.
    split; [exact E1|].
    pose proof (check_update_false nh u s s' E1) as Hs.
    split; [exact Hs|].
    intros us Hus. rewrite Hs, (getitem_present _ _ _ Hus).
    destruct s; reflexivity.
Qed.

Lemma unmatched_update_changes_nothing_witness :
  dispatch 1 WaitExample.router
    {| effective_user_id := 7; text := "anything else" |} WaitExample.s0
  = Ok false WaitExample.s0.
Proof.
  assert (E : exists s',
             dispatch 1 WaitExample.router
               {| effective_user_id := 7; text := "anything else" |}
               WaitExample.s0 = Ok false s').
  { eexists. vm_compute. reflexivity. }
  destruct E as [s' E]. rewrite E. f_equal.
  destruct (unmatched_update_changes_nothing 1 WaitExample.router
              {| effective_user_id := 7; text := "anything else" |}
              WaitExample.s0 s' E) as (_ & _ & H).
  apply (H WaitExample.session). reflexivity.
Defined.

(** ** Electing a handler *)

Lemma only_elects_refl user_id s : only_elects user_id s s.
Proof. repeat split. Qed.

Lemma only_elects_trans user_id s1 s2 s3 :
  only_elects user_id s1 s2 -> only_elects user_id s2 s3 ->
  only_elects user_id s1 s3.
Proof.
  intros (L1 & N1 & O1 & V1) (L2 & N2 & O2 & V2).
  split; [congruence|]. split; [congruence|]. split; [|congruence].
  intros other Hne. rewrite (O2 other Hne). apply O1. exact Hne.
Qed.

Lemma only_elects_getitem user_id s :
  only_elects user_id s
    (set_registry (fst (UserStatusList.getitem user_id (registry s))) s).
Proof.
  split; [reflexivity|]. split; [reflexivity|]. split.
  - intros other Hne. cbn [registry set_registry].
    apply getitem_other. exact Hne.
  - rewrite session_of_getitem. reflexivity.
Qed.

Lemma only_elects_update user_id f us s :
  (forall us0, navigation (f us0) = navigation us0) ->
  registry s !! user_id = Some us ->
  only_elects user_id s
    (set_registry (<[user_id := f us]> (registry s)) s).
Proof.
  intros Hf Hus. split; [reflexivity|]. split; [reflexivity|]. split.
  - intros other Hne. cbn [registry set_registry].
    apply lookup_insert_ne. congruence.
  - rewrite (session_of_lookup user_id (f us))
      by (cbn [registry set_registry]; apply lookup_insert_eq).
    rewrite (session_of_lookup _ _ _ Hus). apply Hf.
Qed.

(** X22: [check_update], of the router and of a node, only elects.  Whether
    it returns true, returns false or raises, it has sent nothing and run no
    callback, has written to no node and to no session of another user, and
    in the session of the user of the update it has changed at most the two
    slots that hold the elected handlers: whether the user is entered, the
    history, the displayed node, the inside flag and the pending next node
    are as before. *)
Theorem check_update_only_elects
    (nh : NodesHandler.t) (self : node_ref) (u : Update) :
  respects (only_elects (effective_user_id u)) (NodesHandler_check_update nh u)
  /\
  respects (only_elects (effective_user_id u)) (Node_check_update self u).
Proof.
  split.
  - apply respects_check_update
      with (okf := fun f => forall us0, navigation (f us0) = navigation us0).
    + apply only_elects_refl.
    + apply only_elects_trans.
    + apply only_elects_getitem.
    + intros f us s Hf Hus. apply only_elects_update; assumption.
    + intros h us0. reflexivity.
    + intros h us0. reflexivity.
  - apply respects_Node_check_update
      with (okf := fun f => forall us0, navigation (f us0) = navigation us0).
    + apply only_elects_refl.
    + apply only_elects_trans.
    + apply only_elects_getitem.
    + intros f us s Hf Hus. apply only_elects_update; assumption.
    + intros h us0. reflexivity.
Qed.

(** ** The router cannot be left *)

Lemma respects_weaken (R R' : state -> state -> Prop) {A} (m : M A) :
  (forall s s', R s s' -> R' s s') -> respects R m -> respects R' m.
Proof.
  intros HR H s. specialize (H s). destruct (m s); auto.
Qed.

Lemma entered_kept_refl user_id s : entered_kept user_id s s.
Proof. intros H. exact H. Qed.

Lemma entered_kept_trans user_id s1 s2 s3 :
  entered_kept user_id s1 s2 -> entered_kept user_id s2 s3 ->
  entered_kept user_id s1 s3.
Proof. unfold entered_kept. auto. Qed.

Lemma entered_kept_same user_id s s' :
  session_of user_id s' = session_of user_id s -> entered_kept user_id s s'.
Proof. intros H. unfold entered_kept. rewrite H. auto. Qed.

Lemma entered_kept_update user_id f us s :
  keeps_entered f ->
  registry s !! user_id = Some us ->
  entered_kept user_id s (set_registry (<[user_id := f us]> (registry s)) s).
Proof.
  intros Hf Hus. unfold entered_kept.
  rewrite (session_of_lookup _ us s Hus).
  rewrite (session_of_lookup user_id (f us))
    by (cbn [registry set_registry]; apply lookup_insert_eq).
  apply Hf.
Qed.

Lemma entered_kept_history_grows user_id s s' :
  history_grows user_id s s' -> entered_kept user_id s s'.
Proof. intros [E _] H. rewrite E. exact H. Qed.

Ltac entered_kept_side :=
  first
    [ apply entered_kept_refl
    | apply entered_kept_trans
    | intros; apply entered_kept_same; reflexivity
    | intros; apply entered_kept_update; assumption ].

Lemma entered_kept_bind user_id {A B} (m : M A) (k : A -> M B) :
  respects (entered_kept user_id) m ->
  (forall a, respects (entered_kept user_id) (k a)) ->
  respects (entered_kept user_id) (bind m k).
Proof. apply respects_bind. apply entered_kept_trans. Qed.

Lemma entered_kept_write u f :
  keeps_entered f ->
  respects (entered_kept (effective_user_id u))
    (update_user_status (effective_user_id u) f).
Proof.
  apply respects_update with (okf := keeps_entered).
  intros; apply entered_kept_update; assumption.
Qed.

Lemma entered_kept_handler u h :
  respects (entered_kept (effective_user_id u)) (Handler_handle_update h u).
Proof. apply respects_handler; entered_kept_side. Qed.

Lemma entered_kept_history_back u :
  respects (entered_kept (effective_user_id u))
    (NodesHistory_back (effective_user_id u)).
Proof.
  apply respects_history_back with (okf := keeps_entered);
    try entered_kept_side.
  intros h us H. exact H.
Qed.

(** What [handle_update] does with the elected handler, when that is not
    one that leads to the exit branch. *)
Lemma handle_update_rest_keeps_entered fuel nh u handler :
  misses_exit_branch nh handler ->
  respects (entered_kept (effective_user_id u))
    (let* handle_result :=
       match handler with
       | HHandler h => Handler_handle_update h u
       | HNode n => Node_handle_update fuel n u
       | HList _ => raise AttributeError
       end in
     (if current_handler_in handler (NodesHandler.entry_handlers nh)
         || current_handler_in handler (NodesHandler.back_handlers nh) then
        (if current_handler_in handler (NodesHandler.entry_handlers nh) then
           update_user_status (effective_user_id u)
             UserStatus.enter_nodes_handler;;;
           update_user_status (effective_user_id u)
             (UserStatus.set_display_node (Some (NodesHandler.root_node nh)));;;
           update_user_status (effective_user_id u)
             (UserStatus.set_nodes_history
                (NodesHistory.set_root (NodesHandler.root_node nh)))
         else
           let* _ := NodesHistory_back (effective_user_id u) in
           let* us := user_status (effective_user_id u) in
           update_user_status (effective_user_id u)
             (UserStatus.set_display_node
                (NodesHistory.current (UserStatus.nodes_history us)));;;
           update_user_status (effective_user_id u)
             UserStatus.enter_current_node);;;
        let* us := user_status (effective_user_id u) in
        let* dn := deref (UserStatus.display_node us) in
        let* d := get_node dn in
        match last (Node.entry_handlers d) with
        | Some h => let* _ := Handler_handle_update h u in ret tt
        | None => ret tt
        end;;;
        let* cur := deref (NodesHistory.current (UserStatus.nodes_history us)) in
        Node_handle_entry fuel cur u
      else if current_handler_in handler (NodesHandler.exit_handlers nh) then
        update_user_status (effective_user_id u) UserStatus.exit_nodes_handler
      else ret tt);;;
     ret handle_result).
Proof.
  intros Hmiss.
  set (uid := effective_user_id u).
  assert (Hret : forall A (a : A), respects (entered_kept uid) (ret a))
    by (intros; apply respects_ret, entered_kept_refl).
  assert (Hus : respects (entered_kept uid) (user_status uid))
    by (apply respects_user_status, entered_kept_refl).
  assert (Hderef : forall A (o : option A), respects (entered_kept uid) (deref o))
    by (intros; apply respects_deref, entered_kept_refl).
  assert (Hwrite : forall f, (forall us, UserStatus.nodes_handler_entered (f us)
                                         = UserStatus.nodes_handler_entered us) ->
                             respects (entered_kept uid) (update_user_status uid f)).
  { intros f Hf. apply entered_kept_write. intros us H. rewrite Hf. exact H. }
  apply entered_kept_bind.
  { destruct handler as [h|n|l].
    - apply entered_kept_handler.
    - eapply respects_weaken;
        [apply entered_kept_history_grows
        |apply Node_handle_update_history_grows].
    - apply respects_raise, entered_kept_refl. }
  intros handle_result.
  apply entered_kept_bind; [|intros _; apply Hret].
  destruct (current_handler_in handler (NodesHandler.entry_handlers nh)
            || current_handler_in handler (NodesHandler.back_handlers nh))
    eqn:E.
  - apply entered_kept_bind.
    { destruct (current_handler_in handler (NodesHandler.entry_handlers nh)).
      - apply entered_kept_bind;
          [apply entered_kept_write; intros us _; reflexivity|].
        intros _. apply entered_kept_bind; [apply Hwrite; reflexivity|].
        intros _. apply Hwrite. reflexivity.
      - apply entered_kept_bind; [apply entered_kept_history_back|].
        intros _. apply entered_kept_bind; [apply Hus|]. intros us'.
        apply entered_kept_bind; [apply Hwrite; reflexivity|].
        intros _. apply Hwrite. reflexivity. }
    intros _. apply entered_kept_bind; [apply Hus|]. intros us'.
    apply entered_kept_bind; [apply Hderef|]. intros dn.
    apply entered_kept_bind; [apply respects_get_node, entered_kept_refl|].
    intros d. apply entered_kept_bind.
    { destruct (last (Node.entry_handlers d)); [|apply Hret].
      apply entered_kept_bind; [apply entered_kept_handler|].
      intros _. apply Hret. }
    intros _. apply entered_kept_bind; [apply Hderef|]. intros cur.
    eapply respects_weaken;
      [apply entered_kept_history_grows|apply Node_handle_entry_history_grows].
  - rewrite (Hmiss E). apply Hret.
Qed.

Lemma set_current_handler_elected user_id X st s1 :
  (set_current_handler user_id X;;; ret true) st = Ok true s1 ->
  exists us1,
    registry s1 !! user_id = Some us1 /\
    UserStatus.current_handler us1 = Some X.
Proof.
  unfold set_current_handler, update_user_status, bind, ret.
  destruct (registry st !! user_id) as [us|]; [|discriminate].
  intros H. injection H as <-. eexists.
  split; [cbn [registry set_registry]; apply lookup_insert_eq|reflexivity].
Qed.

Lemma guarded_match_in (guard : bool) u l h :
  (if guard then first_match u l else None) = Some h ->
  handler_in h l = true.
Proof.
  destruct guard; [|discriminate]. apply find_handler_in.
Qed.

Lemma fallback_is_no_exit_handler nh u h :
  exit_identities_faithful nh ->
  first_match u (NodesHandler.exit_handlers nh) = None ->
  first_match u (NodesHandler.fallback_handlers nh) = Some h ->
  handler_in h (NodesHandler.exit_handlers nh) = false.
Proof.
  intros Hid Hexit Hfb.
  destruct (handler_in h (NodesHandler.exit_handlers nh)) eqn:E; [|reflexivity].
  unfold handler_in in E. apply existsb_exists in E as (c & Hc & Heq).
  apply Nat.eqb_eq in Heq.
  unfold first_match in Hfb. apply find_some in Hfb as [Hh Hacc].
  assert (c = h).
  { apply Hid; [apply list_elem_of_In; exact Hc
               |apply list_elem_of_In; exact Hh|exact Heq]. }
  subst c.
  pose proof (find_none _ _ Hexit h Hc) as Hno. cbv beta in Hno. congruence.
Qed.

(** What [check_update] has elected when it returns true. *)
Lemma check_update_elected nh u s s1 :
  exit_identities_faithful nh ->
  NodesHandler_check_update nh u s = Ok true s1 ->
  exists us1 handler,
    registry s1 !! effective_user_id u = Some us1 /\
    UserStatus.current_handler us1 = Some handler /\
    misses_exit_branch nh handler.
Proof.
  intros Hid. set (uid := effective_user_id u).
  unfold NodesHandler_check_update. fold uid.
  rewrite (bind_Ok _ _ _ tt
             (set_registry (fst (UserStatusList.getitem uid (registry s))) s))
    by reflexivity.
  set (s0 := set_registry (fst (UserStatusList.getitem uid (registry s))) s).
  destruct (registry s0 !! uid) as [us0|] eqn:Hus0;
    [|unfold bind, user_status; rewrite Hus0; discriminate].
  step_user_status Hus0.
  destruct (if negb (UserStatus.nodes_handler_entered us0)
               || NodesHandler.allow_reentry nh
            then first_match u (NodesHandler.entry_handlers nh)
            else None) as [h|] eqn:Eentry.
  { intros H. apply set_current_handler_elected in H as (us1 & H1 & H2).
    exists us1, (HHandler h). split; [exact H1|]. split; [exact H2|].
    unfold misses_exit_branch. cbn [current_handler_in].
    rewrite (guarded_match_in _ _ _ _ Eentry). discriminate. }
  destruct (UserStatus.nodes_handler_entered us0); [|discriminate].
  destruct (NodesHistory.current (UserStatus.nodes_history us0)) as [cur|];
    [|discriminate].
  cbn [deref]. rewrite (bind_Ok _ _ _ cur s0) by reflexivity.
  destruct (nodes s0 !! cur) as [c|] eqn:Hc;
    [|unfold bind, get_node; rewrite Hc; discriminate].
  step_get_node Hc.
  destruct (if Node.allow_back c
               && NodesHistory.can_back (UserStatus.nodes_history us0)
            then first_match u (NodesHandler.back_handlers nh)
            else None) as [h|] eqn:Eback.
  { intros H. apply set_current_handler_elected in H as (us1 & H1 & H2).
    exists us1, (HHandler h). split; [exact H1|]. split; [exact H2|].
    unfold misses_exit_branch. cbn [current_handler_in].
    rewrite (guarded_match_in _ _ _ _ Eback), orb_true_r. discriminate. }
  destruct (first_match u (NodesHandler.exit_handlers nh)) as [h|] eqn:Eexit.
  { intros H. apply set_current_handler_elected in H as (us1 & H1 & H2).
    exists us1, (HList (NodesHandler.exit_handlers nh)).
    split; [exact H1|]. split; [exact H2|]. intros _. reflexivity. }
  intros H. apply bind_Ok_inv in H as (b & s2 & E1 & E2).
  destruct b.
  { apply set_current_handler_elected in E2 as (us1 & H1 & H2).
    exists us1, (HNode cur). split; [exact H1|]. split; [exact H2|].
    intros _. reflexivity. }
  destruct (first_match u (NodesHandler.fallback_handlers nh)) as [h|] eqn:Efb;
    [|discriminate].
  apply set_current_handler_elected in E2 as (us1 & H1 & H2).
  exists us1, (HHandler h). split; [exact H1|]. split; [exact H2|].
  intros _. cbn [current_handler_in].
  apply (fallback_is_no_exit_handler nh u h Hid Eexit Efb).
Qed.

(** X23: no update makes the router mark a user as not entered.  The exit
    level of [check_update] elects the list of exit handlers, on which
    [handle_update] fails before its exit branch, and a handler elected at
    any other level does not lead to that branch; so, whether handling an
    update returns or raises, a user who was entered is entered
    afterwards. *)
Theorem dispatch_never_leaves_the_router
    (fuel : nat) (nh : NodesHandler.t) (u : Update) :
  exit_identities_faithful nh ->
  respects (entered_kept (effective_user_id u)) (dispatch fuel nh u).
Proof.
  intros Hid s. set (uid := effective_user_id u).
  pose proof (check_update_history_grows nh u s) as Hcheck.
  unfold dispatch, bind at 1.
  destruct (NodesHandler_check_update nh u s) as [accepted s1|e s1|a] eqn:E;
    try exact I; [|apply entered_kept_history_grows; exact Hcheck].
  apply entered_kept_history_grows in Hcheck.
  destruct accepted; [|exact Hcheck].
  destruct (check_update_elected nh u s s1 Hid E)
    as (us1 & handler & Hus1 & Hh & Hmiss).
  fold uid in Hus1, Hcheck.
  assert (Hrest :
    match NodesHandler_handle_update fuel nh u s1 with
    | Ok _ s' | Raise _ s' => entered_kept uid s1 s'
    | Abort _ => True
    end).
  { unfold NodesHandler_handle_update. fold uid.
    step_getitem Hus1. step.
    erewrite bind_Ok by (apply user_status_eq; lk).
    cbv beta. rewrite Hh. cbn [deref].
    erewrite bind_Ok by reflexivity. cbv beta.
    pose proof (handle_update_rest_keeps_entered fuel nh u handler Hmiss
                  {| registry := registry s1; nodes := nodes s1;
                     log := log s1 ++ [send_chat_action uid] |}) as H.
    fold uid in H.
    match goal with
    | |- match ?m with _ => _ end =>
        match type of H with
        | match ?m' with _ => _ end => change m with m'
        end
    end.
    destruct (_ : result handle_result) as [r s'|e s'|a]; try exact I;
      intros He; apply H; unfold session_of in *; exact He. }
  unfold bind.
  destruct (NodesHandler_handle_update fuel nh u s1) as [r s'|e s'|a];
    try exact I; unfold ret;
    eapply entered_kept_trans; eassumption.
Qed.

Lemma dispatch_never_leaves_the_router_witness :
  exists s2,
    dispatch 1 LeaveExample.router ExitExample.u_quit LeaveExample.s1
    = Raise AttributeError s2 /\
    UserStatus.nodes_handler_entered (session_of 7 s2) = true.
Proof.
  assert (E : exists s2,
             dispatch 1 LeaveExample.router ExitExample.u_quit LeaveExample.s1
             = Raise AttributeError s2)
    by (eexists; vm_compute; reflexivity).
  destruct E as [s2 E]. exists s2. split; [exact E|].
  assert (Hid : exit_identities_faithful LeaveExample.router)
    by (intros c h _ Hh; apply elem_of_nil in Hh; destruct Hh).
  pose proof (dispatch_never_leaves_the_router 1 LeaveExample.router
                ExitExample.u_quit Hid LeaveExample.s1) as H.
  rewrite E in H. apply H. reflexivity.
Defined.

(** ** Going back through the router *)


